(** * Renovation cost estimator: unit aggregation, cost totals, payments,
      sanitisation, taxonomy validation, pre-validate pass and repair.

    A shallow embedding of [controllers/api/projects.js] and
    [models/project.js], with the validators and patterns of the schemas
    and the earlier revision of the sanitizer kept in [unnamed/part_000].

    Conventions of the embedding.
    - A JavaScript number is an exact rational ([Q]) or [NaN]: binary
      rounding, overflow, the infinities and the sign of zero are outside
      the model.  Two rationals denote the same number when they are
      [Qeq]-related.
    - A JavaScript string is a Rocq [string] read as a sequence of code
      units below 256.
    - A request payload is a JSON tree ([value]).  Object keys are assumed
      not to shadow the members of [Object.prototype].
    - A persisted document is a record typed by its Mongoose schema.
    - [console.log], [console.warn] and [console.error] have no effect on
      the results and are left out, except where evaluating their argument
      can raise. *)

From Stdlib Require Import ZArith QArith Qround Qabs Qminmax Lia Lqa.
From Stdlib Require Import List String Ascii Bool DecimalString Permutation.
Import ListNotations.

Set Warnings "-register-all".

Local Open Scope string_scope.

(* ===================================================================== *)
(** ** Exceptions and fallible results                                    *)
(* ===================================================================== *)

Inductive exn : Type :=
| Error (message : string)   (* [throw new Error(message)] *)
| TypeError.                 (* raised by the engine; message engine-specific *)

Inductive result (A : Type) : Type :=
| Ok (a : A)
| Throw (e : exn).

Arguments Ok {A} a.
Arguments Throw {A} e.

Definition bind {A B} (r : result A) (k : A -> result B) : result B :=
  match r with
  | Ok a => k a
  | Throw e => Throw e
  end.

Declare Scope js_scope.
Delimit Scope js_scope with js.
Notation "x <- c1 ;; c2" := (bind c1 (fun x => c2))
  (at level 61, c1 at next level, right associativity) : js_scope.
Local Open Scope js_scope.

Definition succeeded {A} (r : result A) : bool :=
  match r with Ok _ => true | Throw _ => false end.

(* ===================================================================== *)
(** ** Strings                                                            *)
(* ===================================================================== *)

Module JSString.

Definition code (c : ascii) : Z := Z.of_N (N_of_ascii c).

(** WhiteSpace and LineTerminator code units below 256:
    TAB, LF, VT, FF, CR, SP and NBSP. *)
Definition isWhiteSpace (c : ascii) : bool :=
  let n := code c in
  ((9 <=? n) && (n <=? 13) || (n =? 32) || (n =? 160))%Z.

Fixpoint trimStart (s : string) : string :=
  match s with
  | String c s' => if isWhiteSpace c then trimStart s' else s
  | EmptyString => EmptyString
  end.

Fixpoint trimEnd (s : string) : string :=
  match s with
  | String c s' =>
      match trimEnd s' with
      | EmptyString => if isWhiteSpace c then EmptyString else String c EmptyString
      | t => String c t
      end
  | EmptyString => EmptyString
  end.

(** [String.prototype.trim] *)
Definition trim (s : string) : string := trimEnd (trimStart s).

Definition lowerChar (c : ascii) : ascii :=
  let n := code c in
  if ((65 <=? n) && (n <=? 90)
      || (192 <=? n) && (n <=? 222) && negb (n =? 215))%Z
  then ascii_of_N (N_of_ascii c + 32)
  else c.

(** [String.prototype.toLowerCase] *)
Fixpoint toLowerCase (s : string) : string :=
  match s with
  | String c s' => String (lowerChar c) (toLowerCase s')
  | EmptyString => EmptyString
  end.

(** [String.prototype.startsWith] *)
Definition startsWith (s p : string) : bool := String.prefix p s.

(** [Array.prototype.includes] on an array of strings *)
Definition includes (l : list string) (s : string) : bool :=
  existsb (String.eqb s) l.

(** [Array.prototype.join] on an array of strings *)
Definition join (sep : string) (l : list string) : string :=
  String.concat sep l.

(** Decimal rendering of an array index inside a template literal. *)
Definition ofNat (n : nat) : string :=
  NilZero.string_of_uint (Nat.to_uint n).

End JSString.

(* ===================================================================== *)
(** ** Numbers                                                            *)
(* ===================================================================== *)

Inductive number : Type :=
| Num (q : Q)
| NaN.

Module JSNumber.

Local Open Scope Q_scope.

Definition lift2 (f : Q -> Q -> Q) (a b : number) : number :=
  match a, b with
  | Num x, Num y => Num (f x y)
  | _, _ => NaN
  end.

Definition add := lift2 Qplus.
Definition sub := lift2 Qminus.
Definition mul := lift2 Qmult.

(** [n || 0]: [NaN] and zero are falsy, so the result is always a
    rational. *)
Definition orZero (n : number) : Q :=
  match n with
  | Num q => q
  | NaN => 0
  end.

(** [Number(x.toFixed(2))] on a rational: the nearest multiple of 1/100,
    ties going to the larger magnitude (toFixed picks the larger [n] and
    treats the sign separately).  From 1e21 upwards toFixed returns the
    number's own text; a double of that size is an integer, which this
    rounding leaves as it is. *)
Definition round2 (x : Q) : Q :=
  if Qle_bool 0 x
  then (Qfloor (x * 100 + (1 # 2)) # 100)
  else ((- Qfloor ((- x) * 100 + (1 # 2)))%Z # 100).

(** [Number(n.toFixed(2))]; [NaN.toFixed(2)] is the text "NaN". *)
Definition toFixed2 (n : number) : number :=
  match n with
  | Num q => Num (round2 q)
  | NaN => NaN
  end.

(** [Math.max(0, n)] *)
Definition max0 (n : number) : number :=
  match n with
  | Num q => Num (Qmax 0 q)
  | NaN => NaN
  end.

(** *** Reading numbers from text

    The literal [Infinity] denotes no rational and is read as [NaN]. *)

Definition digitValue (radix : Z) (c : ascii) : option Z :=
  let n := JSString.code c in
  let d := (if (48 <=? n) && (n <=? 57) then n - 48
            else if (97 <=? n) && (n <=? 122) then n - 87
            else if (65 <=? n) && (n <=? 90) then n - 55
            else 99)%Z in
  if (d <? radix)%Z then Some d else None.

(** The longest run of digits in [radix] at the head of [s]: its value,
    its length and the rest of the text. *)
Fixpoint readDigits (radix : Z) (s : string) (acc : Z) (count : nat)
  : Z * nat * string :=
  match s with
  | String c s' =>
      match digitValue radix c with
      | Some d => readDigits radix s' (radix * acc + d)%Z (S count)
      | None => (acc, count, s)
      end
  | EmptyString => (acc, count, s)
  end.

Definition readSign (s : string) : Z * string :=
  match s with
  | String "+" r => (1%Z, r)
  | String "-" r => ((-1)%Z, r)
  | _ => (1%Z, s)
  end.

(** ExponentPart, consumed only when well formed. *)
Definition readExponent (s : string) : Z * string :=
  match s with
  | String c s1 =>
      if (c =? "e")%char || (c =? "E")%char then
        let '(sgn, s2) := readSign s1 in
        let '(v, n, rest) := readDigits 10 s2 0 0 in
        match n with
        | O => (0%Z, s)
        | _ => ((sgn * v)%Z, rest)
        end
      else (0%Z, s)
  | EmptyString => (0%Z, s)
  end.

(** The longest prefix of [s] that is an unsigned decimal literal
    (digits, optional fraction, optional exponent). *)
Definition readUnsignedDecimal (s : string) : option (Q * string) :=
  let '(ip, ni, s1) := readDigits 10 s 0 0 in
  match s1 with
  | String "." s2 =>
      let '(fp, nf, s3) := readDigits 10 s2 0 0 in
      match ni, nf with
      | O, O => None
      | _, _ =>
          let '(e, rest) := readExponent s3 in
          Some ((inject_Z ip + inject_Z fp / inject_Z (10 ^ Z.of_nat nf))
                * Qpower 10 e, rest)
      end
  | _ =>
      match ni with
      | O => None
      | _ =>
          let '(e, rest) := readExponent s1 in
          Some (inject_Z ip * Qpower 10 e, rest)
      end
  end.

(** [parseFloat] on a string. *)
Definition parseFloatString (s : string) : number :=
  let '(sgn, s1) := readSign (JSString.trimStart s) in
  match readUnsignedDecimal s1 with
  | Some (q, _) => Num (inject_Z sgn * q)
  | None => NaN
  end.

(** [parseInt] on a string, no radix argument. *)
Definition parseIntString (s : string) : number :=
  let '(sgn, s1) := readSign (JSString.trimStart s) in
  let '(radix, s2) :=
    match s1 with
    | String "0" (String "x" r) | String "0" (String "X" r) => (16%Z, r)
    | _ => (10%Z, s1)
    end in
  let '(v, n, _) := readDigits radix s2 0 0 in
  match n with
  | O => NaN
  | _ => Num (inject_Z (sgn * v))
  end.

Definition readRadixLiteral (radix : Z) (s : string) : number :=
  let '(v, n, rest) := readDigits radix s 0 0 in
  match n, rest with
  | S _, EmptyString => Num (inject_Z v)
  | _, _ => NaN
  end.

(** StringToNumber: the whole trimmed text must be a numeric literal;
    the empty text is zero. *)
Definition stringToNumber (s : string) : number :=
  match JSString.trim s with
  | EmptyString => Num 0
  | String "0" (String "x" r) | String "0" (String "X" r) => readRadixLiteral 16 r
  | String "0" (String "o" r) | String "0" (String "O" r) => readRadixLiteral 8 r
  | String "0" (String "b" r) | String "0" (String "B" r) => readRadixLiteral 2 r
  | t =>
      let '(sgn, s1) := readSign t in
      match readUnsignedDecimal s1 with
      | Some (q, EmptyString) => Num (inject_Z sgn * q)
      | _ => NaN
      end
  end.

(** *** [parseInt] on a number

    [parseInt] first renders its argument as text.  A number of
    magnitude in [1e-6, 1e21) is rendered in positional notation, and
    the digits before the point are its integer part.  Any other
    non-zero number is rendered in exponent notation, [d.ddd e±n], and
    the digits before the first non-digit are the single leading
    digit. *)

Definition truncate (q : Q) : Z := Z.quot (Qnum q) (Zpos (Qden q)).

Fixpoint scaleUp (fuel : nat) (a : Q) : Q :=
  match fuel with
  | O => a
  | S f => if Qle_bool 1 a then a else scaleUp f (a * 10)
  end.

Fixpoint scaleDown (fuel : nat) (a : Q) : Q :=
  match fuel with
  | O => a
  | S f => if Qle_bool 10 a then scaleDown f (a / 10) else a
  end.

(** Leading significant decimal digit of a positive rational. *)
Definition leadingDigit (a : Q) : Z :=
  let up := scaleUp (S (Z.to_nat (Z.log2 (Zpos (Qden a))))) a in
  Qfloor (scaleDown (S (Z.to_nat (Z.log2 (Qnum up)))) up).

Definition positional (q : Q) : bool :=
  Qle_bool (1 # 1000000) (Qabs q)
  && negb (Qle_bool (inject_Z (10 ^ 21)) (Qabs q)).

Definition parseIntNumber (q : Q) : Q :=
  if Qeq_bool q 0 then 0
  else if positional q then inject_Z (truncate q)
  else inject_Z (Z.sgn (Qnum q) * leadingDigit (Qabs q)).

End JSNumber.

(* ===================================================================== *)
(** ** JSON values and the coercions the controller applies to them       *)
(* ===================================================================== *)

Inductive value : Type :=
| VUndefined                               (* an absent property *)
| VNull
| VBool (b : bool)
| VNum (q : Q)
| VStr (s : string)
| VArr (items : list value)
| VObj (fields : list (string * value)).

Module JSValue.

Import JSNumber.

(** ToBoolean *)
Definition truthy (v : value) : bool :=
  match v with
  | VUndefined | VNull => false
  | VBool b => b
  | VNum q => negb (Qeq_bool q 0)
  | VStr s => negb (s =? "")
  | VArr _ | VObj _ => true
  end.

(** [a || b] *)
Definition orElse (a b : value) : value := if truthy a then a else b.

(** [typeof v === 'object'] *)
Definition typeofObject (v : value) : bool :=
  match v with
  | VNull | VArr _ | VObj _ => true
  | _ => false
  end.

(** [Array.isArray(v)] *)
Definition isArray (v : value) : bool :=
  match v with
  | VArr _ => true
  | _ => false
  end.

Fixpoint lookup (k : string) (fields : list (string * value)) : value :=
  match fields with
  | [] => VUndefined
  | (k', v) :: rest => if k =? k' then v else lookup k rest
  end.

(** [v.k] for a receiver that is neither [undefined] nor [null] and a
    property name [k] other than an array index or [length]: only an
    object has such a property. *)
Definition prop (v : value) (k : string) : value :=
  match v with
  | VObj fields => lookup k fields
  | _ => VUndefined
  end.

(** [v.k] for an arbitrary receiver. *)
Definition getProp (v : value) (k : string) : result value :=
  match v with
  | VUndefined | VNull => Throw TypeError
  | _ => Ok (prop v k)
  end.

(** [v === 'literal'] *)
Definition strictEqString (v : value) (s : string) : bool :=
  match v with
  | VStr t => t =? s
  | _ => false
  end.

(** [v.trim()] for a truthy [v]: only a string has the method. *)
Definition callTrim (v : value) : result string :=
  match v with
  | VStr s => Ok (JSString.trim s)
  | _ => Throw TypeError
  end.

(** [(v || []).forEach(...)] and [(v || []).reduce(...)]: the elements
    visited, when the receiver has the method. *)
Definition elementsOrEmpty (v : value) : result (list value) :=
  if truthy v then
    match v with
    | VArr items => Ok items
    | _ => Throw TypeError
    end
  else Ok [].

(** [Number] applied to the text of an array element: [undefined] and
    [null] are rendered as the empty text, a nested array as its own
    join. *)
Fixpoint numberOfElementText (v : value) : number :=
  match v with
  | VUndefined | VNull => Num 0
  | VBool _ => NaN
  | VNum q => Num q
  | VStr s => stringToNumber s
  | VArr [] => Num 0
  | VArr [x] => numberOfElementText x
  | VArr _ => NaN
  | VObj _ => NaN
  end.

(** [Number(v)] *)
Definition toNumber (v : value) : number :=
  match v with
  | VUndefined => NaN
  | VNull => Num 0
  | VBool b => if b then Num 1 else Num 0
  | VNum q => Num q
  | VStr s => stringToNumber s
  | VArr _ => numberOfElementText v
  | VObj _ => NaN
  end.

(** [parseFloat(v)]: the text of an array starts with the text of its
    first element, and no literal extends over a comma. *)
Fixpoint parseFloat (v : value) : number :=
  match v with
  | VNum q => Num q
  | VStr s => parseFloatString s
  | VArr (x :: _) => parseFloat x
  | _ => NaN
  end.

(** [parseInt(v)] *)
Fixpoint parseInt (v : value) : number :=
  match v with
  | VNum q => Num (parseIntNumber q)
  | VStr s => parseIntString s
  | VArr (x :: _) => parseInt x
  | _ => NaN
  end.

End JSValue.

(* ===================================================================== *)
(** ** controllers/api/projects.js                                        *)
(* ===================================================================== *)

Module Controller.

Import JSNumber JSValue.
Local Open Scope Q_scope.

(** *** getUnits *)

(** The body of the [switch] for one surface. *)
Definition surfaceUnits (item surface : value) : Q :=
  let type := orElse (prop surface "measurementType") (prop item "measurementType") in
  if strictEqString type "sqft" then
    orZero (parseFloat (prop surface "sqft"))
  else if strictEqString type "linear-foot" then
    orZero (parseFloat (prop surface "linearFt"))
  else if strictEqString type "by-unit" then
    orZero (parseInt (prop surface "units"))
  else 0.

(** The surfaces for which the [default] branch warns. *)
Definition unknownType (item surface : value) : bool :=
  let type := orElse (prop surface "measurementType") (prop item "measurementType") in
  negb (strictEqString type "sqft" || strictEqString type "linear-foot"
        || strictEqString type "by-unit").

Definition getUnits (item : value) : Q :=
  if negb (truthy item) || negb (isArray (prop item "surfaces")) then 0
  else
    match prop item "surfaces" with
    | VArr surfaces =>
        fold_left
          (fun sum surface =>
             if negb (truthy surface) then sum
             else sum + surfaceUnits item surface)
          surfaces 0
    | _ => 0
    end.

(** *** parsePayments *)

Record paymentTotals : Type :=
  { totalPaid : Q; depositAmount : Q }.

Definition paymentStep (acc : paymentTotals) (p : value) : paymentTotals :=
  if truthy p && truthy (prop p "isPaid") then
    let amount := orZero (toNumber (prop p "amount")) in
    {| totalPaid := totalPaid acc + amount;
       depositAmount :=
         if strictEqString (prop p "method") "Deposit"
         then depositAmount acc + amount
         else depositAmount acc |}
  else acc.

Definition parsePayments (payments : value) : paymentTotals :=
  let payments := match payments with VUndefined => VArr [] | _ => payments end in
  match payments with
  | VArr ps => fold_left paymentStep ps {| totalPaid := 0; depositAmount := 0 |}
  | _ => {| totalPaid := 0; depositAmount := 0 |}
  end.

(** *** calculateCostsAndTotals *)

Record totals : Type :=
  { materialCost : number;
    laborCost : number;
    laborCostBeforeDiscount : number;
    laborDiscount : number;
    wasteCost : number;
    taxAmount : number;
    markupAmount : number;
    miscFeesTotal : number;
    transportationFee : number;
    subtotal : number;
    total : number }.

(** The two accumulators of the nested [forEach]. *)
Definition itemStep (acc : Q * Q) (item : value) : result (Q * Q) :=
  let units := getUnits item in
  m <- getProp item "materialCost" ;;
  l <- getProp item "laborCost" ;;
  Ok (fst acc + orZero (toNumber m) * units,
      snd acc + orZero (toNumber l) * units).

Fixpoint forEachM {A S : Type} (f : S -> A -> result S) (l : list A) (s : S)
  : result S :=
  match l with
  | [] => Ok s
  | x :: rest => s' <- f s x ;; forEachM f rest s'
  end.

Definition categoryStep (acc : Q * Q) (category : value) : result (Q * Q) :=
  w <- getProp category "workItems" ;;
  items <- elementsOrEmpty w ;;
  forEachM itemStep items acc.

Definition feeStep (sum : Q) (f : value) : result Q :=
  a <- getProp f "amount" ;;
  Ok (sum + orZero (toNumber a)).

(** The quantities of the pipeline before they are rounded. *)
Record pipeline : Type :=
  { rawMaterial : Q;
    rawLabor : Q;
    discountAmount : number;
    discountedLabor : number;
    waste : number;
    materialWithWaste : number;
    rawSubtotal : number;
    markup : number;
    tax : number;
    fees : Q;
    transport : Q;
    grandTotal : number }.

Definition runPipeline (categories settings : value) : result pipeline :=
  cats <- elementsOrEmpty categories ;;
  sums <- forEachM categoryStep cats (0, 0) ;;
  let materialCost := fst sums in
  let laborCostBeforeDiscount := snd sums in
  let s := orElse settings (VObj []) in
  let laborDiscountRate := orElse (prop s "laborDiscount") (VNum 0) in
  let laborDiscountAmount := mul (Num laborCostBeforeDiscount) (toNumber laborDiscountRate) in
  let laborCost := sub (Num laborCostBeforeDiscount) laborDiscountAmount in
  let wasteFactorRate := orElse (prop s "wasteFactor") (VNum 0) in
  let wasteCost := mul (Num materialCost) (toNumber wasteFactorRate) in
  let materialCostWithWaste := add (Num materialCost) wasteCost in
  let subtotal := add materialCostWithWaste laborCost in
  let markupRate := orElse (prop s "markup") (VNum 0) in
  let markupAmount := mul subtotal (toNumber markupRate) in
  let taxRate := orElse (prop s "taxRate") (VNum 0) in
  let taxAmount := mul subtotal (toNumber taxRate) in
  feeList <- elementsOrEmpty (prop s "miscFees") ;;
  miscFeesTotal <- forEachM feeStep feeList 0 ;;
  let transportationFee := orZero (toNumber (prop s "transportationFee")) in
  let grandTotal :=
    add (add (add (add subtotal markupAmount) taxAmount) (Num miscFeesTotal))
        (Num transportationFee) in
  Ok {| rawMaterial := materialCost;
        rawLabor := laborCostBeforeDiscount;
        discountAmount := laborDiscountAmount;
        discountedLabor := laborCost;
        waste := wasteCost;
        materialWithWaste := materialCostWithWaste;
        rawSubtotal := subtotal;
        markup := markupAmount;
        tax := taxAmount;
        fees := miscFeesTotal;
        transport := transportationFee;
        grandTotal := grandTotal |}.

(** The returned object: every field goes through [toFixed(2)] once. *)
Definition roundOutputs (p : pipeline) : totals :=
  {| materialCost := toFixed2 (Num (rawMaterial p));
     laborCost := toFixed2 (discountedLabor p);
     laborCostBeforeDiscount := toFixed2 (Num (rawLabor p));
     laborDiscount := toFixed2 (discountAmount p);
     wasteCost := toFixed2 (waste p);
     taxAmount := toFixed2 (tax p);
     markupAmount := toFixed2 (markup p);
     miscFeesTotal := toFixed2 (Num (fees p));
     transportationFee := toFixed2 (Num (transport p));
     subtotal := toFixed2 (rawSubtotal p);
     total := toFixed2 (grandTotal p) |}.

Definition calculateCostsAndTotals (categories settings : value) : result totals :=
  p <- runPipeline categories settings ;;
  Ok (roundOutputs p).

(** *** ensureCategoryKeys *)

(** The object literal [fixedItem]. *)
Record fixedItem : Type :=
  { name : value;
    customWorkTypeName : value;
    type : string;
    subtype : value;
    description : value;
    surfaces : list value;
    itemMaterialCost : Q;
    itemLaborCost : Q;
    notes : value;
    measurementType : value;
    categoryKey : value }.

(** The object literal returned for a category. *)
Record fixedCategory : Type :=
  { categoryName : value;
    key : value;
    workItems : list fixedItem }.

Definition fixedItemValue (i : fixedItem) : value :=
  VObj [ ("name", name i);
         ("customWorkTypeName", customWorkTypeName i);
         ("type", VStr (type i));
         ("subtype", subtype i);
         ("description", description i);
         ("surfaces", VArr (surfaces i));
         ("materialCost", VNum (itemMaterialCost i));
         ("laborCost", VNum (itemLaborCost i));
         ("notes", notes i);
         ("measurementType", measurementType i);
         ("categoryKey", categoryKey i) ].

Definition fixedCategoryValue (c : fixedCategory) : value :=
  VObj [ ("name", categoryName c);
         ("key", key c);
         ("workItems", VArr (map fixedItemValue (workItems c))) ].

Definition fixedCategoriesValue (cs : list fixedCategory) : value :=
  VArr (map fixedCategoryValue cs).

(** One round of the inner [forEach]: [None] is an early [return]. *)
Definition fixItem (category item : value) : result (option fixedItem) :=
  if negb (truthy item) || negb (typeofObject item) then Ok None
  else
    blankType <-
      (if negb (truthy (prop item "type")) then Ok true
       else t <- callTrim (prop item "type") ;; Ok (t =? "")) ;;
    if blankType : bool then Ok None
    else
      unnamedCustom <-
        (if strictEqString (prop item "type") "custom-work-type" then
           if negb (truthy (prop item "customWorkTypeName")) then Ok true
           else n <- callTrim (prop item "customWorkTypeName") ;; Ok (n =? "")
         else Ok false) ;;
      if unnamedCustom : bool then Ok None
      else
        trimmed <- callTrim (prop item "type") ;;
        Ok (Some
              {| name := orElse (prop item "name") (VStr "Unnamed Work Item");
                 customWorkTypeName := orElse (prop item "customWorkTypeName") (VStr "");
                 type := trimmed;
                 subtype := orElse (prop item "subtype") (VStr "");
                 description := orElse (prop item "description") (VStr "");
                 surfaces :=
                   match prop item "surfaces" with
                   | VArr l => l
                   | _ => []
                   end;
                 itemMaterialCost := orZero (toNumber (prop item "materialCost"));
                 itemLaborCost := orZero (toNumber (prop item "laborCost"));
                 notes := orElse (prop item "notes") (VStr "");
                 measurementType := orElse (prop item "measurementType") (VStr "sqft");
                 categoryKey := prop category "key" |}).

Fixpoint fixItems (category : value) (items : list value)
  : result (list fixedItem) :=
  match items with
  | [] => Ok []
  | item :: rest =>
      kept <- fixItem category item ;;
      validWorkItems <- fixItems category rest ;;
      Ok (match kept with
          | Some fixed => fixed :: validWorkItems
          | None => validWorkItems
          end)
  end.

Definition missingFieldsMessage (catIndex : nat) : string :=
  "Category at index " ++ JSString.ofNat catIndex
    ++ " is missing required fields (key or name)".

(** The callback of [categories.map]: [inl] is a category returned
    unchanged because it is not an object. *)
Definition fixCategory (catIndex : nat) (category : value)
  : result (value + fixedCategory) :=
  if negb (truthy category) || negb (typeofObject category)
  then Ok (inl category)
  else if negb (truthy (prop category "key")) || negb (truthy (prop category "name"))
  then Throw (Error (missingFieldsMessage catIndex))
  else
    items <- elementsOrEmpty (prop category "workItems") ;;
    validWorkItems <- fixItems category items ;;
    Ok (inr {| categoryName := prop category "name";
               key := prop category "key";
               workItems := validWorkItems |}).

Fixpoint mapCategories (catIndex : nat) (categories : list value)
  : result (list (value + fixedCategory)) :=
  match categories with
  | [] => Ok []
  | category :: rest =>
      c <- fixCategory catIndex category ;;
      cs <- mapCategories (S catIndex) rest ;;
      Ok (c :: cs)
  end.

(** The callback of [.filter] reads [category.workItems.length], which
    raises on a category that [map] returned unchanged; it keeps every
    other category. *)
Fixpoint filterCategories (mapped : list (value + fixedCategory))
  : result (list fixedCategory) :=
  match mapped with
  | [] => Ok []
  | inl _ :: _ => Throw TypeError
  | inr c :: rest => cs <- filterCategories rest ;; Ok (c :: cs)
  end.

Definition ensureCategoryKeys (categories : value) : result (list fixedCategory) :=
  match categories with
  | VArr cats =>
      mapped <- mapCategories 0 cats ;;
      filterCategories mapped
  | _ => Ok []
  end.

(** *** createOrUpdate, up to the call of the persistence layer *)

Record paymentDetails : Type :=
  { pdGrandTotal : number;
    pdTotalPaid : Q;
    pdTotalDue : number;
    pdDepositAmount : Q }.

Record projectData : Type :=
  { userId : value;
    customerInfo : value;
    categories : list fixedCategory;
    settings : value;
    projectTotals : totals;
    projectPayments : paymentDetails }.

Inductive response : Type :=
| BadRequest (details : list string) (paths : list string)
    (* status 400, error 'Validation failed.' *)
| BadRequestRaised (e : exn)
    (* status 400, details [e.message], paths ['categories'] *)
| InternalError (e : exn)
    (* status 500, reached through the outer [catch] *)
| Persist (data : projectData).
    (* handed to [Project.findOneAndUpdate] or [project.save] *)

(** The debug loop over the raw categories reads properties of every
    category and of every work item. *)
Definition logItem (item : value) : result unit :=
  _ <- getProp item "name" ;; Ok tt.

Definition logCategory (cat : value) : result unit :=
  w <- getProp cat "workItems" ;;
  items <- elementsOrEmpty w ;;
  forEachM (fun _ item => logItem item) items tt.

Definition logRequest (categories : value) : result unit :=
  match categories with
  | VArr cats => forEachM (fun _ cat => logCategory cat) cats tt
  | _ => Throw TypeError
  end.

Definition totalWorkItems (fixedCategories : list fixedCategory) : nat :=
  fold_left (fun sum cat => (sum + List.length (workItems cat))%nat) fixedCategories 0%nat.

Definition orDefault (v d : value) : value :=
  match v with VUndefined => d | _ => v end.

Definition totalDue (grandTotal : number) (totalPaid : Q) : number :=
  max0 (sub grandTotal (Num totalPaid)).

Definition assemble (user customerInfo settings : value)
           (fixedCategories : list fixedCategory) : result response :=
  costs <- calculateCostsAndTotals (fixedCategoriesValue fixedCategories) settings ;;
  let grandTotal := total costs in
  payments <- getProp settings "payments" ;;
  let paid := parsePayments payments in
  Ok (Persist
        {| userId := user;
           customerInfo := customerInfo;
           categories := fixedCategories;
           settings := settings;
           projectTotals := costs;
           projectPayments :=
             {| pdGrandTotal := grandTotal;
                pdTotalPaid := totalPaid paid;
                pdTotalDue := totalDue grandTotal (totalPaid paid);
                pdDepositAmount := depositAmount paid |} |}).

Definition createOrUpdate (user body : value) : response :=
  let attempt : result response :=
    customerInfo <- getProp body "customerInfo" ;;
    let categories := orDefault (prop body "categories") (VArr []) in
    let settings := orDefault (prop body "settings") (VObj []) in
    _ <- logRequest categories ;;
    match categories with
    | VArr [] =>
        Ok (BadRequest ["Project must have at least one category"] ["categories"])
    | VArr _ =>
        match ensureCategoryKeys categories with
        | Throw validationError => Ok (BadRequestRaised validationError)
        | Ok fixedCategories =>
            if (totalWorkItems fixedCategories =? 0)%nat then
              Ok (BadRequest
                    ["No complete work items found. Please ensure each work item has a work type selected."]
                    ["categories.workItems"])
            else assemble user customerInfo settings fixedCategories
        end
    | _ =>
        Ok (BadRequest ["Project must have at least one category"] ["categories"])
    end in
  match attempt with
  | Ok r => r
  | Throw e => InternalError e
  end.

End Controller.

(* ===================================================================== *)
(** ** models/project.js                                                  *)
(* ===================================================================== *)

Module Model.

Import JSValue.

(** *** The taxonomy table and the validators *)

Definition VALID_WORK_TYPES : list (string * list string) :=
  [ ("kitchen",
     [ "kitchen-flooring"; "kitchen-tiles"; "kitchen-backsplash";
       "kitchen-ceiling"; "kitchen-walls"; "kitchen-countertop-surface";
       "kitchen-cabinet-doors"; "kitchen-island-top"; "kitchen-cabinets";
       "kitchen-countertops"; "kitchen-trim"; "kitchen-island-edge";
       "kitchen-crown-molding"; "kitchen-toe-kicks";
       "kitchen-cabinet-lighting"; "kitchen-under-cabinet-strips";
       "kitchen-sink"; "kitchen-faucet"; "kitchen-lighting";
       "kitchen-appliance"; "kitchen-hood"; "kitchen-garbage-disposal";
       "kitchen-cabinet-hardware"; "kitchen-outlet"; "kitchen-switch";
       "kitchen-pantry-organizer" ]);
    ("bathroom",
     [ "bathroom-flooring"; "bathroom-tiles"; "bathroom-shower-tiles";
       "bathroom-walls"; "bathroom-ceiling"; "bathroom-shower-floor";
       "bathroom-vanity-top"; "bathroom-mirror-wall"; "bathroom-vanity";
       "bathroom-trim"; "bathroom-wainscoting"; "bathroom-shower-trim";
       "bathroom-tub-surround"; "bathroom-chair-rail";
       "bathroom-towel-bars"; "bathroom-grab-bars"; "bathroom-faucet";
       "bathroom-shower-faucet"; "bathroom-fan"; "bathroom-towel-warmer";
       "bathroom-toilet"; "bathroom-mirror"; "bathroom-lighting";
       "bathroom-bathtub"; "bathroom-shower-ledge";
       "bathroom-medicine-cabinet"; "bathroom-outlet";
       "bathroom-shower-door" ]);
    ("living-room",
     [ "living-room-flooring"; "living-room-walls"; "living-room-ceiling";
       "living-room-accent-wall"; "living-room-fireplace-surround";
       "living-room-built-in-shelving"; "living-room-window-treatments";
       "living-room-trim"; "living-room-crown-molding";
       "living-room-wainscoting"; "living-room-chair-rail";
       "living-room-baseboard"; "living-room-picture-ledge";
       "living-room-mantle"; "living-room-cable-management";
       "living-room-lighting"; "living-room-fireplace";
       "living-room-ceiling-fan"; "living-room-tv-mount";
       "living-room-outlet"; "living-room-switch"; "living-room-window";
       "living-room-door"; "living-room-built-in-cabinet";
       "living-room-speaker" ]);
    ("bedroom",
     [ "bedroom-flooring"; "bedroom-walls"; "bedroom-ceiling";
       "bedroom-closet-interior"; "bedroom-accent-wall";
       "bedroom-window-treatments"; "bedroom-headboard-wall";
       "bedroom-trim"; "bedroom-closet-shelves"; "bedroom-crown-molding";
       "bedroom-baseboard"; "bedroom-chair-rail"; "bedroom-closet-rods";
       "bedroom-window-sills"; "bedroom-built-in-bench";
       "bedroom-lighting"; "bedroom-ceiling-fan"; "bedroom-window";
       "bedroom-closet-organizer"; "bedroom-door"; "bedroom-outlet";
       "bedroom-switch"; "bedroom-closet-door"; "bedroom-built-in-drawer";
       "bedroom-mirror" ]);
    ("exterior",
     [ "exterior-deck"; "exterior-siding"; "exterior-painting";
       "exterior-roofing"; "exterior-patio"; "exterior-driveway";
       "exterior-walkway"; "exterior-retaining-wall"; "exterior-fencing";
       "exterior-trim"; "exterior-gutters"; "exterior-deck-railing";
       "exterior-soffit"; "exterior-fascia"; "exterior-foundation-trim";
       "exterior-landscape-edging"; "exterior-door"; "exterior-window";
       "exterior-lighting"; "exterior-mailbox"; "exterior-gate";
       "exterior-outlet"; "exterior-shutter"; "exterior-downspout";
       "exterior-vent"; "exterior-house-number" ]);
    ("garage",
     [ "garage-flooring"; "garage-walls"; "garage-ceiling";
       "garage-door-opener"; "garage-storage-shelves"; "garage-workbench";
       "garage-cabinets"; "garage-lighting"; "garage-outlet";
       "garage-insulation"; "garage-epoxy-coating"; "garage-door";
       "garage-window"; "garage-ventilation"; "garage-wall-organizer";
       "garage-ceiling-storage"; "garage-bike-rack"; "garage-tool-storage" ]);
    ("electricity",
     [ "electricity-wiring"; "electricity-panel-upgrade";
       "electricity-circuit-breaker"; "electricity-outlet-installation";
       "electricity-lighting-fixture";
       "electricity-ceiling-fan-installation";
       "electricity-switch-installation"; "electricity-surge-protector";
       "electricity-grounding-system";
       "electricity-smoke-detector-installation";
       "electricity-smart-home-integration";
       "electricity-exterior-lighting"; "electricity-appliance-circuit" ]);
    ("plumbing",
     [ "plumbing-pipe-installation"; "plumbing-faucet-installation";
       "plumbing-toilet-installation"; "plumbing-shower-installation";
       "plumbing-sink-installation"; "plumbing-water-heater";
       "plumbing-drain-cleaning"; "plumbing-leak-repair";
       "plumbing-valve-replacement"; "plumbing-sump-pump";
       "plumbing-water-line"; "plumbing-sewer-line" ]);
    ("hallway",
     [ "hallway-flooring"; "hallway-walls"; "hallway-ceiling";
       "hallway-lighting"; "hallway-trim"; "hallway-baseboard";
       "hallway-crown-molding"; "hallway-wainscoting"; "hallway-door";
       "hallway-runner"; "hallway-wall-art-frame"; "hallway-console-table";
       "hallway-mirror" ]);
    ("general",
     [ "general-drywall"; "general-painting"; "general-flooring";
       "general-ceiling"; "general-wall-repair"; "general-insulation";
       "general-paneling"; "general-wallpaper"; "general-trim";
       "general-molding"; "general-chair-rail"; "general-baseboard";
       "general-door-frame"; "general-window-frame";
       "general-pipe-covering"; "general-conduit-covering";
       "general-lighting"; "general-window"; "general-door";
       "general-outlet"; "general-switch"; "general-smoke-detector";
       "general-thermostat"; "general-ceiling-medallion";
       "general-vent-cover"; "general-access-panel" ]);
    ("laundry",
     [ "laundry-flooring"; "laundry-walls"; "laundry-ceiling";
       "laundry-cabinets"; "laundry-washer"; "laundry-dryer";
       "laundry-sink"; "laundry-shelving"; "laundry-folding-table";
       "laundry-countertop"; "laundry-lighting"; "laundry-outlet";
       "laundry-dryer-vent"; "laundry-trim"; "laundry-baseboard";
       "laundry-crown-molding"; "laundry-wainscoting"; "laundry-door";
       "laundry-utility-sink-faucet"; "laundry-storage-rack";
       "laundry-ironing-station"; "laundry-hanging-rods";
       "laundry-ventilation-fan" ]);
    ("dining-room",
     [ "dining-room-flooring"; "dining-room-walls"; "dining-room-ceiling";
       "dining-room-chandelier"; "dining-room-built-in-buffet";
       "dining-room-display-cabinet"; "dining-room-window-treatments";
       "dining-room-trim"; "dining-room-crown-molding";
       "dining-room-wainscoting"; "dining-room-chair-rail";
       "dining-room-baseboard"; "dining-room-lighting";
       "dining-room-outlet"; "dining-room-switch"; "dining-room-window";
       "dining-room-door"; "dining-room-accent-wall";
       "dining-room-wall-art-frame"; "dining-room-ceiling-medallion";
       "dining-room-serving-hutch" ]);
    ("basement",
     [ "basement-flooring"; "basement-walls"; "basement-ceiling";
       "basement-waterproofing"; "basement-egress-window";
       "basement-sump-pump"; "basement-drop-ceiling";
       "basement-insulation"; "basement-lighting"; "basement-trim";
       "basement-baseboard"; "basement-staircase"; "basement-handrail";
       "basement-storage-shelves"; "basement-built-in-bar";
       "basement-home-theater"; "basement-outlet"; "basement-switch";
       "basement-ventilation"; "basement-fireplace"; "basement-accent-wall" ]);
    ("walk-in-closet",
     [ "walk-in-closet-flooring"; "walk-in-closet-walls";
       "walk-in-closet-ceiling"; "walk-in-closet-shelves";
       "walk-in-closet-rods"; "walk-in-closet-drawers";
       "walk-in-closet-organizer"; "walk-in-closet-lighting";
       "walk-in-closet-mirror"; "walk-in-closet-door";
       "walk-in-closet-bench"; "walk-in-closet-island";
       "walk-in-closet-shoe-rack"; "walk-in-closet-trim";
       "walk-in-closet-baseboard"; "walk-in-closet-crown-molding";
       "walk-in-closet-accent-wall"; "walk-in-closet-carpet";
       "walk-in-closet-storage-bins"; "walk-in-closet-valet-rod" ]) ].

(** The members every object literal inherits from [Object.prototype];
    indexing the table with one of them yields a function or an object,
    never an array. *)
Definition objectPrototypeKeys : list string :=
  [ "constructor"; "__defineGetter__"; "__defineSetter__"; "hasOwnProperty";
    "__lookupGetter__"; "__lookupSetter__"; "isPrototypeOf";
    "propertyIsEnumerable"; "toString"; "valueOf"; "__proto__";
    "toLocaleString" ].

Inductive tableEntry : Type :=
| Own (validTypes : list string)
| Inherited
| Absent.

Fixpoint ownEntry (k : string) (table : list (string * list string))
  : option (list string) :=
  match table with
  | [] => None
  | (k', types) :: rest => if k =? k' then Some types else ownEntry k rest
  end.

(** [VALID_WORK_TYPES[categoryKey]] *)
Definition tableAt (categoryKey : string) : tableEntry :=
  match ownEntry categoryKey VALID_WORK_TYPES with
  | Some types => Own types
  | None =>
      if JSString.includes objectPrototypeKeys categoryKey then Inherited
      else Absent
  end.

(** [Object.keys(VALID_WORK_TYPES)] *)
Definition tableKeys : list string := map fst VALID_WORK_TYPES.

(** The schema casts a String path, so a validator sees a string or
    nothing. *)
Definition present (s : option string) : bool :=
  match s with
  | Some t => negb (t =? "")
  | None => false
  end.

Definition validateCategoryKey (key : option string) : bool :=
  match key with
  | Some k =>
      if k =? "" then false
      else JSString.startsWith k "custom_" || JSString.includes tableKeys k
  | None => false
  end.

Definition validateWorkType (categoryKey workType : string) : result bool :=
  if (categoryKey =? "") || (workType =? "") then Ok false
  else if workType =? "custom-work-type" then Ok true
  else if JSString.startsWith categoryKey "custom_" then Ok true
  else
    match tableAt categoryKey with
    | Absent => Ok false
    | Own validTypes => Ok (JSString.includes validTypes workType)
    | Inherited => Throw TypeError   (* [validTypes.includes] is not a function *)
    end.

(** The validator of the [type] path: [thisKey] is [this.categoryKey],
    [parentKey] the key of [this.parent()]. *)
Definition workTypeValidator (thisKey parentKey : option string) (v : string) : bool :=
  let categoryKey :=
    if present thisKey then thisKey
    else if present parentKey then parentKey
    else thisKey in
  match categoryKey with
  | Some k =>
      if k =? "" then true
      else
        match validateWorkType k v with
        | Ok isValid => isValid
        | Throw _ => false
        end
  | None => true
  end.

(** The validator of the [customWorkTypeName] path. *)
Definition isMarker (type : option string) : bool :=
  match type with
  | Some t => t =? "custom-work-type"
  | None => false
  end.

Definition customWorkTypeNameValidator (thisType v : option string) : bool :=
  if isMarker thisType then
    match v with
    | Some n => negb (n =? "") && (0 <? String.length (JSString.trim n))%nat
    | None => false
    end
  else true.

Definition optionValue (s : option string) : value :=
  match s with
  | Some t => VStr t
  | None => VUndefined
  end.

Definition normalizeToCanonicalMeasurementType (type : value) : string :=
  match type with
  | VStr s =>
      if s =? "" then "sqft"
      else
        let t := JSString.trim (JSString.toLowerCase s) in
        if JSString.includes ["sqft"; "square-foot"; "square foot"; "single-surface"] t
        then "sqft"
        else if JSString.includes ["linear-foot"; "linear ft"; "linear"] t
        then "linear-foot"
        else if JSString.includes ["by-unit"; "by unit"; "unit"; "units"] t
        then "by-unit"
        else "sqft"
  | _ => "sqft"
  end.

(** *** Documents *)

Record Surface : Type :=
  { s_name : option string;
    s_measurementType : option string;
    s_width : option Q;
    s_height : option Q;
    s_sqft : option Q;
    s_manualSqft : option bool;
    s_linearFt : option Q;
    s_units : option Q;
    s_length : option Q }.

Record WorkItem : Type :=
  { wi_name : option string;
    wi_customWorkTypeName : option string;
    wi_type : option string;
    wi_subtype : option string;
    wi_description : option string;
    wi_surfaces : list (option Surface);
    wi_materialCost : option Q;
    wi_laborCost : option Q;
    wi_notes : option string;
    wi_measurementType : option string;
    wi_categoryKey : option string }.

Record Category : Type :=
  { c_name : option string;
    c_key : option string;
    c_workItems : list (option WorkItem) }.

Record CustomerInfo : Type :=
  { firstName : option string;
    lastName : option string;
    street : option string;
    unit : option string;
    city : option string;
    state : option string;
    zipCode : option string;
    phone : option string;
    email : option string;
    projectName : option string;
    customerType : option string;
    paymentType : option string;
    startDate : option string;
    finishDate : option string;
    customerNotes : option string;
    addressNumber : option string;
    direction : option string;
    streetName : option string;
    streetType : option string }.

(** [settings], [totals] and [paymentDetails] are carried as written by
    the controller. *)
Record Project : Type :=
  { _id : string;
    userId : value;
    customerInfo : option CustomerInfo;
    categories : list (option Category);
    settings : value;
    totals : value;
    paymentDetails : value }.

(** *** The pre-validate hook *)

(** [[...].filter(Boolean)] *)
Fixpoint filterBoolean (l : list (option string)) : list string :=
  match l with
  | [] => []
  | Some s :: rest => if s =? "" then filterBoolean rest else s :: filterBoolean rest
  | None :: rest => filterBoolean rest
  end.

Definition buildStreet (ci : CustomerInfo) : CustomerInfo :=
  if present (addressNumber ci) || present (streetName ci) then
    {| firstName := firstName ci;
       lastName := lastName ci;
       street :=
         Some (JSString.trim
                 (JSString.join " "
                    (filterBoolean [addressNumber ci; direction ci;
                                    streetName ci; streetType ci])));
       unit := unit ci;
       city := city ci;
       state := state ci;
       zipCode := zipCode ci;
       phone := phone ci;
       email := email ci;
       projectName := projectName ci;
       customerType := customerType ci;
       paymentType := paymentType ci;
       startDate := startDate ci;
       finishDate := finishDate ci;
       customerNotes := customerNotes ci;
       addressNumber := addressNumber ci;
       direction := direction ci;
       streetName := streetName ci;
       streetType := streetType ci |}
  else ci.

Definition normalizeSurface (surface : Surface) : Surface :=
  {| s_name := s_name surface;
     s_measurementType :=
       Some (normalizeToCanonicalMeasurementType
               (optionValue (s_measurementType surface)));
     s_width := s_width surface;
     s_height := s_height surface;
     s_sqft := s_sqft surface;
     s_manualSqft := s_manualSqft surface;
     s_linearFt := s_linearFt surface;
     s_units := s_units surface;
     s_length := s_length surface |}.

Definition enforceItem (categoryKey : option string) (item : WorkItem) : WorkItem :=
  {| wi_name := wi_name item;
     wi_customWorkTypeName := wi_customWorkTypeName item;
     wi_type := wi_type item;
     wi_subtype := wi_subtype item;
     wi_description := wi_description item;
     wi_surfaces := map (option_map normalizeSurface) (wi_surfaces item);
     wi_materialCost := wi_materialCost item;
     wi_laborCost := wi_laborCost item;
     wi_notes := wi_notes item;
     wi_measurementType :=
       Some (normalizeToCanonicalMeasurementType
               (optionValue (wi_measurementType item)));
     wi_categoryKey := categoryKey |}.

Definition enforceCategory (category : Category) : Category :=
  {| c_name := c_name category;
     c_key := c_key category;
     c_workItems := map (option_map (enforceItem (c_key category)))
                        (c_workItems category) |}.

(** [projectSchema.pre('validate', ...)] *)
Definition preValidate (this : Project) : Project :=
  {| _id := _id this;
     userId := userId this;
     customerInfo := option_map buildStreet (customerInfo this);
     categories := map (option_map enforceCategory) (categories this);
     settings := settings this;
     totals := totals this;
     paymentDetails := paymentDetails this |}.

(** *** Repair of unnamed custom work items *)

(** [item.type === 'custom-work-type' &&
     (!item.customWorkTypeName || !item.customWorkTypeName.trim())] *)
Definition corrupted (item : WorkItem) : bool :=
  isMarker (wi_type item)
  && match wi_customWorkTypeName item with
     | Some n => (n =? "") || (JSString.trim n =? "")
     | None => true
     end.

Definition repairItem (item : WorkItem) : WorkItem :=
  if corrupted item then
    {| wi_name := wi_name item;
       wi_customWorkTypeName := Some "Unnamed Custom Work";
       wi_type := wi_type item;
       wi_subtype := wi_subtype item;
       wi_description := wi_description item;
       wi_surfaces := wi_surfaces item;
       wi_materialCost := wi_materialCost item;
       wi_laborCost := wi_laborCost item;
       wi_notes := wi_notes item;
       wi_measurementType := wi_measurementType item;
       wi_categoryKey := wi_categoryKey item |}
  else item.

(** The work items a document holds. *)
Definition itemsIn (items : list (option WorkItem)) : list WorkItem :=
  flat_map (fun i => match i with Some item => [item] | None => [] end) items.

Definition itemsOfCategories (categories : list (option Category)) : list WorkItem :=
  flat_map (fun c => match c with
                     | Some category => itemsIn (c_workItems category)
                     | None => []
                     end)
           categories.

Definition itemsOf (project : Project) : list WorkItem :=
  itemsOfCategories (categories project).

(** The inner [forEach] of both repair entry points: the work items after
    it and whether one was repaired.  Neither loop tests its element, so
    reading [item.type] raises on an empty slot. *)
Fixpoint repairItems (items : list (option WorkItem))
  : result (list (option WorkItem) * bool) :=
  match items with
  | [] => Ok ([], false)
  | None :: _ => Throw TypeError
  | Some item :: rest =>
      r <- repairItems rest ;;
      Ok (Some (repairItem item) :: fst r, corrupted item || snd r)
  end.

(** The outer [forEach]; reading [category.workItems] raises on an empty
    slot. *)
Fixpoint repairCategories (categories : list (option Category))
  : result (list (option Category) * bool) :=
  match categories with
  | [] => Ok ([], false)
  | None :: _ => Throw TypeError
  | Some category :: rest =>
      items <- repairItems (c_workItems category) ;;
      r <- repairCategories rest ;;
      Ok (Some {| c_name := c_name category;
                  c_key := c_key category;
                  c_workItems := fst items |} :: fst r,
          snd items || snd r)
  end.

(** The document after the nested loops, and the flag [needsRepair]. *)
Definition repairProject (project : Project) : result (Project * bool) :=
  r <- repairCategories (categories project) ;;
  Ok ({| _id := _id project;
         userId := userId project;
         customerInfo := customerInfo project;
         categories := fst r;
         settings := settings project;
         totals := totals project;
         paymentDetails := paymentDetails project |},
      snd r).

(** [validateAndRepairProjects]: [save] tells whether
    [project.save({ validateBeforeSave: false })] succeeds.  The result is
    the collection afterwards and the identifiers pushed on [repairs]; a
    failed save is caught and the scan goes on, while an exception of the
    loops ends the scan and leaves the later documents as they are. *)
Fixpoint validateAndRepairProjects (save : Project -> bool) (projects : list Project)
  : list Project * result (list string) :=
  match projects with
  | [] => ([], Ok [])
  | project :: rest =>
      match repairProject project with
      | Throw e => (project :: rest, Throw e)
      | Ok (repaired, needsRepair) =>
          let '(stored, outcome) := validateAndRepairProjects save rest in
          if needsRepair && save repaired
          then (repaired :: stored, repairs <- outcome ;; Ok (_id repaired :: repairs))
          else (project :: stored, outcome)
      end
  end.

(** [show] in the controller revision that repairs on read, from the
    document found: what is sent to the caller ([Throw] is the answer 500
    of the [catch]) and the stored document afterwards.  The closing log
    line reads [project.customerInfo.projectName]. *)
Definition show (save : Project -> bool) (project : Project)
  : result Project * Project :=
  match repairProject project with
  | Throw e => (Throw e, project)
  | Ok (repaired, needsRepair) =>
      let stored := if needsRepair && save repaired then repaired else project in
      match customerInfo repaired with
      | Some _ => (Ok repaired, stored)
      | None => (Throw TypeError, stored)
      end
  end.

End Model.

(* ===================================================================== *)
(** ** Typed request data                                                 *)
(* ===================================================================== *)

(** Payloads whose fields have the types of the data model, and the JSON
    trees they are sent as.  [others] stands for any further properties. *)

Module Input.

Record Payment : Type :=
  { p_date : string;
    p_amount : Q;
    p_method : string;
    p_note : string;
    p_isPaid : bool;
    p_status : string }.

Definition paymentValue (p : Payment) : value :=
  VObj [ ("date", VStr (p_date p));
         ("amount", VNum (p_amount p));
         ("method", VStr (p_method p));
         ("note", VStr (p_note p));
         ("isPaid", VBool (p_isPaid p));
         ("status", VStr (p_status p)) ].

Record MiscFee : Type :=
  { f_name : string;
    f_amount : Q }.

Definition miscFeeValue (f : MiscFee) : value :=
  VObj [ ("name", VStr (f_name f)); ("amount", VNum (f_amount f)) ].

Record Settings : Type :=
  { st_taxRate : Q;
    st_transportationFee : Q;
    st_wasteFactor : Q;
    st_laborDiscount : Q;
    st_markup : Q;
    st_miscFees : list MiscFee;
    st_payments : list Payment }.

Definition settingsValue (s : Settings) : value :=
  VObj [ ("taxRate", VNum (st_taxRate s));
         ("transportationFee", VNum (st_transportationFee s));
         ("wasteFactor", VNum (st_wasteFactor s));
         ("laborDiscount", VNum (st_laborDiscount s));
         ("markup", VNum (st_markup s));
         ("miscFees", VArr (map miscFeeValue (st_miscFees s)));
         ("payments", VArr (map paymentValue (st_payments s))) ].

Record Surface : Type :=
  { sf_name : string;
    sf_measurementType : option string;
    sf_width : Q;
    sf_height : Q;
    sf_sqft : Q;
    sf_manualSqft : bool;
    sf_linearFt : Q;
    sf_units : Q;
    sf_length : Q }.

Definition surfaceValue (s : Surface) : value :=
  VObj [ ("name", VStr (sf_name s));
         ("measurementType", Model.optionValue (sf_measurementType s));
         ("width", VNum (sf_width s));
         ("height", VNum (sf_height s));
         ("sqft", VNum (sf_sqft s));
         ("manualSqft", VBool (sf_manualSqft s));
         ("linearFt", VNum (sf_linearFt s));
         ("units", VNum (sf_units s));
         ("length", VNum (sf_length s)) ].

Record WorkItem : Type :=
  { it_measurementType : option string;
    it_surfaces : list Surface;
    it_others : list (string * value) }.

Definition workItemValue (i : WorkItem) : value :=
  VObj (("measurementType", Model.optionValue (it_measurementType i))
          :: ("surfaces", VArr (map surfaceValue (it_surfaces i)))
          :: it_others i).

End Input.

(* ===================================================================== *)
(** ** The properties, in the words of the specification                  *)
(* ===================================================================== *)

Module Spec.

Import JSNumber JSValue.
Local Open Scope Q_scope.

Definition Qsum (l : list Q) : Q := fold_right Qplus 0 l.

(** **** Unit Aggregator *)

(** The surface's own measurement type if present, else the item's. *)
Definition effectiveType (i : Input.WorkItem) (s : Input.Surface) : option string :=
  if Model.present (Input.sf_measurementType s)
  then Input.sf_measurementType s
  else Input.it_measurementType i.

(** Area maps to [sqft], linear to [linearFt], by-unit to [units]
    truncated to an integer, anything else to 0. *)
Definition contribution (i : Input.WorkItem) (s : Input.Surface) : Q :=
  match effectiveType i s with
  | Some t =>
      if (t =? "sqft")%string then Input.sf_sqft s
      else if (t =? "linear-foot")%string then Input.sf_linearFt s
      else if (t =? "by-unit")%string then inject_Z (truncate (Input.sf_units s))
      else 0
  | None => 0
  end.



Definition unitCount (i : Input.WorkItem) : Q :=
  Qsum (map (contribution i) (Input.it_surfaces i)).

(** **** Cost Totals Calculator *)

Definition allWorkItems (cats : list Controller.fixedCategory)
  : list Controller.fixedItem :=
  flat_map Controller.workItems cats.






(** **** Payment Aggregator *)



(** An entry the aggregator counts, and the amount it adds. *)
Definition counted (p : value) : bool := truthy p && truthy (prop p "isPaid").
Definition amountOf (p : value) : Q := orZero (toNumber (prop p "amount")).


Definition entries (payments : value) : list value :=
  match payments with
  | VArr ps => ps
  | _ => []
  end.

(** **** Sanitizer *)

(** Blank: absent, empty or made of white space only. *)
Definition blank (v : value) : bool :=
  negb (truthy v)
  || match v with
     | VStr s => (JSString.trim s =? "")%string
     | _ => false
     end.

Definition customMarker : string := "custom-work-type".

(** A work item whose type is the custom-type marker and whose custom
    name is blank. *)
Definition unnamedCustom (i : Controller.fixedItem) : bool :=
  (Controller.type i =? customMarker)%string && blank (Controller.customWorkTypeName i).

Definition blankType (i : Controller.fixedItem) : bool :=
  (JSString.trim (Controller.type i) =? "")%string.

(** The object literal built for a work item that is kept. *)
Definition rebuilt (category item : value) : Controller.fixedItem :=
  {| Controller.name := orElse (prop item "name") (VStr "Unnamed Work Item");
     Controller.customWorkTypeName := orElse (prop item "customWorkTypeName") (VStr "");
     Controller.type :=
       match prop item "type" with
       | VStr s => JSString.trim s
       | _ => ""%string
       end;
     Controller.subtype := orElse (prop item "subtype") (VStr "");
     Controller.description := orElse (prop item "description") (VStr "");
     Controller.surfaces :=
       match prop item "surfaces" with
       | VArr l => l
       | _ => []
       end;
     Controller.itemMaterialCost := orZero (toNumber (prop item "materialCost"));
     Controller.itemLaborCost := orZero (toNumber (prop item "laborCost"));
     Controller.notes := orElse (prop item "notes") (VStr "");
     Controller.measurementType := orElse (prop item "measurementType") (VStr "sqft");
     Controller.categoryKey := prop category "key" |}.

(** A work item the sanitizer is meant to keep: an object whose type is
    not blank and which, when its type is the custom-type marker, has a
    custom name that is not blank. *)
Definition complete (item : value) : bool :=
  truthy item && typeofObject item
  && negb (blank (prop item "type"))
  && negb (strictEqString (prop item "type") customMarker
           && blank (prop item "customWorkTypeName")).

(** The work items of a raw category. *)
Definition rawItems (category : value) : list value :=
  match prop category "workItems" with
  | VArr items => items
  | _ => []
  end.

(** A raw category and the category the sanitizer returns for it: same
    name and key, and the complete items, rebuilt, in their order. *)
Definition keptAs (category : value) (fixed : Controller.fixedCategory) : Prop :=
  Controller.categoryName fixed = prop category "name"
  /\ Controller.key fixed = prop category "key"
  /\ Controller.workItems fixed
     = map (rebuilt category) (filter complete (rawItems category))
  /\ forallb (fun i => negb (blankType i)) (Controller.workItems fixed) = true.

(** The answer of the request handler when no work item survives. *)
Definition noWorkItems : Controller.response :=
  Controller.BadRequest
    ["No complete work items found. Please ensure each work item has a work type selected."%string]
    ["categories.workItems"%string].

(** A category object whose key or name is missing. *)
Definition missingKeyOrName (category : value) : bool :=
  match category with
  | VObj _ | VArr _ =>
      negb (truthy (prop category "key")) || negb (truthy (prop category "name"))
  | _ => false
  end.

(** **** Taxonomy Validator *)


(** **** Custom-type law *)

Definition nonBlank (s : option string) : bool :=
  match s with
  | Some n => negb (JSString.trim n =? "")%string
  | None => false
  end.

Definition isCustom (item : Model.WorkItem) : bool :=
  match Model.wi_type item with
  | Some t => (t =? customMarker)%string
  | None => false
  end.

(** [type == marker] if and only if the custom name is non-blank. *)
Definition customTypeLaw (item : Model.WorkItem) : bool :=
  Bool.eqb (isCustom item) (nonBlank (Model.wi_customWorkTypeName item)).

(** [type == marker] only if the custom name is non-blank. *)
Definition customTypeNamed (item : Model.WorkItem) : bool :=
  implb (isCustom item) (nonBlank (Model.wi_customWorkTypeName item)).

(** **** Unit Aggregator inputs *)

(** The surface fields the claim lets two work items differ in. *)
Definition ignoredFields : list string :=
  [ "width"; "height"; "length"; "name"; "manualSqft" ].

(** Two surfaces that are objects and agree on every other property. *)
Definition sameButIgnored (s s' : value) : Prop :=
  (exists f, s = VObj f) /\ (exists f', s' = VObj f')
  /\ forall k, ~ In k ignoredFields -> prop s k = prop s' k.

(** Two work items that are objects and differ only in such fields of
    their surfaces. *)
Definition differOnlyInIgnored (item item' : value) : Prop :=
  (exists f, item = VObj f) /\ (exists f', item' = VObj f')
  /\ (forall k, k <> "surfaces"%string -> prop item k = prop item' k)
  /\ exists l l', prop item "surfaces" = VArr l
                  /\ prop item' "surfaces" = VArr l'
                  /\ Forall2 sameButIgnored l l'.

(** **** Auxiliary notions of the proofs *)

(** Two results that denote the same number. *)
Definition sameNumber (a b : number) : Prop :=
  match a, b with
  | Num x, Num y => x == y
  | NaN, NaN => True
  | _, _ => False
  end.

(** A text that does not start with white space. *)
Definition headNotSpace (s : string) : Prop :=
  match s with
  | String c _ => JSString.isWhiteSpace c = false
  | EmptyString => True
  end.


(** Settles the rounds of the sanitizer's loop in which the property just
    inspected is not a string: the loop skips the item or raises. *)
Ltac not_a_string :=
  cbn [truthy negb callTrim bind strictEqString orb andb];
  try (now intros [= <-]); try discriminate;
  try match goal with
      | |- context [if ?b then _ else _] =>
          destruct b; cbn [negb bind]; first [discriminate | now intros [= <-]]
      end.


End Spec.

(* ===================================================================== *)
(** ** Sample payloads                                                    *)
(* ===================================================================== *)

Module Examples.

Local Open Scope Q_scope.

Definition cash100 : Input.Payment :=
  {| Input.p_date := "2024-01-10"; Input.p_amount := 100; Input.p_method := "Cash";
     Input.p_note := ""; Input.p_isPaid := true; Input.p_status := "Paid" |}.

Definition deposit50 : Input.Payment :=
  {| Input.p_date := "2024-01-02"; Input.p_amount := 50; Input.p_method := "Deposit";
     Input.p_note := ""; Input.p_isPaid := true; Input.p_status := "Paid" |}.

Definition pending70 : Input.Payment :=
  {| Input.p_date := "2024-02-01"; Input.p_amount := 70; Input.p_method := "Check";
     Input.p_note := ""; Input.p_isPaid := false; Input.p_status := "Pending" |}.

Definition wall (width height sqft : Q) : value :=
  VObj [ ("name", VStr "wall");
         ("measurementType", VStr "sqft");
         ("width", VNum width);
         ("height", VNum height);
         ("sqft", VNum sqft) ].

(** Two work items whose only surface differs in width and height. *)
Definition paintSmall : value :=
  VObj [ ("name", VStr "Paint"); ("measurementType", VStr "sqft");
         ("surfaces", VArr [wall 3 4 5]) ].

Definition paintLarge : value :=
  VObj [ ("name", VStr "Paint"); ("measurementType", VStr "sqft");
         ("surfaces", VArr [wall 10 10 5]) ].

(** A by-unit work item with one surface counting [units]. *)
Definition countOf (units : Q) : Input.WorkItem :=
  {| Input.it_measurementType := Some "by-unit";
     Input.it_surfaces :=
       [ {| Input.sf_name := "outlets";
            Input.sf_measurementType := Some "by-unit";
            Input.sf_width := 0; Input.sf_height := 0; Input.sf_sqft := 0;
            Input.sf_manualSqft := false; Input.sf_linearFt := 0;
            Input.sf_units := units;
            Input.sf_length := 0 |} ];
     Input.it_others := [] |}.

(** A by-unit work item counting 0.0000005 units. *)
Definition tinyCount : Input.WorkItem := countOf (5 # 10000000).


(** A stored project whose only work item has a taxonomy type and also
    carries a custom name. *)
Definition heatedFloor : Model.WorkItem :=
  {| Model.wi_name := Some "Floor";
     Model.wi_customWorkTypeName := Some "Heated floor";
     Model.wi_type := Some "kitchen-flooring";
     Model.wi_subtype := Some "";
     Model.wi_description := Some "";
     Model.wi_surfaces := [];
     Model.wi_materialCost := Some 2;
     Model.wi_laborCost := Some 3;
     Model.wi_notes := Some "";
     Model.wi_measurementType := Some "sqft";
     Model.wi_categoryKey := Some "kitchen" |}.

(** A stored custom work item with a blank name. *)
Definition unnamedCustomItem : Model.WorkItem :=
  {| Model.wi_name := Some "Special";
     Model.wi_customWorkTypeName := Some "  ";
     Model.wi_type := Some "custom-work-type";
     Model.wi_subtype := Some "";
     Model.wi_description := Some "";
     Model.wi_surfaces := [];
     Model.wi_materialCost := Some 1;
     Model.wi_laborCost := Some 1;
     Model.wi_notes := Some "";
     Model.wi_measurementType := Some "sqft";
     Model.wi_categoryKey := Some "kitchen" |}.

Definition someCustomer : Model.CustomerInfo :=
  {| Model.firstName := Some "Ada"; Model.lastName := Some "Byron";
     Model.street := Some "12 N Main St"; Model.unit := Some "";
     Model.city := Some "Chicago"; Model.state := Some "IL";
     Model.zipCode := Some "60601"; Model.phone := Some "3125550100";
     Model.email := Some "ada@example.com"; Model.projectName := Some "Remodel";
     Model.customerType := Some "Residential"; Model.paymentType := Some "Cash";
     Model.startDate := Some "2024-01-01"; Model.finishDate := None;
     Model.customerNotes := Some "";
     Model.addressNumber := Some "12"; Model.direction := Some "N";
     Model.streetName := Some "Main"; Model.streetType := Some "St" |}.

Definition projectWith (id : string) (items : list Model.WorkItem) : Model.Project :=
  {| Model._id := id;
     Model.userId := VStr "user-1";
     Model.customerInfo := Some someCustomer;
     Model.categories :=
       [ Some {| Model.c_name := Some "Kitchen";
                 Model.c_key := Some "kitchen";
                 Model.c_workItems := map Some items |} ];
     Model.settings := VObj [];
     Model.totals := VObj [];
     Model.paymentDetails := VObj [] |}.

Definition flooring : value :=
  VObj [ ("name", VStr "Floor"); ("type", VStr "kitchen-flooring");
         ("surfaces", VArr [wall 10 10 100]);
         ("materialCost", VNum 2); ("laborCost", VNum 3) ].

Definition kitchenWith (items : list value) : value :=
  VObj [ ("key", VStr "kitchen"); ("name", VStr "Kitchen"); ("workItems", VArr items) ].

(** A custom work item without a name, its type written with a leading
    space. *)
Definition paddedCustom : value :=
  VObj [ ("name", VStr "Special"); ("type", VStr " custom-work-type");
         ("customWorkTypeName", VStr "") ].

(** The same item with the type written exactly. *)
Definition exactCustom : value :=
  VObj [ ("name", VStr "Special"); ("type", VStr "custom-work-type");
         ("customWorkTypeName", VStr "") ].

Definition requestWith (categories : list value) : value :=
  VObj [ ("customerInfo", VObj [ ("projectName", VStr "Remodel") ]);
         ("categories", VArr categories);
         ("settings", VObj [ ("taxRate", VNum (8 # 100)) ]) ].

(** What the sanitizer returns for a kitchen holding [exactCustom],
    [flooring] and [null]. *)
Definition sanitizedKitchen : list Controller.fixedCategory :=
  [ {| Controller.categoryName := VStr "Kitchen";
       Controller.key := VStr "kitchen";
       Controller.workItems := [Spec.rebuilt (kitchenWith []) flooring] |} ].

(** What it returns for a kitchen holding only [exactCustom]. *)
Definition emptyKitchen : list Controller.fixedCategory :=
  [ {| Controller.categoryName := VStr "Kitchen";
       Controller.key := VStr "kitchen";
       Controller.workItems := [] |} ].

(** The settings of the first two examples of the specification. *)
Definition taxOnly : Input.Settings :=
  {| Input.st_taxRate := 8 # 100; Input.st_transportationFee := 0;
     Input.st_wasteFactor := 0; Input.st_laborDiscount := 0; Input.st_markup := 0;
     Input.st_miscFees := []; Input.st_payments := [] |}.

Definition wasteAndDiscount : Input.Settings :=
  {| Input.st_taxRate := 8 # 100; Input.st_transportationFee := 0;
     Input.st_wasteFactor := 1 # 10; Input.st_laborDiscount := 1 # 2;
     Input.st_markup := 0;
     Input.st_miscFees := []; Input.st_payments := [] |}.

(** A request for the kitchen floor with two payments recorded. *)
Definition paidRequest : value :=
  VObj [ ("customerInfo", VObj [ ("projectName", VStr "Remodel") ]);
         ("categories", VArr [kitchenWith [flooring]]);
         ("settings",
          VObj [ ("taxRate", VNum (8 # 100));
                 ("payments", VArr (map Input.paymentValue [cash100; deposit50])) ]) ].

Definition somePayments : value :=
  VArr (map Input.paymentValue [cash100; deposit50; pending70]).

End Examples.

(* ===================================================================== *)
(** ** Patterns of the customer schema                                    *)
(* ===================================================================== *)

(** The regular expressions of [customerInfoSchema] use character classes,
    concatenation and repetition only, and each is anchored at both ends
    ([^...$], no flags), so [RegExp.prototype.test] asks whether the whole
    text belongs to the language of the pattern.  [test] decides this by
    taking derivatives. *)

Module Pattern.

Inductive regex : Type :=
| Never                          (* matches no text *)
| Empty                          (* matches the empty text *)
| Class (member : ascii -> bool)   (* one character of a class *)
| Seq (r1 r2 : regex)
| Alt (r1 r2 : regex)
| Star (r : regex).

Fixpoint nullable (r : regex) : bool :=
  match r with
  | Never => false
  | Empty => true
  | Class _ => false
  | Seq r1 r2 => nullable r1 && nullable r2
  | Alt r1 r2 => nullable r1 || nullable r2
  | Star _ => true
  end.

Fixpoint derive (c : ascii) (r : regex) : regex :=
  match r with
  | Never => Never
  | Empty => Never
  | Class member => if member c then Empty else Never
  | Seq r1 r2 =>
      if nullable r1
      then Alt (Seq (derive c r1) r2) (derive c r2)
      else Seq (derive c r1) r2
  | Alt r1 r2 => Alt (derive c r1) (derive c r2)
  | Star r1 => Seq (derive c r1) (Star r1)
  end.

(** [/^r$/.test(s)] *)
Fixpoint test (r : regex) (s : string) : bool :=
  match s with
  | EmptyString => nullable r
  | String c s' => test (derive c r) s'
  end.

(** [r+] *)
Definition plus (r : regex) : regex := Seq r (Star r).

(** [r?] *)
Definition optional (r : regex) : regex := Alt Empty r.

(** [r{n}] *)
Fixpoint times (n : nat) (r : regex) : regex :=
  match n with
  | O => Empty
  | S n' => Seq r (times n' r)
  end.

(** [r{lo,hi}] *)
Definition between (lo hi : nat) (r : regex) : regex :=
  Seq (times lo r) (times (hi - lo) (optional r)).

(** [\d] *)
Definition digit (c : ascii) : bool :=
  let n := JSString.code c in ((48 <=? n) && (n <=? 57))%Z.

(** [\w] *)
Definition word (c : ascii) : bool :=
  let n := JSString.code c in
  (digit c || (97 <=? n) && (n <=? 122) || (65 <=? n) && (n <=? 90) || (n =? 95))%Z.

(** The language of a pattern. *)
Inductive Lang : regex -> string -> Prop :=
| LangEmpty : Lang Empty ""
| LangClass (member : ascii -> bool) (c : ascii) :
    member c = true -> Lang (Class member) (String c "")
| LangSeq (r1 r2 : regex) (s1 s2 : string) :
    Lang r1 s1 -> Lang r2 s2 -> Lang (Seq r1 r2) (s1 ++ s2)
| LangAltL (r1 r2 : regex) (s : string) : Lang r1 s -> Lang (Alt r1 r2) s
| LangAltR (r1 r2 : regex) (s : string) : Lang r2 s -> Lang (Alt r1 r2) s
| LangStarNil (r : regex) : Lang (Star r) ""
| LangStarCons (r : regex) (s1 s2 : string) :
    Lang r s1 -> Lang (Star r) s2 -> Lang (Star r) (s1 ++ s2).

(** Every character of the text belongs to the class. *)
Fixpoint allOf (member : ascii -> bool) (s : string) : bool :=
  match s with
  | EmptyString => true
  | String c s' => member c && allOf member s'
  end.

End Pattern.

Module Schema.

Import Pattern.

(** [/^\d{5}$/], the pattern of [zipCode]. *)
Definition zipPattern : regex := times 5 (Class digit).

(** [/^\d{10,11}$/] *)
Definition phonePattern : regex := between 10 11 (Class digit).

(** [s.replace(/\D/g, '')] *)
Fixpoint removeNonDigits (s : string) : string :=
  match s with
  | EmptyString => EmptyString
  | String c s' => if digit c then String c (removeNonDigits s') else removeNonDigits s'
  end.

(** The validator of [phone]:
    [(v) => /^\d{10,11}$/.test((v || '').replace(/\D/g, ''))]. *)
Definition phoneValidator (v : option string) : bool :=
  let text := match v with Some s => s | None => "" end in
  test phonePattern (removeNonDigits text).

(** [[\w-\.]]: a word character, a hyphen or a dot. *)
Definition localChar (c : ascii) : bool :=
  word c || (c =? "-")%char || (c =? ".")%char.

(** [[\w-]] *)
Definition labelChar (c : ascii) : bool := word c || (c =? "-")%char.

Definition isAt (c : ascii) : bool := (c =? "@")%char.
Definition isDot (c : ascii) : bool := (c =? ".")%char.

(** [/^[\w-\.]+@([\w-]+\.)+[\w-]{2,4}$/], the pattern of [email]. *)
Definition emailPattern : regex :=
  Seq (plus (Class localChar))
      (Seq (Class isAt)
           (Seq (plus (Seq (plus (Class labelChar)) (Class isDot)))
                (between 2 4 (Class labelChar)))).

End Schema.

(* ===================================================================== *)
(** ** The earlier revision of the sanitizer                              *)
(* ===================================================================== *)

(** [ensureCategoryKeys] as the oldest controller revision kept in
    [unnamed/part_000] has it: it copies every category and every work
    item and sets [categoryKey], and filters nothing. *)

Module Legacy.

Import JSValue.

(** The own properties an object spread copies from an array: its
    elements under their indices. *)
Fixpoint indexed (n : nat) (items : list value) : list (string * value) :=
  match items with
  | [] => []
  | x :: rest => (JSString.ofNat n, x) :: indexed (S n) rest
  end.

(** [{ ...v }] for a truthy [v] with [typeof v === 'object']. *)
Definition spread (v : value) : list (string * value) :=
  match v with
  | VObj fields => fields
  | VArr items => indexed 0 items
  | _ => []
  end.

(** [{ ...fields, k: v }]: an existing property keeps its place and takes
    the new value, a new one comes last. *)
Fixpoint define (k : string) (v : value) (fields : list (string * value))
  : list (string * value) :=
  match fields with
  | [] => [(k, v)]
  | (k', v') :: rest =>
      if k =? k' then (k, v) :: rest else (k', v') :: define k v rest
  end.

(** The callback of the inner [map]. *)
Definition fixItem (category item : value) : value :=
  if negb (truthy item) || negb (typeofObject item) then item
  else VObj (define "categoryKey" (prop category "key") (spread item)).

(** The callback of the outer [map]. *)
Definition fixCategory (category : value) : result value :=
  if negb (truthy category) || negb (typeofObject category) then Ok category
  else
    items <- elementsOrEmpty (prop category "workItems") ;;
    Ok (VObj (define "workItems" (VArr (map (fixItem category) items))
                     (spread category))).

Fixpoint mapCategories (categories : list value) : result (list value) :=
  match categories with
  | [] => Ok []
  | category :: rest =>
      c <- fixCategory category ;;
      cs <- mapCategories rest ;;
      Ok (c :: cs)
  end.

Definition ensureCategoryKeys (categories : value) : result value :=
  match categories with
  | VArr cats => cs <- mapCategories cats ;; Ok (VArr cs)
  | _ => Ok (VArr [])
  end.

End Legacy.

(* ===================================================================== *)
(** ** Further notions: edge cases, invariants and compositions           *)
(* ===================================================================== *)

Module Laws.

Import JSNumber JSValue.
Local Open Scope Q_scope.

(** **** Values *)

(** [undefined] or [null]: reading a property of such a value raises. *)
Definition nullish (v : value) : bool :=
  match v with
  | VUndefined | VNull => true
  | _ => false
  end.



(** **** Unit aggregator *)

(** A typed surface none of whose three measures is negative. *)
Definition measuresNonNegative (s : Input.Surface) : Prop :=
  0 <= Input.sf_sqft s /\ 0 <= Input.sf_linearFt s /\ 0 <= Input.sf_units s.

(** **** Cost totals calculator *)







(** **** Sanitizer *)

(** A value the sanitizer's [map] returns as it is: not an object. *)
Definition notAnObject (v : value) : bool :=
  negb (truthy v) || negb (typeofObject v).

(** [v || ''] is [v]: the value is truthy or the empty text. *)
Definition textOrEmpty (v : value) : Prop :=
  truthy v = true \/ v = VStr "".

(** What the sanitizer establishes of a returned work item, for the key
    of the category that holds it. *)
Definition rebuiltFor (categoryKey : value) (i : Controller.fixedItem) : Prop :=
  Controller.categoryKey i = categoryKey
  /\ Controller.type i <> ""%string
  /\ JSString.trim (Controller.type i) = Controller.type i
  /\ truthy (Controller.name i) = true
  /\ truthy (Controller.measurementType i) = true
  /\ textOrEmpty (Controller.customWorkTypeName i)
  /\ textOrEmpty (Controller.subtype i)
  /\ textOrEmpty (Controller.description i)
  /\ textOrEmpty (Controller.notes i).

(** What it establishes of a returned category. *)
Definition keyed (c : Controller.fixedCategory) : Prop :=
  truthy (Controller.key c) = true
  /\ truthy (Controller.categoryName c) = true
  /\ Forall (rebuiltFor (Controller.key c)) (Controller.workItems c).

(** What the unit aggregator reads of a work item once the sanitizer has
    rebuilt it: its surfaces, and its measurement type or 'sqft'. *)
Definition measuredAs (item : value) : value :=
  VObj [ ("measurementType", orElse (prop item "measurementType") (VStr "sqft"));
         ("surfaces", prop item "surfaces") ].

(** A sanitised work item that, when its type is the custom-type marker,
    carries a name that is a non-blank text. *)
Definition wellNamed (i : Controller.fixedItem) : bool :=
  if (Controller.type i =? Spec.customMarker)%string then
    match Controller.customWorkTypeName i with
    | VStr n => negb (JSString.trim n =? "")%string
    | _ => false
    end
  else true.

(** **** Taxonomy *)

(** Every type of the table starts with the key it is listed for and a
    hyphen. *)
Definition prefixedByKey (table : list (string * list string)) : bool :=
  forallb (fun e => forallb (fun t => JSString.startsWith t (fst e ++ "-")) (snd e))
          table.

(** No type is listed for two different keys. *)
Definition pairwiseDisjoint (table : list (string * list string)) : bool :=
  forallb (fun e =>
             forallb (fun e' =>
                        (fst e =? fst e')%string
                        || forallb (fun t => negb (JSString.includes (snd e') t)) (snd e))
                     table)
          table.

(** **** Pre-validate hook *)

(** One of the three canonical measurement types. *)
Definition canonicalType (type : option string) : Prop :=
  type = Some "sqft"%string \/ type = Some "linear-foot"%string
  \/ type = Some "by-unit"%string.


(** **** Repair *)

(** The scan finds an item to repair in the project. *)
Definition needsRepair (project : Model.Project) : bool :=
  existsb Model.corrupted (Model.itemsOf project).

(** The project after the nested loops of the repair, when they return. *)
Definition repairedDocument (project : Model.Project) : Model.Project :=
  match Model.repairProject project with
  | Ok (repaired, _) => repaired
  | Throw _ => project
  end.

(** The fields of a work item the repair does not write. *)
Definition keptByRepair (item : Model.WorkItem)
  : option string * option string * option string * option string
    * list (option Model.Surface) * option Q * option Q * option string
    * option string * option string :=
  (Model.wi_name item, Model.wi_type item, Model.wi_subtype item,
   Model.wi_description item, Model.wi_surfaces item,
   Model.wi_materialCost item, Model.wi_laborCost item, Model.wi_notes item,
   Model.wi_measurementType item, Model.wi_categoryKey item).

(** **** Patterns of the customer schema *)

(** The number of digits in a text that may be absent. *)
Definition digitCount (v : option string) : nat :=
  String.length (Schema.removeNonDigits (match v with Some s => s | None => ""%string end)).

(** A non-empty text over a class. *)
Definition wordOver (member : ascii -> bool) (s : string) : Prop :=
  s <> ""%string /\ Pattern.allOf member s = true.

(** The labels, each followed by a dot. *)
Definition dotted (labels : list string) : string :=
  fold_right (fun label rest => (label ++ "." ++ rest)%string) ""%string labels.

(** The texts the e-mail pattern describes: a non-empty local part of
    word characters, hyphens and dots, an at sign, one or more non-empty
    labels of word characters and hyphens, each followed by a dot, and a
    last label of two to four such characters. *)
Definition emailShape (s : string) : Prop :=
  exists (local : string) (labels : list string) (last : string),
    s = (local ++ "@" ++ dotted labels ++ last)%string
    /\ wordOver Schema.localChar local
    /\ labels <> []
    /\ Forall (wordOver Schema.labelChar) labels
    /\ Pattern.allOf Schema.labelChar last = true
    /\ (2 <= String.length last <= 4)%nat.

(** **** The earlier revision of the sanitizer *)

(** A work item and what the earlier sanitizer returns for it, for the
    key of its category: an object gets that key as [categoryKey] and
    keeps every other property, a value that is not an object is returned
    as it is.  (Nothing is said of an array standing for an object.) *)
Definition legacyItem (categoryKey item item' : value) : Prop :=
  match item with
  | VObj _ =>
      prop item' "categoryKey" = categoryKey
      /\ forall k, k <> "categoryKey"%string -> prop item' k = prop item k
  | VArr _ => True
  | _ => item' = item
  end.

(** The same for a category: an object keeps every property but
    [workItems], which holds one work item for each one sent, in order. *)
Definition legacyCategory (category category' : value) : Prop :=
  match category with
  | VObj _ =>
      (forall k, k <> "workItems"%string -> prop category' k = prop category k)
      /\ exists items',
           prop category' "workItems" = VArr items'
           /\ Forall2 (legacyItem (prop category "key")) (Spec.rawItems category) items'
  | VArr _ => True
  | _ => category' = category
  end.

(** **** Request handler *)

(** The answer 400 of the handler to a request without categories. *)
Definition noCategories : Controller.response :=
  Controller.BadRequest ["Project must have at least one category"%string]
                        ["categories"%string].

End Laws.

(* ===================================================================== *)
(** ** Further sample payloads                                            *)
(* ===================================================================== *)

Module Samples.

Local Open Scope Q_scope.

(** A typed work item measured by area, by length and by count. *)
Definition threeSurfaces : Input.WorkItem :=
  {| Input.it_measurementType := Some "sqft";
     Input.it_surfaces :=
       [ {| Input.sf_name := "floor";
            Input.sf_measurementType := None;
            Input.sf_width := 10; Input.sf_height := 12; Input.sf_sqft := 120;
            Input.sf_manualSqft := false; Input.sf_linearFt := 0;
            Input.sf_units := 0; Input.sf_length := 0 |};
         {| Input.sf_name := "trim";
            Input.sf_measurementType := Some "linear-foot";
            Input.sf_width := 0; Input.sf_height := 0; Input.sf_sqft := 0;
            Input.sf_manualSqft := false; Input.sf_linearFt := 44;
            Input.sf_units := 0; Input.sf_length := 44 |};
         {| Input.sf_name := "outlets";
            Input.sf_measurementType := Some "by-unit";
            Input.sf_width := 0; Input.sf_height := 0; Input.sf_sqft := 0;
            Input.sf_manualSqft := false; Input.sf_linearFt := 0;
            Input.sf_units := 6; Input.sf_length := 0 |} ];
     Input.it_others := [] |}.


(** A request that sends a work item carrying a category key of its own
    and no name. *)
Definition foreignKeyItem : value :=
  VObj [ ("type", VStr "  kitchen-flooring ");
         ("categoryKey", VStr "custom_anything");
         ("surfaces", VArr [Examples.wall 10 10 100]);
         ("materialCost", VStr "2.5") ].


(** A stored work item that arrived with a category key of its own and
    measurement types written as aliases. *)
Definition aliasItem : Model.WorkItem :=
  {| Model.wi_name := Some "Baseboard";
     Model.wi_customWorkTypeName := Some "";
     Model.wi_type := Some "kitchen-trim";
     Model.wi_subtype := Some "";
     Model.wi_description := Some "";
     Model.wi_surfaces :=
       [ Some {| Model.s_name := Some "north wall";
                 Model.s_measurementType := Some " Linear FT ";
                 Model.s_width := Some 0; Model.s_height := Some 0;
                 Model.s_sqft := Some 0; Model.s_manualSqft := Some false;
                 Model.s_linearFt := Some 14; Model.s_units := Some 0;
                 Model.s_length := Some 14 |};
         None ];
     Model.wi_materialCost := Some 2;
     Model.wi_laborCost := Some 3;
     Model.wi_notes := Some "";
     Model.wi_measurementType := Some "Linear";
     Model.wi_categoryKey := Some "custom_anything" |}.

(** A work item without a type, which only the earlier sanitizer keeps. *)
Definition untypedItem : value :=
  VObj [ ("name", VStr "Draft"); ("categoryKey", VStr "bathroom") ].

End Samples.

(* ===================================================================== *)
(** ** Arithmetic facts                                                   *)
(* ===================================================================== *)

Module NumberFacts.

Import JSNumber Spec.
Local Open Scope Q_scope.



Lemma Qsum_app (l l' : list Q) : Qsum (l ++ l') == Qsum l + Qsum l'.
Proof.
  induction l as [|a l IH]; simpl.
  - ring.
  - rewrite IH. ring.
Qed.


(** *** The leading digit *)

Lemma scaleUp_reaches (fuel : nat) (a : Q) :
  1 <= a * inject_Z (10 ^ Z.of_nat fuel) -> 1 <= scaleUp fuel a.
Proof.
  revert a. induction fuel as [|f IH]; intros a H.
  - change (inject_Z (10 ^ Z.of_nat 0)) with 1 in H. cbn [scaleUp]. lra.
  - cbn [scaleUp]. destruct (Qle_bool 1 a) eqn:E.
    + now apply Qle_bool_iff.
    + apply IH. rewrite Nat2Z.inj_succ, Z.pow_succ_r in H by lia.
      rewrite inject_Z_mult in H. change (inject_Z 10) with 10 in H.
      now rewrite <- Qmult_assoc.
Qed.

Lemma scaleDown_above (fuel : nat) (b : Q) : 1 <= b -> 1 <= scaleDown fuel b.
Proof.
  revert b. induction fuel as [|f IH]; intros b H.
  - exact H.
  - cbn [scaleDown]. destruct (Qle_bool 10 b) eqn:E.
    + apply IH. apply Qle_bool_iff in E.
      apply Qle_shift_div_l; lra.
    + exact H.
Qed.

Lemma pow2_le_pow10 (n : Z) : (0 <= n -> 2 ^ n <= 10 ^ n)%Z.
Proof. intros H. apply Z.pow_le_mono_l. lia. Qed.

Lemma enough_fuel (a : Q) :
  0 < a -> 1 <= a * inject_Z (10 ^ Z.of_nat (S (Z.to_nat (Z.log2 (Zpos (Qden a)))))).
Proof.
  destruct a as [p q]. unfold Qlt, Qle. cbn [Qnum Qden Qmult inject_Z].
  intros Hp. rewrite Z.mul_1_r in Hp.
  set (n := Z.log2 (Z.pos q)).
  assert (Hn : (0 <= n)%Z) by apply Z.log2_nonneg.
  rewrite Nat2Z.inj_succ, Z2Nat.id by exact Hn.
  pose proof (Z.log2_spec (Z.pos q) (Pos2Z.is_pos q)) as [_ Hq]. fold n in Hq.
  pose proof (pow2_le_pow10 (Z.succ n)) as H10.
  assert (Hq10 : (Z.pos q <= 10 ^ Z.succ n)%Z) by lia.
  rewrite Z.mul_1_l, Pos.mul_1_r.
  assert (1 * Z.pos q <= p * 10 ^ Z.succ n)%Z; [|lia].
  apply Z.mul_le_mono_nonneg; lia.
Qed.

Lemma leadingDigit_positive (a : Q) : 0 < a -> (1 <= leadingDigit a)%Z.
Proof.
  intros Ha. unfold leadingDigit.
  change 1%Z with (Qfloor 1). apply Qfloor_resp_le.
  apply scaleDown_above, scaleUp_reaches, enough_fuel, Ha.
Qed.




(** *** The coercions on sample inputs *)

Example parseInt_examples :
  parseIntNumber (27 # 10) == 2
  /\ parseIntNumber (- (27 # 10)) == - (2)
  /\ parseIntNumber (1 # 1000000) == 0
  /\ parseIntNumber (5 # 10000000) == 5
  /\ parseIntNumber (inject_Z (15 * 10 ^ 20)) == 1
  /\ parseIntString "12.7" = Num 12
  /\ parseIntString "  42 boxes" = Num 42
  /\ parseIntString "0x1f" = Num 31
  /\ parseIntString "boxes" = NaN.
Proof. repeat split. Qed.

Example parseFloat_examples :
  sameNumber (parseFloatString " 12.5 sq ft") (Num 12.5)
  /\ sameNumber (parseFloatString ".5") (Num 0.5)
  /\ sameNumber (parseFloatString "-2.5e2") (Num (- (250)))
  /\ sameNumber (parseFloatString "1e") (Num 1)
  /\ sameNumber (parseFloatString "-") NaN
  /\ sameNumber (parseFloatString "abc") NaN.
Proof. repeat split. Qed.

Example stringToNumber_examples :
  sameNumber (stringToNumber "") (Num 0)
  /\ sameNumber (stringToNumber "   ") (Num 0)
  /\ sameNumber (stringToNumber " 12 ") (Num 12)
  /\ sameNumber (stringToNumber "1e-2") (Num 0.01)
  /\ sameNumber (stringToNumber "12px") NaN
  /\ sameNumber (stringToNumber "0x1A") (Num 26)
  /\ sameNumber (stringToNumber "-0x1A") NaN
  /\ sameNumber (stringToNumber "1,5") NaN.
Proof. repeat split. Qed.

End NumberFacts.

(* ===================================================================== *)
(** ** Facts about strings                                                *)
(* ===================================================================== *)

Module StringFacts.

Import JSString Spec.

Lemma trimStart_head (s : string) : headNotSpace (trimStart s).
Proof.
  induction s as [|c s IH]; simpl; [exact I|].
  destruct (isWhiteSpace c) eqn:Hc; [exact IH|exact Hc].
Qed.

Lemma trimStart_fixed (s : string) : headNotSpace s -> trimStart s = s.
Proof. destruct s as [|c s]; simpl; [reflexivity|]. now intros ->. Qed.

Lemma trimEnd_head (s : string) : headNotSpace s -> headNotSpace (trimEnd s).
Proof.
  destruct s as [|c s]; simpl; [exact (fun H => H)|]. intros Hc.
  destruct (trimEnd s); [rewrite Hc|]; exact Hc.
Qed.

Lemma trimEnd_idempotent (s : string) : trimEnd (trimEnd s) = trimEnd s.
Proof.
  induction s as [|c s IH]; simpl; [reflexivity|].
  destruct (trimEnd s) as [|d t] eqn:Ht.
  - destruct (isWhiteSpace c) eqn:Hc; simpl; [reflexivity|now rewrite Hc].
  - change (trimEnd (String c (String d t))) with
      (match trimEnd (String d t) with
       | EmptyString => if isWhiteSpace c then EmptyString else String c EmptyString
       | u => String c u
       end).
    now rewrite IH.
Qed.

Lemma trim_idempotent (s : string) : trim (trim s) = trim s.
Proof.
  unfold trim.
  rewrite (trimStart_fixed (trimEnd (trimStart s)))
    by (apply trimEnd_head, trimStart_head).
  apply trimEnd_idempotent.
Qed.

End StringFacts.

(* ===================================================================== *)
(** ** Cost Totals Calculator                                             *)
(* ===================================================================== *)

Module CalculatorFacts.

Import JSNumber JSValue Controller Spec NumberFacts.
Local Open Scope Q_scope.














End CalculatorFacts.

Module CalculatorTheorems.

Import JSNumber JSValue Controller Spec NumberFacts CalculatorFacts.
Local Open Scope Q_scope.


(** The first two examples of the specification: 100 square feet at a
    material rate of 2 and a labour rate of 3. *)
Example calculator_examples :
  calculateCostsAndTotals
    (fixedCategoriesValue Examples.sanitizedKitchen)
    (Input.settingsValue Examples.taxOnly)
  = Ok {| materialCost := Num 200.00; laborCost := Num 300.00;
          laborCostBeforeDiscount := Num 300.00; laborDiscount := Num 0.00;
          wasteCost := Num 0.00; taxAmount := Num 40.00; markupAmount := Num 0.00;
          miscFeesTotal := Num 0.00; transportationFee := Num 0.00;
          subtotal := Num 500.00; total := Num 540.00 |}
  /\ calculateCostsAndTotals
       (fixedCategoriesValue Examples.sanitizedKitchen)
       (Input.settingsValue Examples.wasteAndDiscount)
     = Ok {| materialCost := Num 200.00; laborCost := Num 150.00;
             laborCostBeforeDiscount := Num 300.00; laborDiscount := Num 150.00;
             wasteCost := Num 20.00; taxAmount := Num 29.60; markupAmount := Num 0.00;
             miscFeesTotal := Num 0.00; transportationFee := Num 0.00;
             subtotal := Num 370.00; total := Num 399.60 |}.
Proof. split; vm_compute; reflexivity. Qed.

End CalculatorTheorems.

(* ===================================================================== *)
(** ** Payment Aggregator                                                 *)
(* ===================================================================== *)

Module PaymentFacts.

Import JSNumber JSValue Controller Spec NumberFacts.
Local Open Scope Q_scope.

Lemma paymentStep_counted (acc : paymentTotals) (p : value) :
  counted p = true ->
  paymentStep acc p
  = {| totalPaid := totalPaid acc + amountOf p;
       depositAmount := if strictEqString (prop p "method") "Deposit"
                        then depositAmount acc + amountOf p
                        else depositAmount acc |}.
Proof. unfold paymentStep, counted, amountOf. now intros ->. Qed.

Lemma paymentStep_skipped (acc : paymentTotals) (p : value) :
  counted p = false -> paymentStep acc p = acc.
Proof. unfold paymentStep, counted. now intros ->. Qed.



Lemma typed_amount (p : Input.Payment) :
  amountOf (Input.paymentValue p) = Input.p_amount p.
Proof. reflexivity. Qed.





End PaymentFacts.

Module PaymentTheorems.

Import JSNumber JSValue Controller Spec NumberFacts PaymentFacts.
Local Open Scope Q_scope.




(** C9.  When every counted entry has a non-negative amount, the deposits
    are at most the paid total. *)
Theorem deposit_within_paid (payments : value) :
  (forall p, In p (entries payments) -> counted p = true -> 0 <= amountOf p) ->
  depositAmount (parsePayments payments) <= totalPaid (parsePayments payments).
Proof.
  intros Hpos.
  assert (Hfold : forall ps acc,
             (forall p, In p ps -> counted p = true -> 0 <= amountOf p) ->
             depositAmount acc <= totalPaid acc ->
             depositAmount (fold_left paymentStep ps acc)
             <= totalPaid (fold_left paymentStep ps acc)).
  { induction ps as [|p ps IH]; intros acc Hps Hacc; simpl.
    - exact Hacc.
    - apply IH.
      + intros p' Hin. apply Hps. now right.
      + destruct (counted p) eqn:Hc.
        * rewrite (paymentStep_counted acc p Hc). simpl.
          assert (0 <= amountOf p) by (apply Hps; [now left|exact Hc]).
          destruct (strictEqString (prop p "method") "Deposit"); lra.
        * now rewrite (paymentStep_skipped acc p Hc). }
  destruct payments as [| | | | |ps|]; try (simpl; lra).
  apply Hfold; [exact Hpos|simpl; lra].
Qed.

Lemma deposit_within_paid_witness :
  depositAmount (parsePayments Examples.somePayments)
  <= totalPaid (parsePayments Examples.somePayments).
Proof.
  apply (deposit_within_paid Examples.somePayments).
  intros p Hin _. simpl in Hin.
  destruct Hin as [<-|[<-|[<-|[]]]]; vm_compute; discriminate.
Defined.

(** The fourth example of the specification: payments of 100 (cash) and
    50 (deposit) against a grand total of 540. *)
Example payments_example :
  parsePayments (VArr (map Input.paymentValue [Examples.cash100; Examples.deposit50]))
  = {| totalPaid := 150; depositAmount := 50 |}
  /\ totalDue (Num 540) 150 = Num 390.
Proof. split; reflexivity. Qed.

End PaymentTheorems.

(* ===================================================================== *)
(** ** Unit Aggregator                                                    *)
(* ===================================================================== *)

Module UnitFacts.

Import JSNumber JSValue Controller Spec NumberFacts.
Local Open Scope Q_scope.

Lemma not_ignored (k : string) :
  In k ["measurementType"; "sqft"; "linearFt"; "units"]%string -> ~ In k ignoredFields.
Proof.
  intros Hk Hi. simpl in Hk, Hi.
  repeat (destruct Hk as [<-|Hk]; [intuition discriminate|]). exact Hk.
Qed.

(** The contribution of a surface reads four of its properties and the
    item's measurement type. *)
Lemma surfaceUnits_reads (item item' s s' : value) :
  prop item "measurementType" = prop item' "measurementType" ->
  (forall k, In k ["measurementType"; "sqft"; "linearFt"; "units"]%string ->
             prop s k = prop s' k) ->
  surfaceUnits item s = surfaceUnits item' s'.
Proof.
  intros Hi Hs. unfold surfaceUnits.
  rewrite Hi.
  rewrite (Hs "measurementType"%string), (Hs "sqft"%string),
          (Hs "linearFt"%string), (Hs "units"%string); simpl; intuition.
Qed.

Lemma fold_surfaces (item item' : value) (l l' : list value) (sum : Q) :
  prop item "measurementType" = prop item' "measurementType" ->
  Forall2 sameButIgnored l l' ->
  fold_left (fun sum surface =>
               if negb (truthy surface) then sum
               else sum + surfaceUnits item surface) l sum
  = fold_left (fun sum surface =>
                 if negb (truthy surface) then sum
                 else sum + surfaceUnits item' surface) l' sum.
Proof.
  intros Hi Hl. revert sum.
  induction Hl as [|s s' l l' Hs Hl IH]; intros sum; simpl.
  - reflexivity.
  - destruct Hs as ([f ->] & [f' ->] & Hk). simpl.
    rewrite (surfaceUnits_reads item item' (VObj f) (VObj f') Hi).
    + apply IH.
    + intros k Hin. apply Hk. now apply not_ignored.
Qed.

(** A surface for which the [default] branch warns adds nothing. *)
Lemma unknown_type_counts_zero (item surface : value) :
  unknownType item surface = true -> surfaceUnits item surface = 0.
Proof.
  unfold unknownType, surfaceUnits. intros H.
  apply negb_true_iff, orb_false_elim in H as [H Hunit].
  apply orb_false_elim in H as [Hsqft Hlinear].
  now rewrite Hsqft, Hlinear, Hunit.
Qed.





End UnitFacts.

Module UnitTheorems.

Import JSNumber JSValue Controller Spec NumberFacts UnitFacts.
Local Open Scope Q_scope.

(** C10.  Two work items that differ only in the width, height, length,
    name or manualSqft of their surfaces have the same unit count. *)
Theorem units_ignore_dimensions (item item' : value) :
  differOnlyInIgnored item item' -> getUnits item = getUnits item'.
Proof.
  intros ([f ->] & [f' ->] & Hk & l & l' & Hl & Hl' & Hall).
  unfold getUnits. rewrite Hl, Hl'. simpl.
  apply fold_surfaces; [|exact Hall].
  apply Hk. discriminate.
Qed.

Lemma units_ignore_dimensions_witness :
  getUnits Examples.paintSmall = getUnits Examples.paintLarge.
Proof.
  apply (units_ignore_dimensions Examples.paintSmall Examples.paintLarge).
  unfold differOnlyInIgnored, Examples.paintSmall, Examples.paintLarge.
  split; [eexists; reflexivity|]. split; [eexists; reflexivity|]. split.
  - intros k Hk. cbn [prop lookup].
    destruct (k =? "name")%string; [reflexivity|].
    destruct (k =? "measurementType")%string; [reflexivity|].
    destruct (String.eqb_spec k "surfaces"); [contradiction|reflexivity].
  - eexists. eexists. split; [reflexivity|]. split; [reflexivity|].
    constructor; [|constructor].
    unfold sameButIgnored, Examples.wall.
    split; [eexists; reflexivity|]. split; [eexists; reflexivity|].
    intros k Hk. cbn [prop lookup].
    destruct (k =? "name")%string; [reflexivity|].
    destruct (k =? "measurementType")%string; [reflexivity|].
    destruct (String.eqb_spec k "width"); [subst; exfalso; apply Hk; simpl; tauto|].
    destruct (String.eqb_spec k "height"); [subst; exfalso; apply Hk; simpl; tauto|].
    reflexivity.
Defined.

(** A 10 by 10 wall entered with 5 square feet counts 5 units. *)
Example area_is_not_derived : getUnits Examples.paintLarge == 5.
Proof. reflexivity. Qed.



(** C2, at a count of 0.0000005 units: [parseInt] reads the text "5e-7"
    and the aggregator returns 5, where the truncated count is 0. *)
Theorem getUnits_tiny_count :
  getUnits (Input.workItemValue Examples.tinyCount) == 5
  /\ unitCount Examples.tinyCount == 0.
Proof. split; reflexivity. Qed.



End UnitTheorems.

(* ===================================================================== *)
(** ** Taxonomy Validator                                                 *)
(* ===================================================================== *)

Module TaxonomyTheorems.

Import JSValue Model Spec.

Lemma validateWorkType_guard (categoryKey workType : string) :
  categoryKey = "" \/ workType = "" -> validateWorkType categoryKey workType = Ok false.
Proof.
  unfold validateWorkType. intros [-> | ->].
  - reflexivity.
  - now rewrite orb_true_r.
Qed.



Example taxonomy_examples :
  validateWorkType "kitchen" "kitchen-flooring" = Ok true
  /\ validateWorkType "kitchen" "bathroom-tiles" = Ok false
  /\ validateWorkType "custom_garden" "anything" = Ok true
  /\ validateWorkType "attic" "attic-flooring" = Ok false
  /\ validateWorkType "bathroom" "custom-work-type" = Ok true
  /\ validateWorkType "constructor" "kitchen-flooring" = Throw TypeError
  /\ workTypeValidator (Some "constructor") None "kitchen-flooring" = false.
Proof. repeat split. Qed.

End TaxonomyTheorems.

(* ===================================================================== *)
(** ** Pre-validate hook                                                  *)
(* ===================================================================== *)

Module EnforcerFacts.

Import JSValue Model.

Lemma normalize_range (type : value) :
  normalizeToCanonicalMeasurementType type = "sqft"
  \/ normalizeToCanonicalMeasurementType type = "linear-foot"
  \/ normalizeToCanonicalMeasurementType type = "by-unit".
Proof.
  unfold normalizeToCanonicalMeasurementType.
  destruct type as [| | | |s| |]; auto.
  destruct (s =? ""); auto.
  repeat match goal with
         | |- context [if ?b then _ else _] => destruct b; auto
         end.
Qed.

Lemma normalize_canonical (type : value) :
  normalizeToCanonicalMeasurementType (VStr (normalizeToCanonicalMeasurementType type))
  = normalizeToCanonicalMeasurementType type.
Proof.
  destruct (normalize_range type) as [-> | [-> | ->]]; reflexivity.
Qed.

Lemma map_option_idem {A} (f : A -> A) (l : list (option A)) :
  (forall x, f (f x) = f x) ->
  map (option_map f) (map (option_map f) l) = map (option_map f) l.
Proof.
  intros Hf. rewrite map_map. apply map_ext.
  intros [x|]; simpl; [now rewrite Hf|reflexivity].
Qed.

#[local] Arguments normalizeToCanonicalMeasurementType : simpl never.

Lemma normalizeSurface_idem (surface : Surface) :
  normalizeSurface (normalizeSurface surface) = normalizeSurface surface.
Proof.
  unfold normalizeSurface. simpl. now rewrite normalize_canonical.
Qed.

Lemma enforceItem_idem (k : option string) (item : WorkItem) :
  enforceItem k (enforceItem k item) = enforceItem k item.
Proof.
  unfold enforceItem. simpl.
  rewrite normalize_canonical.
  now rewrite (map_option_idem normalizeSurface _ normalizeSurface_idem).
Qed.

Lemma enforceCategory_idem (category : Category) :
  enforceCategory (enforceCategory category) = enforceCategory category.
Proof.
  unfold enforceCategory. simpl.
  now rewrite (map_option_idem (enforceItem (c_key category)) _
                 (enforceItem_idem (c_key category))).
Qed.

Lemma buildStreet_idem (ci : CustomerInfo) :
  buildStreet (buildStreet ci) = buildStreet ci.
Proof.
  unfold buildStreet.
  destruct (present (addressNumber ci) || present (streetName ci)) eqn:H.
  - simpl. now rewrite H.
  - now rewrite H.
Qed.

End EnforcerFacts.

Module EnforcerTheorems.

Import JSValue Model EnforcerFacts.

(** C6.  Running the pre-validate pass on its own result changes nothing. *)
Theorem preValidate_idempotent (this : Project) :
  preValidate (preValidate this) = preValidate this.
Proof.
  unfold preValidate. simpl.
  rewrite (map_option_idem enforceCategory _ enforceCategory_idem).
  destruct (customerInfo this) as [ci|]; simpl; [|reflexivity].
  now rewrite buildStreet_idem.
Qed.

(** What the pass writes: every work item carries the key of its
    category and a canonical measurement type, and so does every surface. *)
Lemma enforceItem_fields (k : option string) (item : WorkItem) :
  wi_categoryKey (enforceItem k item) = k
  /\ In (wi_measurementType (enforceItem k item))
        [Some "sqft"; Some "linear-foot"; Some "by-unit"].
Proof.
  split; [reflexivity|]. simpl.
  destruct (normalize_range (optionValue (wi_measurementType item))) as [-> | [-> | ->]];
    auto.
Qed.

Example normalize_aliases :
  normalizeToCanonicalMeasurementType (VStr "Square Foot") = "sqft"
  /\ normalizeToCanonicalMeasurementType (VStr " single-surface ") = "sqft"
  /\ normalizeToCanonicalMeasurementType (VStr "LINEAR FT") = "linear-foot"
  /\ normalizeToCanonicalMeasurementType (VStr "Units") = "by-unit"
  /\ normalizeToCanonicalMeasurementType (VStr "cubic-yard") = "sqft"
  /\ normalizeToCanonicalMeasurementType VUndefined = "sqft".
Proof. repeat split. Qed.

End EnforcerTheorems.

(* ===================================================================== *)
(** ** Repair of unnamed custom work items                                *)
(* ===================================================================== *)

Module RepairFacts.

Import JSValue Model Spec.

Lemma isCustom_isMarker (item : WorkItem) : isCustom item = isMarker (wi_type item).
Proof. reflexivity. Qed.

Lemma repairItem_type (item : WorkItem) : wi_type (repairItem item) = wi_type item.
Proof. unfold repairItem. now destruct (corrupted item). Qed.

(** An item the repair leaves alone is not a custom item with a blank
    name. *)
Lemma sound_named (item : WorkItem) :
  corrupted item = false -> customTypeNamed item = true.
Proof.
  unfold corrupted, customTypeNamed, nonBlank. rewrite isCustom_isMarker.
  destruct (isMarker (wi_type item)); [|reflexivity].
  destruct (wi_customWorkTypeName item) as [n|]; [|discriminate].
  simpl. intros H. apply orb_false_elim in H as [_ H]. now rewrite H.
Qed.

Lemma repairItem_named (item : WorkItem) : customTypeNamed (repairItem item) = true.
Proof.
  unfold repairItem. destruct (corrupted item) eqn:Hc.
  - unfold customTypeNamed. simpl. now destruct (isCustom _).
  - now apply sound_named.
Qed.

(** When the inner loop returns, it has visited every slot, repaired each
    item, and raised the flag exactly when some item was corrupted. *)
Lemma repairItems_spec (items after : list (option WorkItem)) (flag : bool) :
  repairItems items = Ok (after, flag) ->
  itemsIn after = map repairItem (itemsIn items)
  /\ flag = existsb corrupted (itemsIn items).
Proof.
  revert after flag. induction items as [|i items IH]; intros after flag; simpl.
  - intros [= <- <-]. now split.
  - destruct i as [item|]; [|discriminate].
    destruct (repairItems items) as [[rest b]|e]; [|discriminate].
    cbn [bind fst snd]. intros [= <- <-].
    destruct (IH rest b eq_refl) as [Hi Hb]. simpl. now rewrite Hi, Hb.
Qed.

Lemma repairCategories_spec (cats after : list (option Category)) (flag : bool) :
  repairCategories cats = Ok (after, flag) ->
  itemsOfCategories after = map repairItem (itemsOfCategories cats)
  /\ flag = existsb corrupted (itemsOfCategories cats).
Proof.
  revert after flag. induction cats as [|c cats IH]; intros after flag; simpl.
  - intros [= <- <-]. now split.
  - destruct c as [category|]; [|discriminate].
    destruct (repairItems (c_workItems category)) as [[items b]|e] eqn:Hi; [|discriminate].
    cbn [bind].
    destruct (repairCategories cats) as [[rest b']|e]; [|discriminate].
    cbn [bind fst snd]. intros [= <- <-].
    destruct (IH rest b' eq_refl) as [Hr Hb].
    destruct (repairItems_spec _ _ _ Hi) as [Hitems Hflag].
    simpl. rewrite Hr, Hb, Hitems, Hflag, map_app, existsb_app. now split.
Qed.

Lemma repairProject_spec (project repaired : Project) (needsRepair : bool) :
  repairProject project = Ok (repaired, needsRepair) ->
  itemsOf repaired = map repairItem (itemsOf project)
  /\ needsRepair = existsb corrupted (itemsOf project)
  /\ customerInfo repaired = customerInfo project
  /\ _id repaired = _id project.
Proof.
  unfold repairProject, itemsOf.
  destruct (repairCategories (categories project)) as [[after flag]|e] eqn:Hc;
    [|discriminate].
  cbn [bind fst snd]. intros [= <- <-].
  destruct (repairCategories_spec (categories project) after flag Hc) as [Hi Hf].
  now repeat split.
Qed.

Lemma repaired_named (project repaired : Project) (needsRepair : bool) :
  repairProject project = Ok (repaired, needsRepair) ->
  forallb customTypeNamed (itemsOf repaired) = true.
Proof.
  intros H. destruct (repairProject_spec project repaired needsRepair H) as [-> _].
  apply forallb_forall.
  intros item Hin. apply in_map_iff in Hin as (item0 & <- & _).
  apply repairItem_named.
Qed.

(** A project in which the scan finds nothing already satisfies the law. *)
Lemma sound_project (project repaired : Project) :
  repairProject project = Ok (repaired, false) ->
  forallb customTypeNamed (itemsOf project) = true.
Proof.
  intros H. destruct (repairProject_spec project repaired false H) as (_ & Hf & _).
  apply forallb_forall. intros item Hin.
  apply sound_named.
  destruct (corrupted item) eqn:Hc; [|reflexivity].
  assert (existsb corrupted (itemsOf project) = true)
    by (apply existsb_exists; now exists item).
  congruence.
Qed.

End RepairFacts.

Module RepairTheorems.

Import JSValue Model Spec RepairFacts.

(** C7, as the code has it.  After the repair, in the document returned
    to the caller, and in every stored document when the scan ends
    normally and the saves of the repairs succeed, a work item whose type
    is the custom-type marker has a non-blank custom name; a blank one was
    replaced by 'Unnamed Custom Work'. *)
Theorem repair_names_custom_items :
  (forall item : WorkItem,
      corrupted item = true ->
      wi_customWorkTypeName (repairItem item) = Some "Unnamed Custom Work")
  /\ (forall (save : Project -> bool) (project sent : Project),
        fst (show save project) = Ok sent ->
        forallb customTypeNamed (itemsOf sent) = true)
  /\ (forall (save : Project -> bool) (project repaired : Project) (needsRepair : bool),
        repairProject project = Ok (repaired, needsRepair) ->
        save repaired = true ->
        forallb customTypeNamed (itemsOf (snd (show save project))) = true)
  /\ (forall (save : Project -> bool) (projects stored : list Project)
             (repairs : list string),
        validateAndRepairProjects save projects = (stored, Ok repairs) ->
        (forall p repaired needsRepair,
            In p projects -> repairProject p = Ok (repaired, needsRepair) ->
            save repaired = true) ->
        Forall (fun p => forallb customTypeNamed (itemsOf p) = true) stored).
Proof.
  split; [|split; [|split]].
  - intros item H. unfold repairItem. now rewrite H.
  - intros save project sent. unfold show.
    destruct (repairProject project) as [[repaired needsRepair]|e] eqn:Hr;
      [|discriminate].
    destruct (customerInfo repaired); [|discriminate].
    cbn [fst]. intros [= <-]. exact (repaired_named project repaired needsRepair Hr).
  - intros save project repaired needsRepair Hr Hs. unfold show. rewrite Hr, Hs.
    assert (Hstored :
              forallb customTypeNamed
                      (itemsOf (if needsRepair && true then repaired else project)) = true).
    { destruct needsRepair; cbn [andb].
      - exact (repaired_named project repaired true Hr).
      - exact (sound_project project repaired Hr). }
    now destruct (customerInfo repaired).
  - intros save projects. induction projects as [|p ps IH]; intros stored repairs.
    + intros [= <- _] _. constructor.
    + cbn [validateAndRepairProjects]. intros H Hs.
      destruct (repairProject p) as [[repaired needsRepair]|e] eqn:Hr;
        [|discriminate].
      destruct (validateAndRepairProjects save ps) as [rest outcome] eqn:Hrest.
      assert (Hsave : save repaired = true)
        by (exact (Hs p repaired needsRepair (or_introl eq_refl) Hr)).
      rewrite Hsave, andb_true_r in H.
      assert (Htail : forall ids, outcome = Ok ids ->
                                  Forall (fun q => forallb customTypeNamed (itemsOf q) = true) rest).
      { intros ids ->. apply (IH rest ids eq_refl).
        intros q r b Hq. apply (Hs q r b). now right. }
      destruct needsRepair.
      * destruct outcome as [ids|e]; [|discriminate].
        cbn [bind] in H. injection H as <- _.
        constructor; [exact (repaired_named p repaired true Hr)|now apply (Htail ids)].
      * destruct outcome as [ids|e]; [|discriminate].
        injection H as <- _.
        constructor; [exact (sound_project p repaired Hr)|now apply (Htail ids)].
Qed.

Lemma repair_names_custom_items_witness :
  Forall (fun p => forallb customTypeNamed (itemsOf p) = true)
         [ Examples.projectWith "p2"
             [repairItem Examples.unnamedCustomItem];
           Examples.projectWith "p1" [Examples.heatedFloor] ].
Proof.
  apply (proj2 (proj2 (proj2 repair_names_custom_items))
           (fun _ => true)
           [ Examples.projectWith "p2" [Examples.unnamedCustomItem];
             Examples.projectWith "p1" [Examples.heatedFloor] ]
           [ Examples.projectWith "p2" [repairItem Examples.unnamedCustomItem];
             Examples.projectWith "p1" [Examples.heatedFloor] ]
           ["p2"%string]).
  - reflexivity.
  - intros p repaired needsRepair _ _. reflexivity.
Defined.

(** The claim as written also asks for the converse, which the repair does
    not establish: a stored item of a taxonomy type that carries a custom
    name is left as it is, and both schema validators accept it. *)
Lemma custom_type_law_converse_fails :
  validateAndRepairProjects (fun _ => true)
                            [Examples.projectWith "p1" [Examples.heatedFloor]]
  = ([Examples.projectWith "p1" [Examples.heatedFloor]], Ok [])
  /\ forallb customTypeLaw
             (itemsOf (Examples.projectWith "p1" [Examples.heatedFloor])) = false
  /\ customWorkTypeNameValidator (wi_type Examples.heatedFloor)
                                 (wi_customWorkTypeName Examples.heatedFloor) = true
  /\ workTypeValidator (wi_categoryKey Examples.heatedFloor) (Some "kitchen")
                       "kitchen-flooring" = true.
Proof. repeat split. Qed.

(** The fifth example of the specification: a blank-named custom item is
    returned with the placeholder, also when the save fails, and stored
    with it when the save succeeds. *)
Example repair_example :
  fst (show (fun _ => false) (Examples.projectWith "p2" [Examples.unnamedCustomItem]))
  = Ok (Examples.projectWith "p2" [repairItem Examples.unnamedCustomItem])
  /\ snd (show (fun _ => false) (Examples.projectWith "p2" [Examples.unnamedCustomItem]))
     = Examples.projectWith "p2" [Examples.unnamedCustomItem]
  /\ wi_customWorkTypeName (repairItem Examples.unnamedCustomItem)
     = Some "Unnamed Custom Work"
  /\ validateAndRepairProjects (fun _ => true)
       [ Examples.projectWith "p2" [Examples.unnamedCustomItem];
         Examples.projectWith "p1" [Examples.heatedFloor] ]
     = ([ Examples.projectWith "p2" [repairItem Examples.unnamedCustomItem];
          Examples.projectWith "p1" [Examples.heatedFloor] ],
        Ok ["p2"]).
Proof. repeat split. Qed.

End RepairTheorems.

(* ===================================================================== *)
(** ** Sanitizer                                                          *)
(* ===================================================================== *)

Module SanitizerFacts.

Import JSNumber JSValue Controller Spec StringFacts.

(** One round of the loop, when it does not raise, keeps the rebuilt item
    if the item is complete and skips it otherwise. *)
Lemma fixItem_complete (category item : value) (kept : option fixedItem) :
  fixItem category item = Ok kept ->
  kept = if complete item then Some (rebuilt category item) else None.
Proof.
  unfold fixItem, complete, rebuilt, blank, customMarker.
  destruct (truthy item); [|now intros [= <-]].
  destruct (typeofObject item); [|now intros [= <-]].
  cbn [negb orb andb].
  destruct (prop item "type") as [| |b|q|s|l|f]; not_a_string.
  destruct (String.eqb_spec s "") as [->|Hs]; cbn [negb bind]; [now intros [= <-]|].
  destruct (JSString.trim s =? "")%string; cbn [negb andb]; [now intros [= <-]|].
  destruct (s =? "custom-work-type")%string; cbn [bind andb negb];
    [|now intros [= <-]].
  destruct (prop item "customWorkTypeName") as [| |b|q|n|l|f]; not_a_string.
  destruct (String.eqb_spec n "") as [->|Hn]; cbn [negb bind]; [now intros [= <-]|].
  destruct (JSString.trim n =? "")%string; cbn [negb]; now intros [= <-].
Qed.

Lemma fixItems_complete (category : value) (items : list value) (out : list fixedItem) :
  fixItems category items = Ok out ->
  out = map (rebuilt category) (filter complete items).
Proof.
  revert out. induction items as [|item items IH]; intros out; simpl.
  - now intros [= <-].
  - destruct (fixItem category item) as [kept|e] eqn:Hk; [|discriminate].
    cbn [bind].
    destruct (fixItems category items) as [rest|e]; [|discriminate].
    cbn [bind]. intros [= <-].
    rewrite (fixItem_complete category item kept Hk), (IH rest eq_refl).
    now destruct (complete item).
Qed.

(** An item that is kept has a type that is a string. *)
Lemma fixItem_string_type (category item : value) (fixed : fixedItem) :
  fixItem category item = Ok (Some fixed) -> exists s, prop item "type" = VStr s.
Proof.
  unfold fixItem.
  destruct (negb (truthy item) || negb (typeofObject item)); [discriminate|].
  destruct (prop item "type") as [| |b|q|s|l|f];
    cbn [truthy negb callTrim bind]; try discriminate.
  - destruct b; cbn [negb bind]; discriminate.
  - destruct (Qeq_bool q 0); cbn [negb bind]; discriminate.
  - intros _. now exists s.
Qed.

(** An item that is kept is complete, is the rebuilt item, and its type is
    not blank. *)
Lemma fixItem_kept (category item : value) (fixed : fixedItem) :
  fixItem category item = Ok (Some fixed) ->
  complete item = true
  /\ fixed = rebuilt category item
  /\ blankType fixed = false.
Proof.
  intros H. pose proof (fixItem_complete category item (Some fixed) H) as Hc.
  destruct (complete item) eqn:Hcomplete; [|discriminate].
  injection Hc as ->. split; [reflexivity|]. split; [reflexivity|].
  destruct (fixItem_string_type category item _ H) as [s Hs].
  unfold complete, blank in Hcomplete. rewrite Hs in Hcomplete.
  apply andb_true_iff in Hcomplete as [Hcomplete _].
  apply andb_true_iff in Hcomplete as [_ Hb].
  apply negb_true_iff, orb_false_elim in Hb as [_ Hb].
  unfold blankType, rebuilt. simpl. rewrite Hs, trim_idempotent. exact Hb.
Qed.

Lemma fixItems_not_blank (category : value) (items : list value) (out : list fixedItem) :
  fixItems category items = Ok out ->
  forallb (fun i => negb (blankType i)) out = true.
Proof.
  revert out. induction items as [|item items IH]; intros out; simpl.
  - now intros [= <-].
  - destruct (fixItem category item) as [kept|e] eqn:Hk; [|discriminate].
    cbn [bind].
    destruct (fixItems category items) as [rest|e]; [|discriminate].
    cbn [bind]. intros [= <-].
    destruct kept as [fixed|]; [|now apply IH].
    simpl. destruct (fixItem_kept category item fixed Hk) as (_ & _ & ->).
    now apply IH.
Qed.

Lemma elementsOrEmpty_rawItems (category : value) (items : list value) :
  elementsOrEmpty (prop category "workItems") = Ok items -> items = rawItems category.
Proof.
  unfold elementsOrEmpty, rawItems.
  destruct (prop category "workItems") as [| |b|q|s|l|f]; simpl;
    try (now intros [= <-]); try discriminate.
  - destruct b; [discriminate|now intros [= <-]].
  - destruct (Qeq_bool q 0); simpl; [now intros [= <-]|discriminate].
  - destruct (s =? "")%string; simpl; [now intros [= <-]|discriminate].
Qed.

Lemma fixCategory_kept (catIndex : nat) (category : value) (fixed : fixedCategory) :
  fixCategory catIndex category = Ok (inr fixed) ->
  missingKeyOrName category = false /\ keptAs category fixed.
Proof.
  unfold fixCategory, keptAs, missingKeyOrName.
  destruct (negb (truthy category) || negb (typeofObject category)) eqn:Hobj;
    [discriminate|].
  destruct (negb (truthy (prop category "key")) || negb (truthy (prop category "name")));
    [discriminate|].
  destruct (elementsOrEmpty (prop category "workItems")) as [items|e] eqn:He;
    [|discriminate].
  cbn [bind].
  destruct (fixItems category items) as [valid|e] eqn:Hf; [|discriminate].
  cbn [bind]. intros [= <-]. simpl.
  rewrite <- (elementsOrEmpty_rawItems category items He).
  split; [now destruct category|].
  repeat split.
  - exact (fixItems_complete category items valid Hf).
  - exact (fixItems_not_blank category items valid Hf).
Qed.

Lemma filterCategories_all (mapped : list (value + fixedCategory))
      (out : list fixedCategory) :
  filterCategories mapped = Ok out -> mapped = map inr out.
Proof.
  revert out. induction mapped as [|m mapped IH]; intros out; simpl.
  - now intros [= <-].
  - destruct m as [v|c]; [discriminate|].
    destruct (filterCategories mapped) as [cs|e]; [|discriminate].
    cbn [bind]. intros [= <-]. simpl. now rewrite (IH cs eq_refl).
Qed.

Lemma mapCategories_kept (catIndex : nat) (cats : list value)
      (out : list fixedCategory) :
  mapCategories catIndex cats = Ok (map inr out) ->
  Forall2 (fun c fixed => missingKeyOrName c = false /\ keptAs c fixed) cats out.
Proof.
  revert catIndex out. induction cats as [|c cats IH]; intros catIndex out; simpl.
  - destruct out; [constructor|discriminate].
  - destruct (fixCategory catIndex c) as [m|e] eqn:Hc; [|discriminate].
    cbn [bind].
    destruct (mapCategories (S catIndex) cats) as [ms|e] eqn:Hm; [|discriminate].
    cbn [bind]. destruct out as [|o out]; [discriminate|].
    simpl. intros [= -> ->]. constructor.
    + now apply (fixCategory_kept catIndex).
    + now apply (IH (S catIndex)).
Qed.

Lemma ensureCategoryKeys_kept (cats : list value) (out : list fixedCategory) :
  ensureCategoryKeys (VArr cats) = Ok out ->
  Forall2 (fun c fixed => missingKeyOrName c = false /\ keptAs c fixed) cats out.
Proof.
  unfold ensureCategoryKeys.
  destruct (mapCategories 0 cats) as [mapped|e] eqn:Hm; [|discriminate].
  cbn [bind]. intros Hf.
  apply filterCategories_all in Hf. subst mapped.
  now apply (mapCategories_kept 0).
Qed.

Lemma missing_raises (catIndex : nat) (category : value) :
  missingKeyOrName category = true ->
  fixCategory catIndex category = Throw (Error (missingFieldsMessage catIndex)).
Proof.
  unfold missingKeyOrName, fixCategory.
  destruct category; try discriminate; simpl; intros H; try rewrite H; reflexivity.
Qed.

Lemma mapCategories_app (catIndex : nat) (pre post : list value) :
  mapCategories catIndex (pre ++ post)%list
  = (heads <- mapCategories catIndex pre ;;
     tails <- mapCategories (catIndex + List.length pre) post ;;
     Ok (heads ++ tails)%list)%js.
Proof.
  revert catIndex. induction pre as [|c pre IH]; intros catIndex; simpl.
  - rewrite Nat.add_0_r. now destruct (mapCategories catIndex post).
  - destruct (fixCategory catIndex c); cbn [bind]; [|reflexivity].
    rewrite IH, Nat.add_succ_r. simpl.
    destruct (mapCategories (S catIndex) pre); cbn [bind]; [|reflexivity].
    now destruct (mapCategories (S (catIndex + List.length pre)) post).
Qed.

End SanitizerFacts.

Module SanitizerTheorems.

Import JSNumber JSValue Controller Spec StringFacts SanitizerFacts.

(** X2.  Whenever the sanitizer returns, it returns one category per raw
    category, in order, with the same name and key, holding exactly the
    complete work items of the raw category, rebuilt; none of them has a
    blank type, and no raw category lacks its key or its name. *)
Theorem sanitizer_keeps_complete_items (cats : list value) (out : list fixedCategory) :
  ensureCategoryKeys (VArr cats) = Ok out ->
  Forall2 (fun c fixed => missingKeyOrName c = false /\ keptAs c fixed) cats out
  /\ List.length out = List.length cats
  /\ forallb (fun i => negb (blankType i)) (allWorkItems out) = true.
Proof.
  intros H. pose proof (ensureCategoryKeys_kept cats out H) as Hall.
  split; [exact Hall|]. split; [symmetry; exact (Forall2_length Hall)|].
  unfold allWorkItems. clear H.
  induction Hall as [|c fixed cats out [_ (_ & _ & _ & Hb)] _ IH]; simpl.
  - reflexivity.
  - rewrite forallb_app, Hb. exact IH.
Qed.

Lemma sanitizer_keeps_complete_items_witness :
  Forall2 (fun c fixed => missingKeyOrName c = false /\ keptAs c fixed)
          [Examples.kitchenWith [Examples.exactCustom; Examples.flooring; VNull]]
          Examples.sanitizedKitchen
  /\ List.length Examples.sanitizedKitchen
     = List.length [Examples.kitchenWith [Examples.exactCustom; Examples.flooring; VNull]]
  /\ forallb (fun i => negb (blankType i)) (allWorkItems Examples.sanitizedKitchen) = true.
Proof.
  apply (sanitizer_keeps_complete_items
           [Examples.kitchenWith [Examples.exactCustom; Examples.flooring; VNull]]
           Examples.sanitizedKitchen).
  reflexivity.
Defined.

(** X3.  A category object without key or name makes the call raise; when no
    earlier category raised, the error is the one that names its index. *)
Theorem sanitizer_rejects_missing_key (pre post : list value) (category : value) :
  missingKeyOrName category = true ->
  succeeded (ensureCategoryKeys (VArr (pre ++ category :: post)%list)) = false
  /\ (succeeded (mapCategories 0 pre) = true ->
      ensureCategoryKeys (VArr (pre ++ category :: post)%list)
      = Throw (Error (missingFieldsMessage (List.length pre)))).
Proof.
  intros Hm. unfold ensureCategoryKeys.
  rewrite mapCategories_app. cbn [mapCategories].
  rewrite (missing_raises _ category Hm).
  destruct (mapCategories 0 pre) as [heads|e]; cbn [bind succeeded].
  - split; [reflexivity|]. intros _. reflexivity.
  - split; [reflexivity|discriminate].
Qed.

Lemma sanitizer_rejects_missing_key_witness :
  succeeded (ensureCategoryKeys
               (VArr ([Examples.kitchenWith [Examples.flooring]]
                        ++ VObj [("name", VStr "Attic")] :: [VNull])%list)) = false
  /\ (succeeded (mapCategories 0 [Examples.kitchenWith [Examples.flooring]]) = true ->
      ensureCategoryKeys
        (VArr ([Examples.kitchenWith [Examples.flooring]]
                 ++ VObj [("name", VStr "Attic")] :: [VNull])%list)
      = Throw (Error "Category at index 1 is missing required fields (key or name)")).
Proof.
  apply (sanitizer_rejects_missing_key
           [Examples.kitchenWith [Examples.flooring]] [VNull]
           (VObj [("name", VStr "Attic")])).
  reflexivity.
Defined.

(** C3, at a custom item without a name whose type is written with a
    leading space: the marker test reads the type as written, the item is
    kept with its type trimmed, and the output holds an item whose type is
    the custom-type marker and whose custom name is blank.  Written
    exactly, the same item is dropped. *)
Theorem padded_marker_is_kept :
  (exists out,
      ensureCategoryKeys (VArr [Examples.kitchenWith [Examples.paddedCustom]]) = Ok out
      /\ existsb unnamedCustom (allWorkItems out) = true)
  /\ (exists out,
         ensureCategoryKeys (VArr [Examples.kitchenWith [Examples.exactCustom]]) = Ok out
         /\ allWorkItems out = []).
Proof.
  split; eexists; (split; [reflexivity|reflexivity]).
Qed.

End SanitizerTheorems.

(* ===================================================================== *)
(** ** Request handler                                                    *)
(* ===================================================================== *)

Module RequestTheorems.

Import JSNumber JSValue Controller Spec SanitizerFacts.

Lemma assemble_persists (user info settings : value) (fixed : list fixedCategory)
      (r : response) :
  assemble user info settings fixed = Ok r -> exists data, r = Persist data.
Proof.
  unfold assemble.
  destruct (calculateCostsAndTotals (fixedCategoriesValue fixed) settings); [|discriminate].
  cbn [bind]. destruct (getProp settings "payments"); [|discriminate].
  cbn [bind]. intros [= <-]. eexists. reflexivity.
Qed.

(** X4.  For a request whose raw categories pass the debug loop and the
    sanitizer: no category is lost, and the handler answers with the
    'no complete work items' failure exactly when no work item survived;
    otherwise it goes on to the calculation with the sanitised tree. *)
Theorem request_fails_without_items
        (user body info : value) (cats : list value) (fixed : list fixedCategory) :
  getProp body "customerInfo" = Ok info ->
  prop body "categories" = VArr cats ->
  cats <> [] ->
  logRequest (VArr cats) = Ok tt ->
  ensureCategoryKeys (VArr cats) = Ok fixed ->
  List.length fixed = List.length cats
  /\ (createOrUpdate user body = noWorkItems <-> totalWorkItems fixed = 0%nat)
  /\ (totalWorkItems fixed <> 0%nat ->
      createOrUpdate user body
      = match assemble user info (orDefault (prop body "settings") (VObj [])) fixed with
        | Ok r => r
        | Throw e => InternalError e
        end).
Proof.
  intros Hinfo Hcats Hne Hlog Hfix.
  split.
  { symmetry. exact (Forall2_length (ensureCategoryKeys_kept cats fixed Hfix)). }
  unfold createOrUpdate. rewrite Hinfo. cbn [bind].
  rewrite Hcats. cbn [orDefault]. rewrite Hlog. cbn [bind].
  destruct cats as [|c cats]; [now elim Hne|].
  rewrite Hfix.
  destruct (Nat.eqb_spec (totalWorkItems fixed) 0) as [Hz|Hz].
  - split; [split; [now intros _|reflexivity]|]. intros H. now elim H.
  - split; [|reflexivity].
    split; [|intros H; now elim Hz].
    destruct (assemble user info (orDefault (prop body "settings") (VObj [])) fixed)
      as [r|e] eqn:Ha.
    + destruct (assemble_persists _ _ _ _ _ Ha) as [data ->]. discriminate.
    + discriminate.
Qed.

Lemma request_fails_without_items_witness :
  List.length Examples.emptyKitchen
  = List.length [Examples.kitchenWith [Examples.exactCustom]]
  /\ (createOrUpdate (VStr "user-1")
                     (Examples.requestWith [Examples.kitchenWith [Examples.exactCustom]])
      = noWorkItems
      <-> totalWorkItems Examples.emptyKitchen = 0%nat)
  /\ (totalWorkItems Examples.emptyKitchen <> 0%nat ->
      createOrUpdate (VStr "user-1")
                     (Examples.requestWith [Examples.kitchenWith [Examples.exactCustom]])
      = match assemble (VStr "user-1") (VObj [ ("projectName", VStr "Remodel") ])
                       (orDefault
                          (prop (Examples.requestWith
                                   [Examples.kitchenWith [Examples.exactCustom]])
                                "settings") (VObj []))
                       Examples.emptyKitchen with
        | Ok r => r
        | Throw e => InternalError e
        end).
Proof.
  apply (request_fails_without_items
           (VStr "user-1")
           (Examples.requestWith [Examples.kitchenWith [Examples.exactCustom]])
           (VObj [ ("projectName", VStr "Remodel") ])
           [Examples.kitchenWith [Examples.exactCustom]]
           Examples.emptyKitchen).
  - reflexivity.
  - reflexivity.
  - discriminate.
  - reflexivity.
  - reflexivity.
Defined.

(** C5, at a request whose category holds [null] beside a complete work
    item: the sanitizer alone skips the [null] and keeps the other item,
    but the debug loop that runs first reads [item.name] and the request
    ends in the outer [catch]. *)
Theorem null_item_fails_request :
  createOrUpdate (VStr "user-1")
                 (Examples.requestWith [Examples.kitchenWith [VNull; Examples.flooring]])
  = InternalError TypeError
  /\ exists out,
       ensureCategoryKeys (VArr [Examples.kitchenWith [VNull; Examples.flooring]]) = Ok out
       /\ totalWorkItems out = 1%nat.
Proof.
  split; [reflexivity|]. eexists. split; reflexivity.
Qed.

(** The third example of the specification: an unnamed custom item is
    dropped, its category stays, and as the only item of the project it
    fails the request. *)
Example unnamed_custom_example :
  ensureCategoryKeys (VArr [Examples.kitchenWith [Examples.exactCustom; Examples.flooring]])
  = Ok Examples.sanitizedKitchen
  /\ ensureCategoryKeys (VArr [Examples.kitchenWith [Examples.exactCustom]])
     = Ok Examples.emptyKitchen
  /\ createOrUpdate (VStr "user-1")
                    (Examples.requestWith [Examples.kitchenWith [Examples.exactCustom]])
     = noWorkItems.
Proof. repeat split. Qed.

End RequestTheorems.

(* ===================================================================== *)
(** ** Unit Aggregator: further properties                                *)
(* ===================================================================== *)

Module UnitLaws.

Import JSNumber JSValue Controller Spec Laws NumberFacts UnitFacts.
Local Open Scope Q_scope.

Lemma truncate_nonneg (q : Q) : 0 <= q -> (0 <= truncate q)%Z.
Proof.
  unfold Qle, truncate. cbn [Qnum Qden]. intros H.
  apply Z.quot_pos; lia.
Qed.

Lemma parseIntNumber_nonneg (q : Q) : 0 <= q -> 0 <= parseIntNumber q.
Proof.
  intros Hq. unfold parseIntNumber.
  destruct (Qeq_bool q 0) eqn:Hz; [apply Qle_refl|].
  destruct (positional q).
  - change 0 with (inject_Z 0). rewrite <- Zle_Qle. now apply truncate_nonneg.
  - assert (Hpos : 0 < q).
    { apply Qle_lteq in Hq as [Hlt|Heq]; [exact Hlt|].
      symmetry in Heq. apply Qeq_bool_iff in Heq. congruence. }
    assert (Habs : 0 < Qabs q) by (rewrite Qabs_pos; lra).
    pose proof (leadingDigit_positive (Qabs q) Habs) as Hd.
    assert (Hs : Z.sgn (Qnum q) = 1%Z).
    { apply Z.sgn_pos. unfold Qlt in Hpos. simpl in Hpos. lia. }
    rewrite Hs, Z.mul_1_l.
    change 0 with (inject_Z 0). rewrite <- Zle_Qle. lia.
Qed.

Lemma surfaceUnits_nonneg (i : Input.WorkItem) (s : Input.Surface) :
  measuresNonNegative s ->
  0 <= surfaceUnits (Input.workItemValue i) (Input.surfaceValue s).
Proof.
  intros (Hsqft & Hlinear & Hunits).
  unfold surfaceUnits, Input.workItemValue, Input.surfaceValue.
  cbn [prop lookup String.eqb Ascii.eqb Bool.eqb].
  destruct (strictEqString _ "sqft"); [exact Hsqft|].
  destruct (strictEqString _ "linear-foot"); [exact Hlinear|].
  destruct (strictEqString _ "by-unit"); [|apply Qle_refl].
  cbn [prop lookup parseInt orZero]. now apply parseIntNumber_nonneg.
Qed.

(** X6.  A typed work item whose surfaces carry no negative measure has a unit
    count that is not negative, whatever the magnitude of its counts. *)
Theorem getUnits_nonneg (i : Input.WorkItem) :
  Forall measuresNonNegative (Input.it_surfaces i) ->
  0 <= getUnits (Input.workItemValue i).
Proof.
  intros Hall.
  change (getUnits (Input.workItemValue i))
    with (fold_left (fun sum surface =>
                       if negb (truthy surface) then sum
                       else sum + surfaceUnits (Input.workItemValue i) surface)
                    (map Input.surfaceValue (Input.it_surfaces i)) 0).
  assert (Hfold : forall ss a,
             Forall measuresNonNegative ss -> 0 <= a ->
             0 <= fold_left (fun sum surface =>
                               if negb (truthy surface) then sum
                               else sum + surfaceUnits (Input.workItemValue i) surface)
                            (map Input.surfaceValue ss) a).
  { induction ss as [|s ss IH]; intros a Hss Ha; cbn [map fold_left].
    - exact Ha.
    - inversion Hss as [|s0 ss0 Hs Hrest]; subst.
      change (truthy (Input.surfaceValue s)) with true. cbn [negb].
      apply IH; [exact Hrest|].
      pose proof (surfaceUnits_nonneg i s Hs). lra. }
  apply Hfold; [exact Hall|apply Qle_refl].
Qed.

Lemma getUnits_nonneg_witness :
  0 <= getUnits (Input.workItemValue Samples.threeSurfaces).
Proof.
  apply (getUnits_nonneg Samples.threeSurfaces).
  repeat constructor; discriminate.
Defined.

End UnitLaws.

(* ===================================================================== *)
(** ** Payment Aggregator: further properties                             *)
(* ===================================================================== *)

Module PaymentLaws.

Import JSNumber JSValue Controller Spec Laws NumberFacts PaymentFacts.
Local Open Scope Q_scope.




End PaymentLaws.

(* ===================================================================== *)
(** ** Cost Totals Calculator: further properties                         *)
(* ===================================================================== *)

Module RoundingFacts.

Import JSNumber Spec NumberFacts.
Local Open Scope Q_scope.








End RoundingFacts.

Module CalculatorLaws.

Import JSNumber JSValue Controller Spec Laws NumberFacts CalculatorFacts RoundingFacts.
Local Open Scope Q_scope.


Lemma getProp_nullish (v : value) (k : string) :
  getProp v k = if nullish v then Throw TypeError else Ok (prop v k).
Proof. now destruct v. Qed.















End CalculatorLaws.

(* ===================================================================== *)
(** ** Sanitizer: further properties                                      *)
(* ===================================================================== *)

Module SanitizerLaws.

Import JSNumber JSValue Controller Spec Laws StringFacts SanitizerFacts.
Local Open Scope Q_scope.

Lemma orElse_truthy (v d : value) : truthy d = true -> truthy (orElse v d) = true.
Proof. intros Hd. unfold orElse. now destruct (truthy v) eqn:Hv. Qed.

Lemma orElse_textOrEmpty (v : value) : textOrEmpty (orElse v (VStr "")).
Proof.
  unfold textOrEmpty, orElse. destruct (truthy v) eqn:Hv; [now left|now right].
Qed.

Lemma orElse_fixed (v : value) : textOrEmpty v -> orElse v (VStr "") = v.
Proof. unfold orElse. intros [-> | ->]; reflexivity. Qed.

Lemma orElse_kept (v d : value) : truthy v = true -> orElse v d = v.
Proof. unfold orElse. now intros ->. Qed.

Lemma not_blank_not_empty (s : string) : (JSString.trim s =? "")%string = false -> s <> ""%string.
Proof. intros H ->. discriminate. Qed.

(** A work item the loop keeps has the shape the sanitizer promises. *)
Lemma fixItem_rebuiltFor (category item : value) (fixed : fixedItem) :
  fixItem category item = Ok (Some fixed) -> rebuiltFor (prop category "key") fixed.
Proof.
  intros H. destruct (fixItem_kept category item fixed H) as (_ & -> & Hblank).
  destruct (fixItem_string_type category item _ H) as [s Hs].
  unfold blankType, rebuilt in Hblank. cbn [type] in Hblank. rewrite Hs in Hblank.
  rewrite trim_idempotent in Hblank.
  unfold rebuiltFor, rebuilt.
  cbn [categoryKey type name measurementType customWorkTypeName subtype description notes].
  rewrite Hs.
  split; [reflexivity|].
  split; [intros Hempty; rewrite Hempty in Hblank; discriminate|].
  split; [apply trim_idempotent|].
  split; [now apply orElse_truthy|].
  split; [now apply orElse_truthy|].
  repeat split; apply orElse_textOrEmpty.
Qed.

Lemma fixItems_rebuiltFor (category : value) (items : list value) (out : list fixedItem) :
  fixItems category items = Ok out -> Forall (rebuiltFor (prop category "key")) out.
Proof.
  revert out. induction items as [|item items IH]; intros out; simpl.
  - intros [= <-]. constructor.
  - destruct (fixItem category item) as [kept|e] eqn:Hk; [|discriminate].
    cbn [bind].
    destruct (fixItems category items) as [rest|e]; [|discriminate].
    cbn [bind]. intros [= <-].
    destruct kept as [fixed|]; [|now apply IH].
    constructor; [exact (fixItem_rebuiltFor category item fixed Hk)|now apply IH].
Qed.

Lemma fixCategory_keyed (catIndex : nat) (category : value) (fixed : fixedCategory) :
  fixCategory catIndex category = Ok (inr fixed) -> keyed fixed.
Proof.
  unfold fixCategory, keyed.
  destruct (negb (truthy category) || negb (typeofObject category)); [discriminate|].
  destruct (truthy (prop category "key")) eqn:Hkey; cbn [negb orb]; [|discriminate].
  destruct (truthy (prop category "name")) eqn:Hname; cbn [negb]; [|discriminate].
  destruct (elementsOrEmpty (prop category "workItems")) as [items|e]; [|discriminate].
  cbn [bind].
  destruct (fixItems category items) as [valid|e] eqn:Hf; [|discriminate].
  cbn [bind]. intros [= <-]. cbn [key categoryName workItems].
  repeat split; try assumption.
  exact (fixItems_rebuiltFor category items valid Hf).
Qed.

Lemma mapCategories_keyed (catIndex : nat) (cats : list value) (out : list fixedCategory) :
  mapCategories catIndex cats = Ok (map inr out) -> Forall keyed out.
Proof.
  revert catIndex out. induction cats as [|c cats IH]; intros catIndex out; simpl.
  - destruct out; [constructor|discriminate].
  - destruct (fixCategory catIndex c) as [m|e] eqn:Hc; [|discriminate].
    cbn [bind].
    destruct (mapCategories (S catIndex) cats) as [ms|e] eqn:Hm; [|discriminate].
    cbn [bind]. destruct out as [|o out]; [discriminate|].
    simpl. intros [= -> ->]. constructor.
    + exact (fixCategory_keyed catIndex c o Hc).
    + exact (IH (S catIndex) out Hm).
Qed.

Lemma ensureCategoryKeys_keyed (cats : list value) (out : list fixedCategory) :
  ensureCategoryKeys (VArr cats) = Ok out -> Forall keyed out.
Proof.
  unfold ensureCategoryKeys.
  destruct (mapCategories 0 cats) as [mapped|e] eqn:Hm; [|discriminate].
  cbn [bind]. intros Hf.
  apply filterCategories_all in Hf. subst mapped.
  exact (mapCategories_keyed 0 cats out Hm).
Qed.

(** X11.  Whenever the sanitizer returns, every category it returns has a
    truthy key and name, and every work item carries the key of the
    category that holds it (whatever key the item was sent with), a type
    that is trimmed and not empty, a truthy name and measurement type, and
    texts that are truthy or empty. *)
Theorem sanitizer_sets_category_key (cats : list value) (out : list fixedCategory) :
  ensureCategoryKeys (VArr cats) = Ok out -> Forall keyed out.
Proof. exact (ensureCategoryKeys_keyed cats out). Qed.

Lemma sanitizer_sets_category_key_witness :
  Forall keyed
         [ {| categoryName := VStr "Kitchen";
              key := VStr "kitchen";
              workItems := [rebuilt (Examples.kitchenWith []) Samples.foreignKeyItem] |} ].
Proof.
  apply (sanitizer_sets_category_key [Examples.kitchenWith [Samples.foreignKeyItem]]).
  reflexivity.
Defined.

Lemma getUnits_reads (item item' : value) :
  truthy item = true -> truthy item' = true ->
  prop item "measurementType" = prop item' "measurementType" ->
  (isArray (prop item "surfaces") = true -> prop item "surfaces" = prop item' "surfaces") ->
  (isArray (prop item "surfaces") = false -> prop item' "surfaces" = VArr []
                                             \/ isArray (prop item' "surfaces") = false) ->
  getUnits item = getUnits item'.
Proof.
  intros Ht Ht' Hmt Harr Hnot. unfold getUnits. rewrite Ht, Ht'. cbn [negb orb].
  destruct (isArray (prop item "surfaces")) eqn:Hs; cbn [negb].
  - rewrite <- (Harr eq_refl), Hs. cbn [negb].
    destruct (prop item "surfaces"); try discriminate.
    unfold surfaceUnits. now rewrite Hmt.
  - destruct (Hnot eq_refl) as [-> | ->]; reflexivity.
Qed.

(** X12.  The sanitizer and the calculator together.  For a work item the
    sanitizer keeps, the rates it stores are the rates the calculator
    would read from the item as sent, and the unit count of the rebuilt
    item is the count of the item's surfaces under the item's measurement
    type, or under 'sqft' when it has none; so for an item that has a
    measurement type the calculator adds the same amounts before and after
    sanitising. *)
Theorem sanitizing_preserves_price (category item : value) (fixed : fixedItem) :
  fixItem category item = Ok (Some fixed) ->
  itemMaterialCost fixed = orZero (toNumber (prop item "materialCost"))
  /\ itemLaborCost fixed = orZero (toNumber (prop item "laborCost"))
  /\ getUnits (fixedItemValue fixed) = getUnits (measuredAs item)
  /\ (truthy (prop item "measurementType") = true ->
      forall acc, itemStep acc (fixedItemValue fixed) = itemStep acc item).
Proof.
  intros H. destruct (fixItem_kept category item fixed H) as (Hcomplete & -> & _).
  assert (Hunits : getUnits (fixedItemValue (rebuilt category item))
                   = getUnits (measuredAs item)).
  { symmetry. apply getUnits_reads; try reflexivity.
    - cbn [fixedItemValue rebuilt surfaces prop lookup String.eqb Ascii.eqb Bool.eqb
           measuredAs].
      destruct (prop item "surfaces"); try discriminate. reflexivity.
    - cbn [fixedItemValue rebuilt surfaces prop lookup String.eqb Ascii.eqb Bool.eqb
           measuredAs].
      intros Hs. left. destruct (prop item "surfaces"); try reflexivity. discriminate. }
  split; [reflexivity|]. split; [reflexivity|]. split; [exact Hunits|].
  intros Hmt acc.
  assert (Hobj : truthy item = true /\ nullish item = false).
  { unfold complete in Hcomplete.
    apply andb_true_iff in Hcomplete as [Hcomplete _].
    apply andb_true_iff in Hcomplete as [Hcomplete _].
    apply andb_true_iff in Hcomplete as [Htruthy _].
    split; [exact Htruthy|]. now destruct item. }
  destruct Hobj as [Htruthy Hnull].
  assert (Hsame : getUnits (measuredAs item) = getUnits item).
  { apply getUnits_reads; try reflexivity; try assumption.
    - cbn [measuredAs prop lookup String.eqb Ascii.eqb Bool.eqb].
      now apply orElse_kept.
    - cbn [measuredAs prop lookup String.eqb Ascii.eqb Bool.eqb]. intros Hs. now right. }
  unfold itemStep. rewrite Hunits, Hsame.
  destruct item; try discriminate; reflexivity.
Qed.

Lemma sanitizing_preserves_price_witness :
  itemMaterialCost (rebuilt (Examples.kitchenWith []) Samples.foreignKeyItem)
  = orZero (toNumber (prop Samples.foreignKeyItem "materialCost"))
  /\ itemLaborCost (rebuilt (Examples.kitchenWith []) Samples.foreignKeyItem)
     = orZero (toNumber (prop Samples.foreignKeyItem "laborCost"))
  /\ getUnits (fixedItemValue (rebuilt (Examples.kitchenWith []) Samples.foreignKeyItem))
     = getUnits (measuredAs Samples.foreignKeyItem)
  /\ (truthy (prop Samples.foreignKeyItem "measurementType") = true ->
      forall acc,
        itemStep acc (fixedItemValue (rebuilt (Examples.kitchenWith []) Samples.foreignKeyItem))
        = itemStep acc Samples.foreignKeyItem).
Proof.
  apply (sanitizing_preserves_price (Examples.kitchenWith []) Samples.foreignKeyItem).
  reflexivity.
Defined.

Lemma fixCategory_unchanged (catIndex : nat) (category : value) :
  notAnObject category = true -> fixCategory catIndex category = Ok (inl category).
Proof. unfold notAnObject, fixCategory. now intros ->. Qed.

Lemma filterCategories_unchanged (heads tails : list (value + fixedCategory)) (v : value) :
  succeeded (filterCategories (heads ++ inl v :: tails)%list) = false.
Proof.
  induction heads as [|h heads IH]; cbn [app filterCategories].
  - reflexivity.
  - destruct h as [w|c]; [reflexivity|].
    destruct (filterCategories (heads ++ inl v :: tails)%list); [discriminate|reflexivity].
Qed.

(** X13.  A category that is not an object ([null], a number, a text, a boolean)
    is returned as it is by the [map] callback, and the [filter] callback
    then raises on it: the sanitizer never returns when the array holds
    such a category, wherever it stands. *)
Theorem sanitizer_rejects_non_object (pre post : list value) (category : value) :
  notAnObject category = true ->
  succeeded (ensureCategoryKeys (VArr (pre ++ category :: post)%list)) = false.
Proof.
  intros Hc. unfold ensureCategoryKeys.
  rewrite mapCategories_app. cbn [mapCategories].
  rewrite (fixCategory_unchanged _ category Hc).
  destruct (mapCategories 0 pre) as [heads|e]; cbn [bind succeeded]; [|reflexivity].
  destruct (mapCategories (S (0 + List.length pre)) post) as [tails|e];
    cbn [bind succeeded]; [|reflexivity].
  apply filterCategories_unchanged.
Qed.

Lemma sanitizer_rejects_non_object_witness :
  succeeded (ensureCategoryKeys
               (VArr ([Examples.kitchenWith [Examples.flooring]] ++ VStr "bathroom" :: [])%list))
  = false.
Proof.
  apply (sanitizer_rejects_non_object [Examples.kitchenWith [Examples.flooring]] []
                                      (VStr "bathroom")).
  reflexivity.
Defined.

(** One round of the loop on an item the sanitizer built returns the item
    itself, provided a custom-type item is well named. *)
Lemma fixItem_again (c : fixedCategory) (i : fixedItem) :
  rebuiltFor (key c) i -> wellNamed i = true ->
  fixItem (fixedCategoryValue c) (fixedItemValue i) = Ok (Some i).
Proof.
  intros (Hkey & Hne & Htrim & Hname & Hmt & Hcw & Hsub & Hdesc & Hnotes) Hwell.
  unfold wellNamed, customMarker in Hwell.
  destruct i as [nm cw ty sub desc surf mat lab nts mt ck].
  cbn [categoryKey type name measurementType customWorkTypeName subtype description notes]
    in *.
  unfold fixItem, fixedItemValue, fixedCategoryValue.
  cbn [truthy typeofObject negb orb prop lookup String.eqb Ascii.eqb Bool.eqb
       name customWorkTypeName type subtype description surfaces itemMaterialCost
       itemLaborCost notes measurementType categoryKey key callTrim strictEqString].
  assert (Hty : (ty =? "")%string = false) by now apply String.eqb_neq.
  rewrite Hty. cbn [negb bind]. rewrite Htrim, Hty.
  assert (Hcustom : (if (ty =? "custom-work-type")%string
                     then if negb (truthy cw) then Ok true
                          else (n <- callTrim cw ;; Ok (n =? "")%string)
                     else Ok false) = Ok false).
  { destruct (ty =? "custom-work-type")%string; [|reflexivity].
    destruct cw as [| | | |n| |]; try discriminate.
    cbn [truthy callTrim bind].
    apply negb_true_iff in Hwell.
    rewrite (proj2 (String.eqb_neq n "") (not_blank_not_empty n Hwell)).
    cbn [negb]. now rewrite Hwell. }
  rewrite Hcustom. cbn [bind toNumber orZero].
  rewrite (orElse_kept nm _ Hname), (orElse_kept mt _ Hmt).
  rewrite (orElse_fixed cw Hcw), (orElse_fixed sub Hsub),
          (orElse_fixed desc Hdesc), (orElse_fixed nts Hnotes).
  now rewrite Hkey.
Qed.

Lemma fixItems_again (c : fixedCategory) (items : list fixedItem) :
  Forall (rebuiltFor (key c)) items -> forallb wellNamed items = true ->
  fixItems (fixedCategoryValue c) (map fixedItemValue items) = Ok items.
Proof.
  induction 1 as [|i items Hi _ IH]; cbn [forallb map fixItems]; [reflexivity|].
  intros Hw. apply andb_true_iff in Hw as [Hwi Hw].
  rewrite (fixItem_again c i Hi Hwi). cbn [bind].
  now rewrite (IH Hw).
Qed.

Lemma fixCategory_again (catIndex : nat) (c : fixedCategory) :
  keyed c -> forallb wellNamed (workItems c) = true ->
  fixCategory catIndex (fixedCategoryValue c) = Ok (inr c).
Proof.
  intros (Hkey & Hname & Hitems) Hw.
  unfold fixCategory.
  change (truthy (fixedCategoryValue c)) with true.
  change (typeofObject (fixedCategoryValue c)) with true.
  change (prop (fixedCategoryValue c) "key") with (key c).
  change (prop (fixedCategoryValue c) "name") with (categoryName c).
  change (prop (fixedCategoryValue c) "workItems")
    with (VArr (map fixedItemValue (workItems c))).
  rewrite Hkey, Hname. cbn [negb orb elementsOrEmpty truthy bind].
  rewrite (fixItems_again c (workItems c) Hitems Hw). cbn [bind].
  now destruct c.
Qed.

Lemma mapCategories_again (catIndex : nat) (out : list fixedCategory) :
  Forall keyed out -> forallb wellNamed (allWorkItems out) = true ->
  mapCategories catIndex (map fixedCategoryValue out) = Ok (map inr out).
Proof.
  intros Hall. revert catIndex.
  induction Hall as [|c out Hc _ IH]; intros catIndex Hw; cbn [map mapCategories].
  - reflexivity.
  - unfold allWorkItems in Hw. cbn [flat_map] in Hw.
    rewrite forallb_app in Hw. apply andb_true_iff in Hw as [Hwc Hw].
    rewrite (fixCategory_again catIndex c Hc Hwc). cbn [bind].
    now rewrite (IH (S catIndex) Hw).
Qed.

Lemma filterCategories_inr (out : list fixedCategory) :
  filterCategories (map inr out) = Ok out.
Proof.
  induction out as [|c out IH]; cbn [map filterCategories]; [reflexivity|].
  now rewrite IH.
Qed.

(** X14.  Sanitising is idempotent on what it returns: when every returned
    custom-type item carries a non-blank text as its name, sanitising the
    returned tree again returns the same tree. *)
Theorem sanitizer_idempotent (cats : list value) (out : list fixedCategory) :
  ensureCategoryKeys (VArr cats) = Ok out ->
  forallb wellNamed (allWorkItems out) = true ->
  ensureCategoryKeys (fixedCategoriesValue out) = Ok out.
Proof.
  intros Hfirst Hw. unfold ensureCategoryKeys, fixedCategoriesValue.
  rewrite (mapCategories_again 0 out (ensureCategoryKeys_keyed cats out Hfirst) Hw).
  cbn [bind]. apply filterCategories_inr.
Qed.

Lemma sanitizer_idempotent_witness :
  ensureCategoryKeys (fixedCategoriesValue Examples.sanitizedKitchen)
  = Ok Examples.sanitizedKitchen.
Proof.
  apply (sanitizer_idempotent
           [Examples.kitchenWith [Examples.exactCustom; Examples.flooring; VNull]]
           Examples.sanitizedKitchen); reflexivity.
Defined.

End SanitizerLaws.

(* ===================================================================== *)
(** ** Request handler: further properties                                *)
(* ===================================================================== *)

Module RequestLaws.

Import JSNumber JSValue Controller Spec Laws SanitizerFacts CalculatorLaws SanitizerLaws.


(** X15.  What the handler hands to the persistence layer is built from three
    properties of the body only: the categories are those the sanitizer
    returns for the body's categories, with at least one work item among
    them, each carrying its category's key; the totals are those the
    calculator returns for the sanitised categories and the settings; user,
    customer and settings are passed on as they came. *)
Theorem persisted_project (user body : value) (data : projectData) :
  createOrUpdate user body = Persist data ->
  userId data = user
  /\ customerInfo data = prop body "customerInfo"
  /\ settings data = orDefault (prop body "settings") (VObj [])
  /\ ensureCategoryKeys (prop body "categories") = Ok (categories data)
  /\ totalWorkItems (categories data) <> 0%nat
  /\ Forall keyed (categories data)
  /\ calculateCostsAndTotals (fixedCategoriesValue (categories data)) (settings data)
     = Ok (projectTotals data).
Proof.
  unfold createOrUpdate. rewrite getProp_nullish.
  destruct (nullish body); cbn [bind]; [discriminate|].
  destruct (logRequest (orDefault (prop body "categories") (VArr []))) as [u|e];
    cbn [bind]; [|discriminate].
  destruct (prop body "categories") as [| | | | |cats|] eqn:Hcats;
    cbn [orDefault]; try discriminate.
  destruct cats as [|c cats]; [discriminate|].
  destruct (ensureCategoryKeys (VArr (c :: cats))) as [fixed|e] eqn:Hfix; [|discriminate].
  destruct (Nat.eqb_spec (totalWorkItems fixed) 0) as [Hz|Hz]; [discriminate|].
  unfold assemble.
  destruct (calculateCostsAndTotals (fixedCategoriesValue fixed)
                                    (orDefault (prop body "settings") (VObj [])))
    as [costs|e] eqn:Hcosts; cbn [bind]; [|discriminate].
  destruct (getProp (orDefault (prop body "settings") (VObj [])) "payments");
    cbn [bind]; [|discriminate].
  intros [= <-]. cbn [userId customerInfo settings categories projectTotals].
  repeat split; try assumption; try reflexivity.
  exact (ensureCategoryKeys_keyed (c :: cats) fixed Hfix).
Qed.

Lemma persisted_project_witness :
  exists data,
    createOrUpdate (VStr "user-1") Examples.paidRequest = Persist data
    /\ ensureCategoryKeys (prop Examples.paidRequest "categories") = Ok (categories data)
    /\ calculateCostsAndTotals (fixedCategoriesValue (categories data)) (settings data)
       = Ok (projectTotals data).
Proof.
  eexists. split; [vm_compute; reflexivity|].
  refine ((fun H => conj (proj1 (proj2 (proj2 (proj2 H))))
                         (proj2 (proj2 (proj2 (proj2 (proj2 (proj2 H)))))))
            (persisted_project (VStr "user-1") Examples.paidRequest _ _)).
  vm_compute. reflexivity.
Defined.

Lemma assemble_not_noCategories (user info settings : value) (fixed : list fixedCategory) :
  match assemble user info settings fixed with
  | Ok r => r
  | Throw e => InternalError e
  end <> noCategories.
Proof.
  unfold assemble.
  destruct (calculateCostsAndTotals (fixedCategoriesValue fixed) settings);
    cbn [bind]; [|discriminate].
  destruct (getProp settings "payments"); cbn [bind]; discriminate.
Qed.

(** X16.  The handler answers 400 'Project must have at least one category'
    exactly when the body has no [categories] property or an empty array.
    Categories that are anything but an array ([null], a text, a number,
    an object) never reach that check: the debug loop raises on them and
    the answer is 500. *)
Theorem request_without_categories (user body : value) :
  nullish body = false ->
  (createOrUpdate user body = noCategories
   <-> prop body "categories" = VUndefined \/ prop body "categories" = VArr [])
  /\ (prop body "categories" <> VUndefined ->
      isArray (prop body "categories") = false ->
      createOrUpdate user body = InternalError TypeError).
Proof.
  intros Hbody. unfold createOrUpdate. rewrite getProp_nullish, Hbody. cbn [bind].
  destruct (prop body "categories") as [| |b|q|s|cats|f] eqn:Hcats; cbn [orDefault].
  - split; [split; [now left|reflexivity]|]. intros H. now elim H.
  - split; [split; [discriminate|intros [H|H]; discriminate]|reflexivity].
  - split; [split; [discriminate|intros [H|H]; discriminate]|reflexivity].
  - split; [split; [discriminate|intros [H|H]; discriminate]|reflexivity].
  - split; [split; [discriminate|intros [H|H]; discriminate]|reflexivity].
  - split; [|discriminate].
    destruct cats as [|c cats].
    + split; [now right|reflexivity].
    + split; [|intros [H|H]; discriminate].
      destruct (logRequest (VArr (c :: cats))); cbn [bind]; [|discriminate].
      destruct (ensureCategoryKeys (VArr (c :: cats))) as [fixed|e]; [|discriminate].
      destruct (totalWorkItems fixed =? 0)%nat; [discriminate|].
      intros H. now apply assemble_not_noCategories in H.
  - split; [split; [discriminate|intros [H|H]; discriminate]|reflexivity].
Qed.

Lemma request_without_categories_witness :
  (createOrUpdate (VStr "user-1") (VObj [("categories", VArr [])]) = noCategories
   <-> prop (VObj [("categories", VArr [])]) "categories" = VUndefined
       \/ prop (VObj [("categories", VArr [])]) "categories" = VArr [])
  /\ (prop (VObj [("categories", VArr [])]) "categories" <> VUndefined ->
      isArray (prop (VObj [("categories", VArr [])]) "categories") = false ->
      createOrUpdate (VStr "user-1") (VObj [("categories", VArr [])])
      = InternalError TypeError).
Proof.
  apply (request_without_categories (VStr "user-1") (VObj [("categories", VArr [])])).
  reflexivity.
Defined.





End RequestLaws.

(* ===================================================================== *)
(** ** Taxonomy: further properties                                       *)
(* ===================================================================== *)

Module TaxonomyLaws.

Import JSValue Model Spec Laws.

Lemma includes_In (l : list string) (s : string) :
  JSString.includes l s = true <-> In s l.
Proof.
  unfold JSString.includes. rewrite existsb_exists. split.
  - intros (x & Hin & Heq). apply String.eqb_eq in Heq. now subst.
  - intros Hin. exists s. split; [exact Hin|apply String.eqb_refl].
Qed.

Lemma ownEntry_In (table : list (string * list string)) (k : string) (types : list string) :
  ownEntry k table = Some types -> In (k, types) table.
Proof.
  induction table as [|[k' ts] table IH]; cbn [ownEntry]; [discriminate|].
  destruct (String.eqb_spec k k') as [->|_].
  - intros [= ->]. now left.
  - intros H. right. now apply IH.
Qed.

Lemma ownEntry_keys (table : list (string * list string)) (k : string) :
  JSString.includes (map fst table) k = true
  <-> exists types, ownEntry k table = Some types.
Proof.
  induction table as [|[k' ts] table IH]; cbn [map fst ownEntry].
  - split; [discriminate|intros [types H]; discriminate].
  - unfold JSString.includes in *. cbn [existsb].
    destruct (String.eqb_spec k k') as [->|_]; cbn [orb].
    + split; [intros _; now exists ts|reflexivity].
    + exact IH.
Qed.

(** A type the validator accepts through the table is listed there for
    the key. *)
Lemma accepted_listed (k t : string) :
  validateWorkType k t = Ok true ->
  t <> "custom-work-type" ->
  JSString.startsWith k "custom_" = false ->
  exists types, ownEntry k VALID_WORK_TYPES = Some types /\ In t types.
Proof.
  unfold validateWorkType, tableAt.
  generalize (ownEntry k VALID_WORK_TYPES) as entry.
  generalize (JSString.includes objectPrototypeKeys k) as inherited.
  intros inherited entry H Ht Hk. rewrite Hk in H.
  destruct ((k =? "") || (t =? ""))%bool; [discriminate|].
  destruct (String.eqb_spec t "custom-work-type") as [->|_]; [now elim Ht|].
  destruct entry as [types|].
  - injection H as H. exists types. split; [reflexivity|now apply includes_In].
  - destruct inherited; discriminate.
Qed.

Lemma table_prefixed : prefixedByKey VALID_WORK_TYPES = true.
Proof. vm_compute. reflexivity. Qed.

Lemma table_disjoint : pairwiseDisjoint VALID_WORK_TYPES = true.
Proof. vm_compute. reflexivity. Qed.

(** X18.  A type other than the custom-type marker that the validator accepts
    for a key without the custom-category prefix starts with that key and
    a hyphen, and no other such key accepts it: a taxonomy type identifies
    its category. *)
Theorem taxonomy_type_identifies_category :
  (forall k t : string,
      validateWorkType k t = Ok true ->
      t <> "custom-work-type" ->
      JSString.startsWith k "custom_" = false ->
      JSString.startsWith t (k ++ "-") = true)
  /\ (forall k k' t : string,
        validateWorkType k t = Ok true ->
        validateWorkType k' t = Ok true ->
        t <> "custom-work-type" ->
        JSString.startsWith k "custom_" = false ->
        JSString.startsWith k' "custom_" = false ->
        k = k').
Proof.
  split.
  - intros k t Hv Ht Hk.
    destruct (accepted_listed k t Hv Ht Hk) as (types & Hown & Hin).
    pose proof table_prefixed as H. unfold prefixedByKey in H.
    rewrite forallb_forall in H. specialize (H (k, types) (ownEntry_In _ _ _ Hown)).
    cbn [fst snd] in H. rewrite forallb_forall in H. now apply H.
  - intros k k' t Hv Hv' Ht Hk Hk'.
    destruct (accepted_listed k t Hv Ht Hk) as (types & Hown & Hin).
    destruct (accepted_listed k' t Hv' Ht Hk') as (types' & Hown' & Hin').
    pose proof table_disjoint as H. unfold pairwiseDisjoint in H.
    rewrite forallb_forall in H. specialize (H (k, types) (ownEntry_In _ _ _ Hown)).
    rewrite forallb_forall in H. specialize (H (k', types') (ownEntry_In _ _ _ Hown')).
    cbn [fst snd] in H. apply orb_true_iff in H as [H|H].
    + now apply String.eqb_eq.
    + rewrite forallb_forall in H. specialize (H t Hin).
      apply includes_In in Hin'. rewrite Hin' in H. discriminate.
Qed.

Lemma taxonomy_type_identifies_category_witness :
  JSString.startsWith "kitchen-flooring" ("kitchen" ++ "-") = true.
Proof.
  apply (proj1 taxonomy_type_identifies_category "kitchen" "kitchen-flooring").
  - reflexivity.
  - discriminate.
  - reflexivity.
Defined.

(** X19.  For a category key that the key validator accepts, the type
    validator always returns; it raises only for a key that names a member
    of [Object.prototype], which the key validator rejects.  Conversely a
    key for which the type validator accepts a type other than the
    custom-type marker is a key the key validator accepts. *)
Theorem valid_key_guards_type_validator :
  (forall k t : string,
      validateCategoryKey (Some k) = true -> exists b, validateWorkType k t = Ok b)
  /\ (forall (k t : string) (e : exn),
        validateWorkType k t = Throw e ->
        In k objectPrototypeKeys /\ validateCategoryKey (Some k) = false)
  /\ (forall k t : string,
        validateWorkType k t = Ok true ->
        t <> "custom-work-type" ->
        validateCategoryKey (Some k) = true).
Proof.
  assert (Hkeys : forall k, JSString.includes tableKeys k = true
                            <-> exists types, ownEntry k VALID_WORK_TYPES = Some types).
  { intros k. unfold tableKeys. apply ownEntry_keys. }
  assert (Hraise : forall k t e,
             validateWorkType k t = Throw e ->
             (k =? "") = false /\ JSString.startsWith k "custom_" = false
             /\ ownEntry k VALID_WORK_TYPES = None /\ In k objectPrototypeKeys).
  { intros k t e. unfold validateWorkType, tableAt.
    destruct (k =? ""); cbn [orb]; [discriminate|].
    destruct (t =? ""); [discriminate|].
    destruct (t =? "custom-work-type"); [discriminate|].
    destruct (JSString.startsWith k "custom_"); [discriminate|].
    destruct (ownEntry k VALID_WORK_TYPES); [discriminate|].
    destruct (JSString.includes objectPrototypeKeys k) eqn:Hin; [|discriminate].
    intros _. repeat split. now apply includes_In. }
  split; [|split].
  - intros k t Hk.
    destruct (validateWorkType k t) as [b|e] eqn:Hv; [now exists b|].
    destruct (Hraise k t e Hv) as (Hne & Hcustom & Hown & _).
    unfold validateCategoryKey in Hk. rewrite Hne, Hcustom in Hk. cbn [orb] in Hk.
    apply Hkeys in Hk as [types Hk]. congruence.
  - intros k t e Hv.
    destruct (Hraise k t e Hv) as (Hne & Hcustom & Hown & Hin).
    split; [exact Hin|].
    unfold validateCategoryKey. rewrite Hne, Hcustom. cbn [orb].
    destruct (JSString.includes tableKeys k) eqn:Hk; [|reflexivity].
    apply Hkeys in Hk as [types Hk]. congruence.
  - intros k t Hv Ht.
    unfold validateCategoryKey.
    destruct (String.eqb_spec k "") as [->|_]; [discriminate|].
    destruct (JSString.startsWith k "custom_") eqn:Hcustom; [reflexivity|].
    destruct (accepted_listed k t Hv Ht Hcustom) as (types & Hown & _).
    cbn [orb]. apply Hkeys. now exists types.
Qed.

End TaxonomyLaws.

(* ===================================================================== *)
(** ** Measurement types and the pre-validate hook: further properties    *)
(* ===================================================================== *)

Module HookLaws.

Import JSValue Model Spec Laws StringFacts EnforcerFacts.






#[local] Arguments JSString.includes : simpl never.



Lemma in_option_map {A B : Type} (f : A -> B) (l : list (option A)) (y : B) :
  In (Some y) (map (option_map f) l) -> exists x, In (Some x) l /\ y = f x.
Proof.
  intros H. apply in_map_iff in H as ([x|] & Heq & Hin); [|discriminate].
  injection Heq as <-. now exists x.
Qed.

(** A work item of the document after the hook is the image of a work
    item of the document before it. *)
Lemma preValidate_member (this : Project) (category : Category) (item : WorkItem) :
  In (Some category) (categories (preValidate this)) ->
  In (Some item) (c_workItems category) ->
  exists category0 item0,
    In (Some category0) (categories this)
    /\ In (Some item0) (c_workItems category0)
    /\ c_key category = c_key category0
    /\ item = enforceItem (c_key category0) item0.
Proof.
  intros Hc Hi. cbn [preValidate categories] in Hc.
  apply in_option_map in Hc as (category0 & Hc & ->).
  cbn [enforceCategory c_workItems] in Hi.
  apply in_option_map in Hi as (item0 & Hi & ->).
  now exists category0, item0.
Qed.

#[local] Arguments normalizeToCanonicalMeasurementType : simpl never.

(** X21.  After the hook every work item carries the key of the category that
    holds it and a canonical measurement type, and so does each of its
    surfaces. *)
Theorem preValidate_establishes (this : Project) (category : Category) (item : WorkItem) :
  In (Some category) (categories (preValidate this)) ->
  In (Some item) (c_workItems category) ->
  wi_categoryKey item = c_key category
  /\ canonicalType (wi_measurementType item)
  /\ (forall surface, In (Some surface) (wi_surfaces item) ->
                      canonicalType (s_measurementType surface)).
Proof.
  intros Hc Hi.
  destruct (preValidate_member this category item Hc Hi)
    as (category0 & item0 & _ & _ & Hkey & ->).
  assert (Hcanon : forall type,
             canonicalType (Some (normalizeToCanonicalMeasurementType type))).
  { intros type. unfold canonicalType.
    destruct (normalize_range type) as [-> | [-> | ->]]; auto. }
  split; [now rewrite Hkey|]. split; [apply Hcanon|].
  intros surface Hs. cbn [enforceItem wi_surfaces] in Hs.
  apply in_option_map in Hs as (surface0 & _ & ->). apply Hcanon.
Qed.

Lemma preValidate_establishes_witness :
  wi_categoryKey (enforceItem (Some "kitchen") Samples.aliasItem) = Some "kitchen"
  /\ canonicalType (wi_measurementType (enforceItem (Some "kitchen") Samples.aliasItem))
  /\ (forall surface,
         In (Some surface) (wi_surfaces (enforceItem (Some "kitchen") Samples.aliasItem)) ->
         canonicalType (s_measurementType surface)).
Proof.
  apply (preValidate_establishes
           (Examples.projectWith "p3" [Samples.aliasItem])
           {| c_name := Some "Kitchen"; c_key := Some "kitchen";
              c_workItems := [Some (enforceItem (Some "kitchen") Samples.aliasItem)] |}
           (enforceItem (Some "kitchen") Samples.aliasItem)).
  - left. reflexivity.
  - left. reflexivity.
Defined.

(** X22.  After the hook the type validator judges every work item by the key
    of the category that holds it, whatever category key the item arrived
    with: it accepts exactly when [validateWorkType] returns [true] for
    that key, and a raise inside it counts as a rejection.  Without any
    key at hand the validator accepts every type. *)
Theorem type_judged_by_own_category :
  (forall (this : Project) (category : Category) (item : WorkItem) (k v : string),
      In (Some category) (categories (preValidate this)) ->
      In (Some item) (c_workItems category) ->
      c_key category = Some k ->
      k <> "" ->
      workTypeValidator (wi_categoryKey item) (c_key category) v = true
      <-> validateWorkType k v = Ok true)
  /\ (forall (thisKey parentKey : option string) (v : string),
        present thisKey = false -> present parentKey = false ->
        workTypeValidator thisKey parentKey v = true).
Proof.
  split.
  - intros this category item k v Hc Hi Hk Hne.
    destruct (preValidate_member this category item Hc Hi)
      as (category0 & item0 & _ & _ & Hkey & ->).
    cbn [enforceItem wi_categoryKey]. rewrite <- Hkey, Hk.
    unfold workTypeValidator. cbn [present].
    rewrite (proj2 (String.eqb_neq k "") Hne). cbn [negb].
    rewrite (proj2 (String.eqb_neq k "") Hne).
    destruct (validateWorkType k v) as [[|]|e]; split; congruence.
  - intros thisKey parentKey v Hthis Hparent. unfold workTypeValidator.
    rewrite Hthis, Hparent.
    destruct thisKey as [k|]; [|reflexivity].
    cbn [present] in Hthis. apply negb_false_iff in Hthis. now rewrite Hthis.
Qed.

Lemma type_judged_by_own_category_witness :
  workTypeValidator (wi_categoryKey (enforceItem (Some "kitchen") Samples.aliasItem))
                    (Some "kitchen") "bathroom-tiles" = true
  <-> validateWorkType "kitchen" "bathroom-tiles" = Ok true.
Proof.
  apply (proj1 type_judged_by_own_category
           (Examples.projectWith "p3" [Samples.aliasItem])
           {| c_name := Some "Kitchen"; c_key := Some "kitchen";
              c_workItems := [Some (enforceItem (Some "kitchen") Samples.aliasItem)] |}
           (enforceItem (Some "kitchen") Samples.aliasItem)
           "kitchen" "bathroom-tiles").
  - left. reflexivity.
  - left. reflexivity.
  - reflexivity.
  - discriminate.
Defined.





End HookLaws.

(* ===================================================================== *)
(** ** Repair and the custom-name validator: further properties           *)
(* ===================================================================== *)

Module RepairLaws.

Import JSValue Model Spec Laws RepairFacts.

Lemma length_positive (s : string) : (0 <? String.length s)%nat = negb (s =? "").
Proof. now destruct s. Qed.

Lemma validator_corrupted (item : WorkItem) :
  customWorkTypeNameValidator (wi_type item) (wi_customWorkTypeName item)
  = negb (corrupted item).
Proof.
  unfold customWorkTypeNameValidator, corrupted.
  destruct (isMarker (wi_type item)); cbn [andb negb]; [|reflexivity].
  destruct (wi_customWorkTypeName item) as [n|]; [|reflexivity].
  now rewrite length_positive, negb_orb.
Qed.

Lemma corrupted_repairItem (item : WorkItem) : corrupted (repairItem item) = false.
Proof.
  unfold repairItem. destruct (corrupted item) eqn:Hc; [|exact Hc].
  unfold corrupted. cbn [wi_type wi_customWorkTypeName].
  now rewrite andb_false_r.
Qed.

Lemma repairItem_sound (item : WorkItem) : corrupted item = false -> repairItem item = item.
Proof. unfold repairItem. now intros ->. Qed.

(** X24.  The custom-name validator of the schema rejects exactly the work
    items the repair rewrites; it accepts every repaired work item, and the
    pre-validate hook does not change its verdict. *)
Theorem name_validator_rejects_corrupted :
  (forall item : WorkItem,
      customWorkTypeNameValidator (wi_type item) (wi_customWorkTypeName item)
      = negb (corrupted item))
  /\ (forall item : WorkItem,
        customWorkTypeNameValidator (wi_type (repairItem item))
                                    (wi_customWorkTypeName (repairItem item)) = true)
  /\ (forall (k : option string) (item : WorkItem),
        customWorkTypeNameValidator (wi_type (enforceItem k item))
                                    (wi_customWorkTypeName (enforceItem k item))
        = customWorkTypeNameValidator (wi_type item) (wi_customWorkTypeName item)).
Proof.
  split; [exact validator_corrupted|]. split.
  - intros item. now rewrite validator_corrupted, corrupted_repairItem.
  - reflexivity.
Qed.

Lemma keptByRepair_repairItem (item : WorkItem) :
  keptByRepair (repairItem item) = keptByRepair item.
Proof. unfold repairItem. now destruct (corrupted item). Qed.

Lemma repairItems_sound (items after : list (option WorkItem)) :
  repairItems items = Ok (after, false) -> after = items.
Proof.
  revert after. induction items as [|[item|] items IH]; intros after;
    cbn [repairItems]; [now intros [= <-]| |discriminate].
  destruct (repairItems items) as [[rest b]|e]; cbn [bind fst snd]; [|discriminate].
  intros [= <- Hflag]. apply orb_false_elim in Hflag as [Hc ->].
  now rewrite (repairItem_sound item Hc), (IH rest eq_refl).
Qed.

Lemma repairItems_again (items after : list (option WorkItem)) (flag : bool) :
  repairItems items = Ok (after, flag) -> repairItems after = Ok (after, false).
Proof.
  revert after flag. induction items as [|[item|] items IH]; intros after flag;
    cbn [repairItems]; [now intros [= <- _]| |discriminate].
  destruct (repairItems items) as [[rest b]|e]; cbn [bind fst snd]; [|discriminate].
  intros [= <- _]. cbn [repairItems].
  rewrite (IH rest b eq_refl). cbn [bind fst snd].
  now rewrite corrupted_repairItem, (repairItem_sound _ (corrupted_repairItem item)).
Qed.

Lemma repairCategories_sound (cats after : list (option Category)) :
  repairCategories cats = Ok (after, false) -> after = cats.
Proof.
  revert after. induction cats as [|[category|] cats IH]; intros after;
    cbn [repairCategories]; [now intros [= <-]| |discriminate].
  destruct (repairItems (c_workItems category)) as [[items b]|e] eqn:Hi;
    cbn [bind]; [|discriminate].
  destruct (repairCategories cats) as [[rest b']|e]; cbn [bind fst snd]; [|discriminate].
  intros [= <- Hflag]. apply orb_false_elim in Hflag as [-> ->].
  rewrite (repairItems_sound _ _ Hi), (IH rest eq_refl). now destruct category.
Qed.

Lemma repairCategories_again (cats after : list (option Category)) (flag : bool) :
  repairCategories cats = Ok (after, flag) -> repairCategories after = Ok (after, false).
Proof.
  revert after flag. induction cats as [|[category|] cats IH]; intros after flag;
    cbn [repairCategories]; [now intros [= <- _]| |discriminate].
  destruct (repairItems (c_workItems category)) as [[items b]|e] eqn:Hi;
    cbn [bind]; [|discriminate].
  destruct (repairCategories cats) as [[rest b']|e]; cbn [bind fst snd]; [|discriminate].
  intros [= <- _]. cbn [repairCategories c_workItems].
  rewrite (repairItems_again _ _ _ Hi). cbn [bind].
  now rewrite (IH rest b' eq_refl).
Qed.

Lemma repairProject_sound (project repaired : Project) :
  repairProject project = Ok (repaired, false) -> repaired = project.
Proof.
  unfold repairProject.
  destruct (repairCategories (categories project)) as [[after flag]|e] eqn:Hc;
    cbn [bind fst snd]; [|discriminate].
  intros [= <- ->]. rewrite (repairCategories_sound _ _ Hc). now destruct project.
Qed.

Lemma repairProject_again (project repaired : Project) (flag : bool) :
  repairProject project = Ok (repaired, flag) -> repairProject repaired = Ok (repaired, false).
Proof.
  unfold repairProject.
  destruct (repairCategories (categories project)) as [[after b]|e] eqn:Hc;
    cbn [bind fst snd]; [|discriminate].
  intros [= <- _]. cbn [categories].
  now rewrite (repairCategories_again _ _ _ Hc).
Qed.

Lemma keptByRepair_items (items after : list (option WorkItem)) (flag : bool) :
  repairItems items = Ok (after, flag) ->
  map (option_map keptByRepair) after = map (option_map keptByRepair) items.
Proof.
  revert after flag. induction items as [|[item|] items IH]; intros after flag;
    cbn [repairItems]; [now intros [= <- _]| |discriminate].
  destruct (repairItems items) as [[rest b]|e]; cbn [bind fst snd]; [|discriminate].
  intros [= <- _]. cbn [map option_map].
  now rewrite keptByRepair_repairItem, (IH rest b eq_refl).
Qed.

(** What the repair leaves alone, category by category. *)
Lemma keptByRepair_categories (cats after : list (option Category)) (flag : bool) :
  repairCategories cats = Ok (after, flag) ->
  map (option_map (fun c => (c_name c, c_key c,
                             map (option_map keptByRepair) (c_workItems c)))) after
  = map (option_map (fun c => (c_name c, c_key c,
                               map (option_map keptByRepair) (c_workItems c)))) cats.
Proof.
  revert after flag. induction cats as [|[category|] cats IH]; intros after flag;
    cbn [repairCategories]; [now intros [= <- _]| |discriminate].
  destruct (repairItems (c_workItems category)) as [[items b]|e] eqn:Hi;
    cbn [bind]; [|discriminate].
  destruct (repairCategories cats) as [[rest b']|e]; cbn [bind fst snd]; [|discriminate].
  intros [= <- _]. cbn [map option_map c_name c_key c_workItems].
  now rewrite (keptByRepair_items _ _ _ Hi), (IH rest b' eq_refl).
Qed.

(** X25.  The repair changes custom names only.  When its loops return, the
    document they leave has the categories and work items of the document
    they started from, in the same places and equal in every field but the
    custom name; the flag is raised exactly when some work item is a
    custom-type item with a blank name; and a document for which it is not
    raised is left exactly as it was. *)
Theorem repair_touches_only_names (project repaired : Project) (flag : bool) :
  repairProject project = Ok (repaired, flag) ->
  map (option_map (fun c => (c_name c, c_key c,
                             map (option_map keptByRepair) (c_workItems c))))
      (categories repaired)
  = map (option_map (fun c => (c_name c, c_key c,
                               map (option_map keptByRepair) (c_workItems c))))
        (categories project)
  /\ (_id repaired, userId repaired, customerInfo repaired, settings repaired,
      totals repaired, paymentDetails repaired)
     = (_id project, userId project, customerInfo project, settings project,
        totals project, paymentDetails project)
  /\ flag = needsRepair project
  /\ (flag = false -> repaired = project).
Proof.
  intros H.
  destruct (repairProject_spec project repaired flag H) as (_ & Hflag & _ & _).
  split; [|split; [|split]].
  - unfold repairProject in H.
    destruct (repairCategories (categories project)) as [[after b]|e] eqn:Hc;
      cbn [bind fst snd] in H; [|discriminate].
    injection H as <- _. cbn [categories].
    exact (keptByRepair_categories _ _ _ Hc).
  - unfold repairProject in H.
    destruct (repairCategories (categories project)) as [[after b]|e];
      cbn [bind fst snd] in H; [|discriminate].
    now injection H as <- _.
  - exact Hflag.
  - intros ->. now apply repairProject_sound.
Qed.

Lemma repair_touches_only_names_witness :
  needsRepair (Examples.projectWith "p2" [Examples.unnamedCustomItem]) = true.
Proof.
  symmetry.
  apply (fun H => proj1 (proj2 (proj2 (repair_touches_only_names
                                          (Examples.projectWith "p2" [Examples.unnamedCustomItem])
                                          (Examples.projectWith "p2"
                                             [repairItem Examples.unnamedCustomItem])
                                          true H)))).
  reflexivity.
Defined.

Lemma repairProject_document (project repaired : Project) (flag : bool) :
  repairProject project = Ok (repaired, flag) ->
  repaired = repairedDocument project /\ flag = needsRepair project.
Proof.
  intros H. split.
  - unfold repairedDocument. now rewrite H.
  - now destruct (repairProject_spec project repaired flag H) as (_ & Hflag & _).
Qed.

(** A scan that returns has repaired every project. *)
Lemma scan_returns (save : Project -> bool) (projects stored : list Project)
      (ids : list string) :
  validateAndRepairProjects save projects = (stored, Ok ids) ->
  Forall (fun p => exists repaired flag, repairProject p = Ok (repaired, flag)) projects.
Proof.
  revert stored ids. induction projects as [|p ps IH]; intros stored ids;
    cbn [validateAndRepairProjects]; [constructor|].
  destruct (repairProject p) as [[repaired flag]|e] eqn:Hr; [|discriminate].
  destruct (validateAndRepairProjects save ps) as [rest outcome] eqn:Hrest.
  intros H. constructor; [now exists repaired, flag|].
  destruct outcome as [tail|e].
  - exact (IH rest tail eq_refl).
  - destruct (flag && save repaired); discriminate.
Qed.

Lemma repair_scan_report_aux (save : Project -> bool) (projects stored : list Project)
      (ids : list string) :
  validateAndRepairProjects save projects = (stored, Ok ids) ->
  stored = map (fun p => if needsRepair p && save (repairedDocument p)
                         then repairedDocument p else p) projects
  /\ ids = map _id (filter (fun p => needsRepair p && save (repairedDocument p)) projects).
Proof.
  revert stored ids. induction projects as [|p ps IH]; intros stored ids;
    cbn [validateAndRepairProjects].
  - intros [= <- <-]. now split.
  - destruct (repairProject p) as [[repaired flag]|e] eqn:Hr; [|discriminate].
    destruct (validateAndRepairProjects save ps) as [rest outcome] eqn:Hrest.
    destruct (repairProject_document p repaired flag Hr) as [-> ->].
    destruct (repairProject_spec p _ _ Hr) as (_ & _ & _ & Hid).
    cbn [map filter].
    destruct (needsRepair p && save (repairedDocument p)).
    + destruct outcome as [tail|e]; cbn [bind]; [|discriminate].
      intros [= <- <-]. destruct (IH rest tail eq_refl) as [Hs Hi].
      cbn [map]. now rewrite Hid, <- Hs, <- Hi.
    + intros [= <- ->]. destruct (IH rest ids eq_refl) as [Hs Hi].
      now rewrite <- Hs, <- Hi.
Qed.

(** X26.  The scan, when it returns: it stores the repaired document of every
    project that holds a custom-type item with a blank name and whose save
    succeeds, leaves every other project as it was, and reports the
    identifiers of the projects it stored, in the order of the scan. *)
Theorem repair_scan_report (save : Project -> bool) (projects stored : list Project)
        (ids : list string) :
  validateAndRepairProjects save projects = (stored, Ok ids) ->
  stored = map (fun p => if needsRepair p && save (repairedDocument p)
                         then repairedDocument p else p) projects
  /\ ids = map _id (filter (fun p => needsRepair p && save (repairedDocument p)) projects)
  /\ (List.length ids <= List.length projects)%nat.
Proof.
  intros H. destruct (repair_scan_report_aux save projects stored ids H) as [Hs Hi].
  split; [exact Hs|]. split; [exact Hi|].
  rewrite Hi, length_map. apply filter_length_le.
Qed.

Lemma repair_scan_report_witness :
  [ Examples.projectWith "p2" [repairItem Examples.unnamedCustomItem];
    Examples.projectWith "p1" [Examples.heatedFloor] ]
  = map (fun p => if needsRepair p && (fun _ => true) (repairedDocument p)
                  then repairedDocument p else p)
        [ Examples.projectWith "p2" [Examples.unnamedCustomItem];
          Examples.projectWith "p1" [Examples.heatedFloor] ]
  /\ ["p2"%string]
     = map _id (filter (fun p => needsRepair p && (fun _ => true) (repairedDocument p))
                       [ Examples.projectWith "p2" [Examples.unnamedCustomItem];
                         Examples.projectWith "p1" [Examples.heatedFloor] ])
  /\ (List.length ["p2"%string]
      <= List.length [ Examples.projectWith "p2" [Examples.unnamedCustomItem];
                       Examples.projectWith "p1" [Examples.heatedFloor] ])%nat.
Proof.
  apply (repair_scan_report (fun _ => true)
           [ Examples.projectWith "p2" [Examples.unnamedCustomItem];
             Examples.projectWith "p1" [Examples.heatedFloor] ]).
  reflexivity.
Defined.

Lemma scan_of_sound (save : Project -> bool) (projects : list Project) :
  Forall (fun p => repairProject p = Ok (p, false)) projects ->
  validateAndRepairProjects save projects = (projects, Ok []).
Proof.
  induction 1 as [|p ps Hp _ IH]; cbn [validateAndRepairProjects]; [reflexivity|].
  now rewrite Hp, IH.
Qed.

(** X27.  A second scan finds nothing to repair: after a scan that returned and
    whose saves all succeeded, a scan of the stored projects changes none
    of them and reports none, whether its own saves would succeed or not. *)
Theorem repair_scan_idempotent (save save' : Project -> bool)
        (projects stored : list Project) (ids : list string) :
  validateAndRepairProjects save projects = (stored, Ok ids) ->
  (forall p, In p projects -> save (repairedDocument p) = true) ->
  validateAndRepairProjects save' stored = (stored, Ok []).
Proof.
  intros Hscan Hsave.
  destruct (repair_scan_report_aux save projects stored ids Hscan) as [-> _].
  apply scan_of_sound.
  pose proof (scan_returns save projects _ ids Hscan) as Hall.
  apply Forall_map. rewrite Forall_forall in *. intros p Hin.
  destruct (Hall p Hin) as (repaired & flag & Hr).
  destruct (repairProject_document p repaired flag Hr) as [-> ->].
  rewrite (Hsave p Hin), andb_true_r.
  destruct (needsRepair p) eqn:Hn.
  - exact (repairProject_again p _ _ Hr).
  - pose proof (repairProject_sound p _ Hr) as Hsame. now rewrite Hsame in Hr.
Qed.

Lemma repair_scan_idempotent_witness :
  validateAndRepairProjects
    (fun _ => false)
    [ Examples.projectWith "p2" [repairItem Examples.unnamedCustomItem];
      Examples.projectWith "p1" [Examples.heatedFloor] ]
  = ([ Examples.projectWith "p2" [repairItem Examples.unnamedCustomItem];
       Examples.projectWith "p1" [Examples.heatedFloor] ],
     Ok []).
Proof.
  apply (repair_scan_idempotent
           (fun _ => true) (fun _ => false)
           [ Examples.projectWith "p2" [Examples.unnamedCustomItem];
             Examples.projectWith "p1" [Examples.heatedFloor] ]
           [ Examples.projectWith "p2" [repairItem Examples.unnamedCustomItem];
             Examples.projectWith "p1" [Examples.heatedFloor] ]
           ["p2"%string]).
  - reflexivity.
  - intros p _. reflexivity.
Defined.

End RepairLaws.

(* ===================================================================== *)
(** ** Patterns of the customer schema                                    *)
(* ===================================================================== *)

Module PatternFacts.

Import Pattern.

Lemma append_assoc (s1 s2 s3 : string) : (s1 ++ s2) ++ s3 = s1 ++ (s2 ++ s3).
Proof. induction s1 as [|c s1 IH]; cbn [append]; [reflexivity|now rewrite IH]. Qed.

Lemma append_length (s1 s2 : string) :
  String.length (s1 ++ s2) = (String.length s1 + String.length s2)%nat.
Proof. induction s1 as [|c s1 IH]; cbn [append String.length]; [reflexivity|now rewrite IH]. Qed.

Lemma append_empty (s1 s2 : string) : s1 ++ s2 = "" -> s1 = "" /\ s2 = "".
Proof. destruct s1; cbn [append]; [now intros ->|discriminate]. Qed.

Lemma append_cons (s1 s2 s : string) (c : ascii) :
  s1 ++ s2 = String c s ->
  (s1 = "" /\ s2 = String c s) \/ (exists s1', s1 = String c s1' /\ s = s1' ++ s2).
Proof.
  destruct s1 as [|d s1]; cbn [append].
  - intros ->. now left.
  - intros [= -> <-]. right. now exists s1.
Qed.

Lemma allOf_append (member : ascii -> bool) (s1 s2 : string) :
  allOf member (s1 ++ s2) = allOf member s1 && allOf member s2.
Proof.
  induction s1 as [|c s1 IH]; cbn [append allOf]; [reflexivity|].
  now rewrite IH, andb_assoc.
Qed.

(** *** The matcher decides the language *)

Lemma nullable_Lang (r : regex) : nullable r = true <-> Lang r "".
Proof.
  split.
  - induction r as [| |m|r1 IH1 r2 IH2|r1 IH1 r2 IH2|r IH]; cbn [nullable];
      try discriminate.
    + intros _. constructor.
    + intros H. apply andb_true_iff in H as [H1 H2].
      change "" with ("" ++ ""). constructor; auto.
    + intros H. apply orb_true_iff in H as [H|H].
      * apply LangAltL. auto.
      * apply LangAltR. auto.
    + intros _. constructor.
  - intros H. remember "" as s eqn:Hs.
    induction H as [|m c Hm|r1 r2 s1 s2 _ IH1 _ IH2|r1 r2 s _ IH|r1 r2 s _ IH
                   |r|r s1 s2 _ _ _ _]; cbn [nullable]; try reflexivity.
    + discriminate.
    + apply append_empty in Hs as [-> ->]. now rewrite IH1, IH2.
    + now rewrite IH.
    + rewrite IH by exact Hs. apply orb_true_r.
Qed.

Lemma derive_sound (c : ascii) (r : regex) (s : string) :
  Lang (derive c r) s -> Lang r (String c s).
Proof.
  revert s. induction r as [| |m|r1 IH1 r2 IH2|r1 IH1 r2 IH2|r IH]; intros s;
    cbn [derive].
  - inversion 1.
  - inversion 1.
  - destruct (m c) eqn:Hm; inversion 1; subst. now constructor.
  - destruct (nullable r1) eqn:Hn.
    + inversion 1 as [| | |? ? ? Hl|? ? ? Hr| |]; subst.
      * inversion Hl as [| |? ? s1 s2 H1 H2| | | |]; subst.
        change (String c (s1 ++ s2)) with (String c s1 ++ s2). constructor; auto.
      * change (String c s) with ("" ++ String c s).
        constructor; [now apply nullable_Lang|auto].
    + inversion 1 as [| |? ? s1 s2 H1 H2| | | |]; subst.
      change (String c (s1 ++ s2)) with (String c s1 ++ s2). constructor; auto.
  - inversion 1; subst; [apply LangAltL|apply LangAltR]; auto.
  - inversion 1 as [| |? ? s1 s2 H1 H2| | | |]; subst.
    change (String c (s1 ++ s2)) with (String c s1 ++ s2). constructor; auto.
Qed.

Lemma derive_complete (c : ascii) (r : regex) (s : string) :
  Lang r (String c s) -> Lang (derive c r) s.
Proof.
  intros H. remember (String c s) as t eqn:Ht. revert c s Ht.
  induction H as [|m d Hm|r1 r2 s1 s2 H1 IH1 H2 IH2|r1 r2 t H IH|r1 r2 t H IH
                 |r|r s1 s2 H1 IH1 H2 IH2]; intros c s Ht; cbn [derive].
  - discriminate.
  - injection Ht as -> <-. rewrite Hm. constructor.
  - apply append_cons in Ht as [[-> ->]|(s1' & -> & ->)].
    + apply nullable_Lang in H1. rewrite H1. apply LangAltR. now apply IH2.
    + destruct (nullable r1).
      * apply LangAltL. constructor; [now apply IH1|exact H2].
      * constructor; [now apply IH1|exact H2].
  - apply LangAltL. now apply IH.
  - apply LangAltR. now apply IH.
  - discriminate.
  - apply append_cons in Ht as [[-> ->]|(s1' & -> & ->)].
    + now apply IH2.
    + constructor; [now apply IH1|exact H2].
Qed.

Lemma test_Lang (r : regex) (s : string) : test r s = true <-> Lang r s.
Proof.
  revert r. induction s as [|c s IH]; intros r; cbn [test].
  - apply nullable_Lang.
  - rewrite IH. split; [apply derive_sound|apply derive_complete].
Qed.

(** *** Languages of the building blocks *)

Lemma Lang_Class (member : ascii -> bool) (s : string) :
  Lang (Class member) s <-> exists c, s = String c "" /\ member c = true.
Proof.
  split.
  - inversion 1; subst. eexists. now split.
  - intros (c & -> & Hc). now constructor.
Qed.

Lemma Lang_Star_Class (member : ascii -> bool) (s : string) :
  Lang (Star (Class member)) s <-> allOf member s = true.
Proof.
  split.
  - intros H. remember (Star (Class member)) as r eqn:Hr.
    induction H as [| | | | |r0|r0 s1 s2 H1 _ H2 IH2]; try discriminate.
    + reflexivity.
    + injection Hr as ->. apply Lang_Class in H1 as (c & -> & Hc).
      cbn [append allOf]. now rewrite Hc, IH2.
  - induction s as [|c s IH]; cbn [allOf]; intros H.
    + constructor.
    + apply andb_true_iff in H as [Hc Hs].
      change (String c s) with (String c "" ++ s).
      constructor; [now constructor|now apply IH].
Qed.

Lemma Lang_plus_Class (member : ascii -> bool) (s : string) :
  Lang (plus (Class member)) s <-> s <> "" /\ allOf member s = true.
Proof.
  unfold plus. split.
  - inversion 1 as [| |? ? s1 s2 H1 H2| | | |]; subst.
    apply Lang_Class in H1 as (c & -> & Hc). apply Lang_Star_Class in H2.
    cbn [append allOf]. rewrite Hc, H2. now split.
  - intros [Hne H]. destruct s as [|c s]; [now elim Hne|].
    cbn [allOf] in H. apply andb_true_iff in H as [Hc Hs].
    change (String c s) with (String c "" ++ s).
    constructor; [now constructor|now apply Lang_Star_Class].
Qed.

Lemma Lang_times_Class (member : ascii -> bool) (n : nat) (s : string) :
  Lang (times n (Class member)) s <-> String.length s = n /\ allOf member s = true.
Proof.
  revert s. induction n as [|n IH]; intros s; cbn [times].
  - split.
    + inversion 1. now split.
    + intros [Hlen _]. destruct s; [constructor|discriminate].
  - split.
    + inversion 1 as [| |? ? s1 s2 H1 H2| | | |]; subst.
      apply Lang_Class in H1 as (c & -> & Hc). apply IH in H2 as [Hlen Hall].
      cbn [append allOf String.length]. rewrite Hc, Hall, Hlen. now split.
    + intros [Hlen H]. destruct s as [|c s]; [discriminate|].
      cbn [allOf] in H. apply andb_true_iff in H as [Hc Hs].
      injection Hlen as Hlen.
      change (String c s) with (String c "" ++ s).
      constructor; [now constructor|now apply IH].
Qed.

Lemma Lang_optional_Class (member : ascii -> bool) (n : nat) (s : string) :
  Lang (times n (optional (Class member))) s
  <-> (String.length s <= n)%nat /\ allOf member s = true.
Proof.
  revert s. induction n as [|n IH]; intros s; cbn [times].
  - split.
    + inversion 1. now split.
    + intros [Hlen _]. destruct s; [constructor|cbn in Hlen; lia].
  - split.
    + inversion 1 as [| |? ? s1 s2 H1 H2| | | |]; subst.
      apply IH in H2 as [Hlen Hall].
      inversion H1 as [| | |? ? ? He|? ? ? Hc| |]; subst.
      * inversion He; subst. cbn [append]. split; [lia|exact Hall].
      * apply Lang_Class in Hc as (c & -> & Hc).
        cbn [append allOf String.length]. rewrite Hc, Hall. split; [lia|reflexivity].
    + intros [Hlen H]. destruct s as [|c s].
      * change "" with ("" ++ ""). constructor.
        -- apply LangAltL. constructor.
        -- apply IH. split; [cbn; lia|reflexivity].
      * cbn [allOf] in H. apply andb_true_iff in H as [Hc Hs].
        cbn [String.length] in Hlen.
        change (String c s) with (String c "" ++ s). constructor.
        -- apply LangAltR. now constructor.
        -- apply IH. split; [lia|exact Hs].
Qed.

Lemma Lang_between_Class (member : ascii -> bool) (lo hi : nat) (s : string) :
  (lo <= hi)%nat ->
  Lang (between lo hi (Class member)) s
  <-> (lo <= String.length s <= hi)%nat /\ allOf member s = true.
Proof.
  intros Hle. unfold between. split.
  - inversion 1 as [| |? ? s1 s2 H1 H2| | | |]; subst.
    apply Lang_times_Class in H1 as [Hlen1 Hall1].
    apply Lang_optional_Class in H2 as [Hlen2 Hall2].
    rewrite append_length, allOf_append, Hall1, Hall2. split; [lia|reflexivity].
  - intros [[Hlo Hhi] Hall].
    assert (Hsplit : forall n t, (n <= String.length t)%nat ->
                                 exists t1 t2, t = t1 ++ t2 /\ String.length t1 = n).
    { induction n as [|n IHn]; intros t Ht.
      - now exists "", t.
      - destruct t as [|c t]; [cbn in Ht; lia|].
        cbn [String.length] in Ht.
        destruct (IHn t) as (t1 & t2 & -> & Hlen); [lia|].
        exists (String c t1), t2. cbn [append String.length]. now rewrite Hlen. }
    destruct (Hsplit lo s Hlo) as (s1 & s2 & -> & Hlen).
    rewrite allOf_append in Hall. apply andb_true_iff in Hall as [Hall1 Hall2].
    rewrite append_length in Hhi.
    constructor.
    + apply Lang_times_Class. now split.
    + apply Lang_optional_Class. split; [lia|exact Hall2].
Qed.

(** One or more repetitions of a pattern. *)
Lemma Lang_Star_pieces (r : regex) (s : string) :
  Lang (Star r) s
  <-> exists pieces, Forall (Lang r) pieces /\ s = fold_right append "" pieces.
Proof.
  split.
  - intros H. remember (Star r) as r' eqn:Hr.
    induction H as [| | | | |r0|r0 s1 s2 H1 _ H2 IH2]; try discriminate.
    + exists []. now split.
    + injection Hr as ->. destruct (IH2 eq_refl) as (pieces & Hall & ->).
      exists (s1 :: pieces). split; [now constructor|reflexivity].
  - intros (pieces & Hall & ->).
    induction Hall as [|p pieces Hp _ IH]; cbn [fold_right]; now constructor.
Qed.

End PatternFacts.

Module SchemaLaws.

Import Pattern Schema Laws PatternFacts.

Lemma removeNonDigits_digits (s : string) : allOf digit (removeNonDigits s) = true.
Proof.
  induction s as [|c s IH]; cbn [removeNonDigits]; [reflexivity|].
  destruct (digit c) eqn:Hc; [|exact IH]. cbn [allOf]. now rewrite Hc.
Qed.

Lemma removeNonDigits_append (s1 s2 : string) :
  removeNonDigits (s1 ++ s2) = removeNonDigits s1 ++ removeNonDigits s2.
Proof.
  induction s1 as [|c s1 IH]; cbn [append removeNonDigits]; [reflexivity|].
  destruct (digit c); cbn [append]; now rewrite IH.
Qed.

Lemma removeNonDigits_separator (sep : string) :
  allOf (fun c => negb (digit c)) sep = true -> removeNonDigits sep = "".
Proof.
  induction sep as [|c sep IH]; cbn [allOf removeNonDigits]; [reflexivity|].
  intros H. apply andb_true_iff in H as [Hc Hs].
  apply negb_true_iff in Hc. rewrite Hc. now apply IH.
Qed.

(** X28.  The ZIP pattern accepts exactly the texts of five digits.  The phone
    validator counts digits and nothing else: it accepts exactly when the
    text holds ten or eleven digits, however they are separated, and it
    rejects an absent number. *)
Theorem digit_patterns :
  (forall s : string,
      test zipPattern s = true <-> String.length s = 5%nat /\ allOf digit s = true)
  /\ (forall v : option string,
        phoneValidator v = true <-> digitCount v = 10%nat \/ digitCount v = 11%nat)
  /\ (forall a sep b : string,
        allOf (fun c => negb (digit c)) sep = true ->
        phoneValidator (Some (a ++ sep ++ b)) = phoneValidator (Some (a ++ b)))
  /\ phoneValidator None = false.
Proof.
  split; [|split; [|split]].
  - intros s. unfold zipPattern. rewrite test_Lang. apply Lang_times_Class.
  - intros v. unfold phoneValidator, phonePattern, digitCount.
    rewrite test_Lang, Lang_between_Class by lia.
    rewrite removeNonDigits_digits. split.
    + intros [Hlen _]. lia.
    + intros Hlen. split; [lia|reflexivity].
  - intros a sep b Hsep. unfold phoneValidator.
    rewrite !removeNonDigits_append, (removeNonDigits_separator sep Hsep).
    reflexivity.
  - reflexivity.
Qed.

Lemma digit_patterns_witness :
  phoneValidator (Some ("(312" ++ ") " ++ "5550100")) = phoneValidator (Some ("(312" ++ "5550100")).
Proof.
  apply (proj1 (proj2 (proj2 digit_patterns)) "(312" ") " "5550100").
  reflexivity.
Defined.

Lemma isAt_spec (c : ascii) : isAt c = true <-> c = "@"%char.
Proof. apply Ascii.eqb_eq. Qed.

Lemma isDot_spec (c : ascii) : isDot c = true <-> c = "."%char.
Proof. apply Ascii.eqb_eq. Qed.

Lemma Lang_label (p : string) :
  Lang (Seq (plus (Class labelChar)) (Class isDot)) p
  <-> exists label, p = label ++ "." /\ wordOver labelChar label.
Proof.
  split.
  - inversion 1 as [| |? ? s1 s2 H1 H2| | | |]; subst.
    apply Lang_plus_Class in H1. apply Lang_Class in H2 as (c & -> & Hc).
    apply isDot_spec in Hc as ->. now exists s1.
  - intros (label & -> & Hl). constructor.
    + now apply Lang_plus_Class.
    + now constructor.
Qed.

Lemma Lang_labels (d : string) :
  Lang (Star (Seq (plus (Class labelChar)) (Class isDot))) d
  <-> exists labels, Forall (wordOver labelChar) labels /\ d = dotted labels.
Proof.
  rewrite Lang_Star_pieces. split.
  - intros (pieces & Hall & ->).
    induction Hall as [|p pieces Hp _ (labels & Hl & IH)].
    + exists []. now split.
    + apply Lang_label in Hp as (label & -> & Hlabel).
      exists (label :: labels). split; [now constructor|].
      cbn [fold_right dotted]. fold (dotted labels).
      now rewrite IH, append_assoc.
  - intros (labels & Hall & ->).
    induction Hall as [|label labels Hlabel _ (pieces & Hp & IH)].
    + exists []. now split.
    + exists ((label ++ ".") :: pieces). split.
      * constructor; [|exact Hp]. apply Lang_label. now exists label.
      * cbn [fold_right dotted]. fold (dotted labels).
        now rewrite IH, append_assoc.
Qed.

(** X29.  The e-mail pattern accepts exactly the texts made of a non-empty
    local part of word characters, hyphens and dots, an at sign, one or
    more non-empty labels of word characters and hyphens, each followed by
    a dot, and a last label of two to four such characters. *)
Theorem email_pattern_shape (s : string) :
  test emailPattern s = true <-> emailShape s.
Proof.
  rewrite test_Lang. unfold emailPattern, emailShape. split.
  - inversion 1 as [| |? ? local rest Hlocal Hrest| | | |]; subst.
    inversion Hrest as [| |? ? at' rest' Hat Hrest'| | | |]; subst.
    inversion Hrest' as [| |? ? domain last Hdomain Hlast| | | |]; subst.
    apply Lang_plus_Class in Hlocal.
    apply Lang_Class in Hat as (c & -> & Hc). apply isAt_spec in Hc as ->.
    apply Lang_between_Class in Hlast as [Hlen Hall]; [|lia].
    unfold plus in Hdomain.
    inversion Hdomain as [| |? ? first others Hfirst Hothers| | | |]; subst.
    apply Lang_label in Hfirst as (label & -> & Hlabel).
    apply Lang_labels in Hothers as (labels & Hlabels & ->).
    exists local, (label :: labels), last.
    split.
    { cbn [dotted fold_right]. fold (dotted labels).
      now rewrite !append_assoc. }
    split; [exact Hlocal|]. split; [discriminate|].
    split; [now constructor|]. now split.
  - intros (local & labels & last & -> & Hlocal & Hne & Hlabels & Hall & Hlen).
    destruct labels as [|label labels]; [now elim Hne|].
    inversion Hlabels as [|? ? Hlabel Hrest]; subst.
    constructor; [now apply Lang_plus_Class|].
    change ("@" ++ dotted (label :: labels) ++ last)
      with (String "@" "" ++ (dotted (label :: labels) ++ last)).
    constructor; [constructor; reflexivity|].
    constructor.
    + cbn [dotted fold_right]. fold (dotted labels).
      rewrite <- append_assoc. unfold plus. constructor.
      * apply Lang_label. now exists label.
      * apply Lang_labels. now exists labels.
    + apply Lang_between_Class; [lia|]. now split.
Qed.

(** Addresses the pattern accepts and rejects. *)
Example email_examples :
  test emailPattern "ada.byron-king@mail.example.com" = true
  /\ test emailPattern "ada@example.museum" = false
  /\ test emailPattern "ada+remodel@example.com" = false
  /\ test emailPattern "ada@localhost" = false
  /\ test emailPattern "ada@example.c" = false.
Proof. repeat split. Qed.

End SchemaLaws.

(* ===================================================================== *)
(** ** The earlier revision of the sanitizer                              *)
(* ===================================================================== *)

Module LegacyLaws.

Import JSValue Spec Laws SanitizerFacts.

Lemma lookup_define_same (k : string) (v : value) (fields : list (string * value)) :
  lookup k (Legacy.define k v fields) = v.
Proof.
  induction fields as [|[k' v'] fields IH]; cbn [Legacy.define lookup].
  - now rewrite String.eqb_refl.
  - destruct (String.eqb_spec k k') as [->|Hk]; cbn [lookup].
    + now rewrite String.eqb_refl.
    + rewrite (proj2 (String.eqb_neq k k') Hk). exact IH.
Qed.

Lemma lookup_define_other (k k0 : string) (v : value) (fields : list (string * value)) :
  k0 <> k -> lookup k0 (Legacy.define k v fields) = lookup k0 fields.
Proof.
  intros Hne. induction fields as [|[k' v'] fields IH]; cbn [Legacy.define lookup].
  - now rewrite (proj2 (String.eqb_neq k0 k) Hne).
  - destruct (String.eqb_spec k k') as [->|Hk]; cbn [lookup].
    + now rewrite (proj2 (String.eqb_neq k0 k') Hne).
    + now rewrite IH.
Qed.

Lemma fixItem_legacy (category item : value) :
  legacyItem (prop category "key") item (Legacy.fixItem category item).
Proof.
  unfold legacyItem, Legacy.fixItem.
  destruct item as [| |b|q|s|l|f]; cbn [truthy typeofObject negb orb];
    try reflexivity; try exact I.
  - now rewrite orb_true_r.
  - now rewrite orb_true_r.
  - now rewrite orb_true_r.
  - cbn [Legacy.spread prop]. split.
    + apply lookup_define_same.
    + intros k Hk. now apply lookup_define_other.
Qed.

Lemma fixItems_legacy (category : value) (items : list value) :
  Forall2 (legacyItem (prop category "key")) items (map (Legacy.fixItem category) items).
Proof.
  induction items as [|item items IH]; cbn [map]; constructor;
    [apply fixItem_legacy|exact IH].
Qed.

Lemma fixCategory_legacy (category category' : value) :
  Legacy.fixCategory category = Ok category' -> legacyCategory category category'.
Proof.
  unfold legacyCategory, Legacy.fixCategory.
  destruct category as [| |b|q|s|l|f]; cbn [truthy typeofObject negb orb];
    try (now intros [= <-]); try (intros _; exact I).
  - rewrite orb_true_r. now intros [= <-].
  - rewrite orb_true_r. now intros [= <-].
  - rewrite orb_true_r. now intros [= <-].
  - destruct (elementsOrEmpty (prop (VObj f) "workItems")) as [items|e] eqn:He;
      cbn [bind]; [|discriminate].
    intros [= <-]. cbn [Legacy.spread]. split.
    + intros k Hk. cbn [prop]. now apply lookup_define_other.
    + eexists. split; [cbn [prop]; apply lookup_define_same|].
      rewrite <- (elementsOrEmpty_rawItems (VObj f) items He).
      apply fixItems_legacy.
Qed.

(** X30.  Whenever the earlier sanitizer returns, it returns one category for
    each one sent, in order; an object category keeps every property but
    [workItems], which holds one work item for each one sent, in order;
    an object work item gets the key of its category as [categoryKey],
    replacing one it was sent with, and keeps every other property; a
    category or work item that is not an object is returned as it is.  No
    work item is dropped, whatever its type. *)
Theorem legacy_sets_category_keys (cats : list value) (out : value) :
  Legacy.ensureCategoryKeys (VArr cats) = Ok out ->
  exists outs, out = VArr outs /\ Forall2 legacyCategory cats outs.
Proof.
  unfold Legacy.ensureCategoryKeys.
  destruct (Legacy.mapCategories cats) as [outs|e] eqn:Hm; cbn [bind]; [|discriminate].
  intros [= <-]. exists outs. split; [reflexivity|].
  revert outs Hm. induction cats as [|c cats IH]; intros outs; cbn [Legacy.mapCategories].
  - intros [= <-]. constructor.
  - destruct (Legacy.fixCategory c) as [c'|e] eqn:Hc; cbn [bind]; [|discriminate].
    destruct (Legacy.mapCategories cats) as [rest|e]; cbn [bind]; [|discriminate].
    intros [= <-]. constructor; [now apply fixCategory_legacy|now apply IH].
Qed.

Lemma legacy_sets_category_keys_witness :
  exists outs,
    VArr [ VObj [ ("key", VStr "kitchen"); ("name", VStr "Kitchen");
                  ("workItems",
                   VArr [ VObj [ ("name", VStr "Draft");
                                 ("categoryKey", VStr "kitchen") ];
                          VNull ]) ] ]
    = VArr outs
    /\ Forall2 legacyCategory [Examples.kitchenWith [Samples.untypedItem; VNull]] outs.
Proof.
  apply (legacy_sets_category_keys [Examples.kitchenWith [Samples.untypedItem; VNull]]).
  reflexivity.
Defined.

End LegacyLaws.
